(** * SpecRun: OpenAPI documents compiled to callable tools

    A shallow embedding of the TypeScript sources of SpecRun and the
    properties its specification states about them:

    - [Parser]: tool naming and parameter extraction (utils/openapi-parser.ts)
    - [Auth]: credentials derived from environment variables (utils/auth.ts)
    - [Http]: request construction and execution (utils/http-client.ts)
    - [Tools]: schema synthesis and the batch dispatcher (tools.ts)
    - [Server]: hot reload of base URLs (server.ts)
    - [Compiler]: base URLs, server variables and the tools of a document
      (utils/openapi-parser.ts)
    - [Debug]: redaction in the debug log (utils/http-client.ts)
    - [Registrar]: registration of the tools of a document (tools.ts)
    - [EnvFile]: placeholders in the configuration file (utils/auth.ts)
    - [Prompts]: text interpolated into prompts (prompts.ts)

    Conventions.  JavaScript values are finite JSON trees ([Json]); a missing
    property or an [undefined] is [None].  An object is the list of its own
    properties; [inheritedMember] tells the names a plain object answers to
    through its prototype as well.  Strings are sequences of 8-bit
    characters, so case conversion and character classes are the ASCII ones.
    Numbers are integers: no property below depends on a fractional value.
    Code that can throw returns a [Completion]. *)

From Stdlib Require Import ZArith Lia Bool Ascii String List.
From stdpp Require Import base option list gmap strings pretty.

Set Warnings "-register-all".

Local Open Scope Z_scope.

(** ** JavaScript values *)

Inductive Json : Type :=
| JNull
| JBool (b : bool)
| JNum (n : Z)
| JStr (s : string)
| JArr (items : list Json)
| JObj (fields : list (string * Json)).

(** [Object.entries] order is the order of [fields]; keys are distinct. *)
Definition Obj : Type := list (string * Json).

Fixpoint assoc {A : Type} (key : string) (fields : list (string * A)) : option A :=
  match fields with
  | [] => None
  | (k, v) :: rest => if String.eqb k key then Some v else assoc key rest
  end.

(** [obj[key] = v]: overwrite in place, or append a new property. *)
Definition set_field {A : Type} (key : string) (v : A) (fields : list (string * A))
    : list (string * A) :=
  if bool_decide (is_Some (assoc key fields))
  then map (fun kv => if String.eqb (fst kv) key then (fst kv, v) else kv) fields
  else fields ++ [(key, v)].

(** [v.key]: own-property read; [undefined] on anything that is not an
    object literal. *)
Definition get (v : Json) (key : string) : option Json :=
  match v with
  | JObj fields => assoc key fields
  | _ => None
  end.

(** The members of [Object.prototype].  On a plain object a read of one of
    these names that is no own property answers the inherited member, not
    [undefined], and an assignment to [__proto__] adds no own property. *)
Definition objectPrototypeMembers : list string :=
  [ "constructor"; "__proto__"; "hasOwnProperty"; "isPrototypeOf";
    "propertyIsEnumerable"; "toLocaleString"; "toString"; "valueOf";
    "__defineGetter__"; "__defineSetter__"; "__lookupGetter__";
    "__lookupSetter__" ].

Definition inheritedMember (key : string) : bool :=
  existsb (String.eqb key) objectPrototypeMembers.

(** [v?.key] and [v.key] on a possibly undefined receiver that the code has
    already tested. *)
Definition get_opt (v : option Json) (key : string) : option Json :=
  match v with
  | Some o => get o key
  | None => None
  end.

(** ToBoolean. *)
Definition truthy_val (v : Json) : bool :=
  match v with
  | JNull => false
  | JBool b => b
  | JNum n => negb (n =? 0)
  | JStr s => negb (String.eqb s EmptyString)
  | JArr _ | JObj _ => true
  end.

Definition truthy (v : option Json) : bool :=
  match v with
  | Some x => truthy_val x
  | None => false
  end.

(** [typeof v === "object"] (true of [null], arrays and objects). *)
Definition typeof_object (v : option Json) : bool :=
  match v with
  | Some JNull | Some (JArr _) | Some (JObj _) => true
  | _ => false
  end.

Definition typeof_string (v : option Json) : bool :=
  match v with
  | Some (JStr _) => true
  | _ => false
  end.

(** [v === "lit"]. *)
Definition is_str (v : option Json) (lit : string) : bool :=
  match v with
  | Some (JStr s) => String.eqb s lit
  | _ => false
  end.

(** [String(v)], as used by template literals. *)
Fixpoint js_String (v : Json) : string :=
  match v with
  | JNull => "null"
  | JBool true => "true"
  | JBool false => "false"
  | JNum n => pretty n
  | JStr s => s
  | JArr items =>
      String.concat ","
        (map (fun x => match x with JNull => EmptyString | _ => js_String x end) items)
  | JObj _ => "[object Object]"
  end.

Definition js_String_opt (v : option Json) : string :=
  match v with
  | Some x => js_String x
  | None => "undefined"
  end.

(** A string-typed property of a validated document. *)
Definition as_string (v : option Json) : string :=
  match v with
  | Some (JStr s) => s
  | _ => EmptyString
  end.

(** [Object.entries(v)] and [Object.values(v)]: the fields of an object, the
    indexed elements of an array, the indexed characters of a string. *)
Definition Object_entries (v : Json) : Obj :=
  match v with
  | JObj fields => fields
  | JArr items => imap (fun i x => (pretty (Z.of_nat i), x)) items
  | JStr s =>
      imap (fun i c => (pretty (Z.of_nat i), JStr (String c EmptyString)))
        (list_ascii_of_string s)
  | _ => []
  end.

Definition Object_values (v : Json) : list Json := map snd (Object_entries v).

(** ** Strings *)

Definition is_upper (c : ascii) : bool :=
  let n := nat_of_ascii c in (65 <=? n)%nat && (n <=? 90)%nat.
Definition is_lower (c : ascii) : bool :=
  let n := nat_of_ascii c in (97 <=? n)%nat && (n <=? 122)%nat.
Definition is_digit (c : ascii) : bool :=
  let n := nat_of_ascii c in (48 <=? n)%nat && (n <=? 57)%nat.
Definition is_alnum (c : ascii) : bool := is_upper c || is_lower c || is_digit c.

Definition lower_char (c : ascii) : ascii :=
  if is_upper c then ascii_of_nat (nat_of_ascii c + 32) else c.
Definition upper_char (c : ascii) : ascii :=
  if is_lower c then ascii_of_nat (nat_of_ascii c - 32) else c.

Fixpoint map_string (f : ascii -> ascii) (s : string) : string :=
  match s with
  | EmptyString => EmptyString
  | String c rest => String (f c) (map_string f rest)
  end.

Fixpoint filter_string (keep : ascii -> bool) (s : string) : string :=
  match s with
  | EmptyString => EmptyString
  | String c rest =>
      if keep c then String c (filter_string keep rest) else filter_string keep rest
  end.

Fixpoint forall_string (p : ascii -> bool) (s : string) : bool :=
  match s with
  | EmptyString => true
  | String c rest => p c && forall_string p rest
  end.

Definition toLowerCase : string -> string := map_string lower_char.
Definition toUpperCase : string -> string := map_string upper_char.

Definition nonempty (s : string) : bool :=
  match s with
  | EmptyString => false
  | String _ _ => true
  end.

Definition startsWith (s pre : string) : bool := String.prefix pre s.

Fixpoint drop_string (n : nat) (s : string) : string :=
  match n, s with
  | O, _ => s
  | S m, String _ rest => drop_string m rest
  | S _, EmptyString => EmptyString
  end.

(** [s.endsWith(suf)]. *)
Definition endsWith (s suf : string) : bool :=
  let n := String.length s in
  let k := String.length suf in
  (k <=? n)%nat && String.eqb (drop_string (n - k) s) suf.

(** [s.includes(sub)]. *)
Fixpoint includes (s sub : string) : bool :=
  String.prefix sub s ||
  match s with
  | EmptyString => false
  | String _ rest => includes rest sub
  end.

(** [s.split(sep)] for a one-character separator. *)
Fixpoint split (sep : ascii) (s : string) : list string :=
  match s with
  | EmptyString => [EmptyString]
  | String c rest =>
      if Ascii.eqb c sep then EmptyString :: split sep rest
      else match split sep rest with
           | part :: parts => String c part :: parts
           | [] => [String c EmptyString]
           end
  end.

(** [parts.join(sep)]. *)
Fixpoint join (sep : string) (parts : list string) : string :=
  match parts with
  | [] => EmptyString
  | [part] => part
  | part :: rest => part +:+ sep +:+ join sep rest
  end.

(** Dropping the characters that satisfy [p] from the start, from the end. *)
Fixpoint stripStart (p : ascii -> bool) (s : string) : string :=
  match s with
  | String c rest => if p c then stripStart p rest else s
  | EmptyString => EmptyString
  end.

Fixpoint stripEnd (p : ascii -> bool) (s : string) : string :=
  match s with
  | EmptyString => EmptyString
  | String c rest =>
      match stripEnd p rest with
      | EmptyString => if p c then EmptyString else String c EmptyString
      | kept => String c kept
      end
  end.

(** [s.trim()]. *)
Definition trim (s : string) : string := stripEnd Ascii.is_space (stripStart Ascii.is_space s).

Fixpoint take_string (n : nat) (s : string) : string :=
  match n, s with
  | S m, String c rest => String c (take_string m rest)
  | _, _ => EmptyString
  end.

(** [a || b] on strings. *)
Definition or_string (a b : string) : string := if nonempty a then a else b.

(** ** Completions: a value returned or an exception thrown *)

Inductive Completion (A : Type) : Type :=
| Returned (a : A)
| Threw (message : string).
Arguments Returned {A} a.
Arguments Threw {A} message.

Definition bind {A B : Type} (c : Completion A) (k : A -> Completion B) : Completion B :=
  match c with
  | Returned a => k a
  | Threw e => Threw e
  end.

Notation "'do' x <- c ; k" := (bind c (fun x => k))
  (at level 10, x name, c at level 100, k at level 200).

(** ** Data model (types.ts) *)

Record ToolParameter : Type := {
  name : string;
  in_ : string;
  required : bool;
  schema : Json;
  description : option Json
}.

Record GeneratedTool : Type := {
  tool_name : string;
  tool_description : string;
  operationId : option Json;
  method : string;
  path : string;
  parameters : list ToolParameter;
  requestBody : option Json;
  responses : option Json;
  security : option Json;
  baseUrl : string
}.

Record RequestConfig : Type := {
  cfg_method : string;
  cfg_url : string;
  cfg_headers : list (string * string);
  cfg_timeout : Z;
  cfg_params : option Obj;
  cfg_data : option Json
}.

Inductive Status : Type :=
| StatusCode (code : Z)
| StatusText (text : string).

Record ApiCallResult : Type := {
  requestUrl : string;
  result_requestBody : Json;
  response_status : Status;
  response_body : Json
}.

(** ** Collaborators *)

(** Validators of the schema library, as the synthesizer builds them. *)
Inductive UnknownKeys : Type := Strip | Strict | Loose.

Inductive ZodType : Type :=
| ZAny
| ZString
| ZNumber
| ZInt
| ZBoolean
| ZArray (element : ZodType)
| ZObject (shape : list (string * ZodType)) (unknownKeys : UnknownKeys)
    (catchall : option ZodType)
| ZOptional (inner : ZodType)
| ZDescribe (inner : ZodType) (text : string).

Inductive SafeParse : Type :=
| ParseSuccess (data : Json)
| ParseFailure (message : string).

(** What the HTTP library hands back: a response, a failure of its own
    (with the response when the remote sent one), or anything else thrown. *)
Record Response : Type := {
  status : Z;
  data : option Json
}.

Inductive Failure : Type :=
| AxiosError (response : option Response)
| OtherError (message : string).

Inductive AxiosOutcome : Type :=
| Resolved (response : Response)
| Rejected (error : Failure).

(** A parsed URL: its path, and its serialization once the path is replaced. *)
Record Url : Type := {
  pathname : string;
  withPathname : string -> string
}.

(** Built-ins and libraries.  [serializeUrl u q] is [new URL(u)] with the
    pairs [q] appended to its search parameters, re-serialized; [parseUrl u]
    is [new URL(u)]; both are [None] when the constructor throws. *)
Record Platform : Type := {
  encodeURIComponent : string -> Completion string;
  base64 : string -> string;
  JSON_stringify : Json -> string;
  serializeUrl : string -> list (string * string) -> option string;
  parseUrl : string -> option Url;
  safeParse : ZodType -> Json -> SafeParse
}.

(** What one invocation observes of its surroundings: the environment
    variables once the configuration file is loaded, the modification time of
    that file, the identifier [randomUUID] draws, the clock at the
    confirmation check and at token issuance, and the transport's answer to
    the n-th request of the process. *)
Record World : Type := {
  env : list (string * option string);
  envMtimeMs : option Z;
  uuid : string;
  now_confirm : Z;
  now_issue : Z;
  axios : nat -> RequestConfig -> AxiosOutcome
}.

(** * utils/openapi-parser.ts *)

Module Parser.

(** [generateToolName]. *)
Definition pathSegments (pathTemplate : string) : list string :=
  map (filter_string is_alnum)
    (List.filter (fun part => nonempty part && negb (startsWith part "{"))
       (split "/" pathTemplate)).

Definition generateToolName (apiName : string) (operation : Json)
    (pathTemplate method : string) : string :=
  if truthy (get operation "operationId") then
    apiName +:+ "_" +:+ js_String_opt (get operation "operationId")
  else
    let pathParts := pathSegments pathTemplate in
    let pathName := or_string (join "_" pathParts) "root" in
    apiName +:+ "_" +:+ method +:+ "_" +:+ pathName.

(** [part.replace(/~1/g, "/").replace(/~0/g, "~")]. *)
Fixpoint replace_pair (c1 c2 by_ : ascii) (s : string) : string :=
  match s with
  | String a (String b rest as tail) =>
      if Ascii.eqb a c1 && Ascii.eqb b c2 then String by_ (replace_pair c1 c2 by_ rest)
      else String a (replace_pair c1 c2 by_ tail)
  | _ => s
  end.

Definition unescapePointer (part : string) : string :=
  replace_pair "~" "0" "~" (replace_pair "~" "1" "/" part).

(** [part in current] and [current[part]] on own properties: the keys of an
    object, the indices and [length] of an array. *)
Fixpoint nth_by_key (part : string) (i : nat) (items : list Json) : option Json :=
  match items with
  | [] => None
  | x :: rest =>
      if String.eqb (pretty (Z.of_nat i)) part then Some x
      else nth_by_key part (S i) rest
  end.

Definition member (current : Json) (part : string) : option Json :=
  match current with
  | JObj fields => assoc part fields
  | JArr items =>
      if String.eqb part "length" then Some (JNum (Z.of_nat (length items)))
      else nth_by_key part 0 items
  | _ => None
  end.

Fixpoint walk (current : Json) (parts : list string) : option Json :=
  match parts with
  | [] => Some current
  | part :: rest =>
      if negb (truthy_val current) || negb (typeof_object (Some current)) then None
      else match member current part with
           | Some next => walk next rest
           | None => None
           end
  end.

Definition resolveJsonPointer (root : Json) (ref : string) : option Json :=
  if negb (startsWith ref "#/") then None
  else walk root (map unescapePointer (split "/" (drop_string 2 ref))).

(** A [null] result and a missing value are both [None]; the caller only
    tests [!param]. *)
Definition resolveParameterRef (paramRef : Json) (spec : option Json) : option Json :=
  if negb (truthy_val paramRef) || negb (typeof_object (Some paramRef)) then None
  else match member paramRef "$ref" with
       | None => Some paramRef
       | Some r =>
           let ref := if truthy_val r then js_String r else EmptyString in
           match spec with
           | Some root =>
               if negb (nonempty ref) || negb (truthy_val root) then None
               else resolveJsonPointer root ref
           | None => None
           end
       end.

Definition copy_if_truthy (param : Json) (key : string) (target : Obj) : Obj :=
  match get param key with
  | Some v => if truthy_val v then set_field key v target else target
  | None => target
  end.

Definition getParameterSchema (param : Json) : option Json :=
  if truthy (get param "schema") && typeof_object (get param "schema") then
    get param "schema"
  else
    let fromContent :=
      if truthy (get param "content") && typeof_object (get param "content") then
        let content := get param "content" in
        let preferred :=
          if truthy (get_opt content "application/json")
          then get_opt content "application/json"
          else List.find (fun entry => truthy (Some entry) && truthy (get entry "schema"))
                 (from_option Object_values [] content) in
        if truthy preferred && truthy (get_opt preferred "schema")
        then get_opt preferred "schema" else None
      else None in
    match fromContent with
    | Some s => Some s
    | None =>
        match get param "type" with
        | Some ty =>
            if truthy_val ty then
              let s0 := [("type", ty)] in
              let s1 := copy_if_truthy param "format" s0 in
              let s2 := copy_if_truthy param "items" s1 in
              let s3 := copy_if_truthy param "enum" s2 in
              let s4 := match get param "default" with
                        | Some d => set_field "default" d s3
                        | None => s3
                        end in
              Some (JObj s4)
            else None
        | None => None
        end
    end.

(** The descriptor pushed for one resolved parameter, if any.  [required] is
    the truth value of [param.required || param.in === "path"]; on a boolean
    or missing flag the JavaScript value is that boolean. *)
Definition parameterDescriptor (param : Json) : option ToolParameter :=
  match getParameterSchema param with
  | Some sch =>
      if truthy (get param "in") && truthy (get param "name") then
        Some {| name := as_string (get param "name");
                in_ := as_string (get param "in");
                required := truthy (get param "required") || is_str (get param "in") "path";
                schema := sch;
                description := get param "description" |}
      else None
  | None => None
  end.

Fixpoint extractParameters (paramRefs : list Json) (spec : option Json)
    : list ToolParameter :=
  match paramRefs with
  | [] => []
  | paramRef :: rest =>
      match resolveParameterRef paramRef spec with
      | None => extractParameters rest spec
      | Some param =>
          if negb (truthy_val param) then extractParameters rest spec
          else match parameterDescriptor param with
               | Some d => d :: extractParameters rest spec
               | None => extractParameters rest spec
               end
      end
  end.

(** [resolveServerUrl]: [env] holds the entries of [process.env]. *)
Definition resolveServerUrl (apiName : string) (env : list (string * option string))
    : option string :=
  let envKey := toUpperCase apiName +:+ "_SERVER_URL" in
  match assoc envKey env with
  | Some (Some envValue) =>
      if nonempty (trim envValue) then Some (trim envValue) else None
  | _ => None
  end.

End Parser.

(** * utils/auth.ts *)

Module Auth.

Inductive AuthType : Type := bearer | apiKey | basic.

Inductive ConfigKey : Type := key_token | key_username | key_password.

Record AuthRecord : Type := {
  type : AuthType;
  token : option string;
  username : option string;
  password : option string;
  headerName : option string
}.

Definition AuthType_eqb (a b : AuthType) : bool :=
  match a, b with
  | bearer, bearer | apiKey, apiKey | basic, basic => true
  | _, _ => false
  end.

(** [getEnvPlaceholderValue]. *)
Definition getEnvPlaceholderValue (key : string) : string :=
  if endsWith key "_SERVER_URL" then EmptyString
  else if endsWith key "_BEARER_TOKEN" then EmptyString
  else EmptyString.

(** [path.basename(p)] and [path.extname(p)] on slash-separated paths that
    do not end in a slash. *)
Definition basename (filePath : string) : string :=
  List.last (split "/" filePath) EmptyString.

Fixpoint lastDot (s : string) (i : nat) (found : option nat) : option nat :=
  match s with
  | EmptyString => found
  | String c rest => lastDot rest (S i) (if Ascii.eqb c "." then Some i else found)
  end.

Definition extname (filePath : string) : string :=
  let base := basename filePath in
  if String.eqb base ".." then EmptyString
  else match lastDot base 0 None with
       | Some (S i) => drop_string (S i) base
       | _ => EmptyString
       end.

Definition stripSuffix (s suffix : string) : string :=
  if nonempty suffix && endsWith s suffix
  then take_string (String.length s - String.length suffix) s else s.

(** [s.replace(/[^a-z0-9]+/g, "_")]. *)
Fixpoint collapseRuns (inRun : bool) (s : string) : string :=
  match s with
  | EmptyString => EmptyString
  | String c rest =>
      if is_lower c || is_digit c then String c (collapseRuns false rest)
      else if inRun then collapseRuns true rest
      else String "_" (collapseRuns true rest)
  end.

Definition is_underscore (c : ascii) : bool := Ascii.eqb c "_".

(** [fileName.replace(/([._-])(swagger|openapi)$/i, "")]. *)
Definition dropSpecSuffix (fileName : string) : string :=
  let lower := toLowerCase fileName in
  if endsWith lower ".swagger" || endsWith lower "_swagger" || endsWith lower "-swagger"
     || endsWith lower ".openapi" || endsWith lower "_openapi" || endsWith lower "-openapi"
  then take_string (String.length fileName - 8) fileName
  else fileName.

(** [getApiNameFromFile]. *)
Definition getApiNameFromFile (filePath : string) : string :=
  let fileName := stripSuffix (basename filePath) (extname filePath) in
  stripEnd is_underscore
    (stripStart is_underscore (collapseRuns false (toLowerCase (dropSpecSuffix fileName)))).

(** The keys [ensureEnvKeysForSpecs] finds missing, in the order it appends
    them; [existingKeys] are the keys the configuration file already has. *)
Definition missingKeys (existingKeys : list string) (specFiles : list string) : list string :=
  flat_map
    (fun specFile =>
       let apiName := getApiNameFromFile specFile in
       if negb (nonempty apiName) then []
       else
         let envPrefix := toUpperCase apiName in
         let serverKey := envPrefix +:+ "_SERVER_URL" in
         let bearerKey := envPrefix +:+ "_BEARER_TOKEN" in
         (if existsb (String.eqb serverKey) existingKeys then [] else [serverKey])
         ++ (if existsb (String.eqb bearerKey) existingKeys then [] else [bearerKey]))
    specFiles.

(** The lines [ensureEnvKeysForSpecs] appends: the marker comment unless the
    file already has it, then one line per missing key. *)
Definition ensureEnvKeysForSpecs (existingKeys : list string) (hasMarker : bool)
    (specFiles : list string) : list string :=
  match missingKeys existingKeys specFiles with
  | [] => []
  | missing =>
      (if hasMarker then [] else ["# SpecRun placeholders"])
      ++ map (fun key => key +:+ "=" +:+ getEnvPlaceholderValue key) missing
  end.

(** The variables the appended lines define once the file is loaded. *)
Definition placeholderEntries (existingKeys : list string) (specFiles : list string)
    : list (string * option string) :=
  map (fun key => (key, Some (getEnvPlaceholderValue key)))
    (missingKeys existingKeys specFiles).

(** [.] of a regular expression: any character but a line terminator. *)
Definition is_line_terminator (c : ascii) : bool :=
  Ascii.eqb c "010" || Ascii.eqb c "013".

(** [key.match(/^(.+)SUFFIX$/)]: the first group, when the key matches. *)
Definition matchSuffix (key suffix : string) : option string :=
  if endsWith key suffix then
    let group := take_string (String.length key - String.length suffix) key in
    if nonempty group && forall_string (fun c => negb (is_line_terminator c)) group
    then Some group else None
  else None.

Definition orElse {A : Type} (a b : option A) : option A :=
  match a with
  | Some _ => a
  | None => b
  end.

(** The classification of one key: API name, kind of credential, field. *)
Definition classify (key : string) : option (string * AuthType * ConfigKey) :=
  let apiKeyMatch := matchSuffix key "_API_KEY" in
  let tokenMatch := matchSuffix key "_TOKEN" in
  let bearerMatch := matchSuffix key "_BEARER_TOKEN" in
  let basicUserMatch := matchSuffix key "_USERNAME" in
  let basicPassMatch := matchSuffix key "_PASSWORD" in
  orElse ((fun g => (toLowerCase g, apiKey, key_token)) <$> apiKeyMatch)
  (orElse ((fun g => (toLowerCase g, bearer, key_token)) <$> bearerMatch)
  (orElse (if negb (includes key "BEARER")
           then (fun g => (toLowerCase g, bearer, key_token)) <$> tokenMatch
           else None)
  (orElse ((fun g => (toLowerCase g, basic, key_username)) <$> basicUserMatch)
          ((fun g => (toLowerCase g, basic, key_password)) <$> basicPassMatch)))).

Definition newRecord (t : AuthType) : AuthRecord :=
  {| type := t; token := None; username := None; password := None; headerName := None |}.

Definition setType (t : AuthType) (r : AuthRecord) : AuthRecord :=
  {| type := t; token := token r; username := username r;
     password := password r; headerName := headerName r |}.

Definition setField (k : ConfigKey) (value : string) (r : AuthRecord) : AuthRecord :=
  match k with
  | key_token =>
      {| type := type r; token := Some value; username := username r;
         password := password r; headerName := headerName r |}
  | key_username =>
      {| type := type r; token := token r; username := Some value;
         password := password r; headerName := headerName r |}
  | key_password =>
      {| type := type r; token := token r; username := username r;
         password := Some value; headerName := headerName r |}
  end.

Definition setHeaderName (h : string) (r : AuthRecord) : AuthRecord :=
  {| type := type r; token := token r; username := username r;
     password := password r; headerName := Some h |}.

Definition str_truthy (s : option string) : bool :=
  match s with
  | Some x => nonempty x
  | None => false
  end.

(** The update of [authConfig[apiName]] made for one classified variable. *)
Definition updateRecord (authType : AuthType) (configKey : ConfigKey) (value : string)
    (existing : option AuthRecord) : AuthRecord :=
  let r0 := match existing with
            | Some r => r
            | None => newRecord authType
            end in
  let r1 := if AuthType_eqb authType bearer && negb (AuthType_eqb (type r0) bearer)
            then setType authType r0 else r0 in
  let r2 := setField configKey value r1 in
  if AuthType_eqb authType apiKey && negb (str_truthy (headerName r2))
  then setHeaderName "X-API-Key" r2 else r2.

(** One iteration of the loop over [Object.entries(process.env)]. *)
Definition scanEntry (authConfig : gmap string AuthRecord)
    (entry : string * option string) : gmap string AuthRecord :=
  let '(key, value) := entry in
  if negb (str_truthy value) then authConfig
  else
    match value, classify key with
    | Some v, Some (apiName, authType, configKey) =>
        if nonempty apiName then
          <[apiName := updateRecord authType configKey v (authConfig !! apiName)]> authConfig
        else authConfig
    | _, _ => authConfig
    end.

(** [loadAuthConfig], on the entries of [process.env] after the
    configuration file has been loaded into it. *)
Definition loadAuthConfig (env : list (string * option string)) : gmap string AuthRecord :=
  fold_left scanEntry env ∅.

(** [applyAuthentication]; [base64] is [Buffer.from(s).toString("base64")]. *)
Definition applyAuthentication (base64 : string -> string)
    (headers : list (string * string)) (authConfig : option AuthRecord)
    : list (string * string) :=
  match authConfig with
  | None => headers
  | Some cfg =>
      match type cfg with
      | bearer =>
          match token cfg with
          | Some t =>
              if nonempty t then set_field "Authorization" ("Bearer " +:+ t) headers
              else headers
          | None => headers
          end
      | apiKey =>
          match token cfg, headerName cfg with
          | Some t, Some h =>
              if nonempty t && nonempty h then set_field h t headers else headers
          | _, _ => headers
          end
      | basic =>
          match username cfg, password cfg with
          | Some u, Some p =>
              if nonempty u && nonempty p
              then set_field "Authorization"
                     ("Basic " +:+ base64 (u +:+ ":" +:+ p)) headers
              else headers
          | _, _ => headers
          end
      end
  end.

End Auth.

(** * utils/http-client.ts *)

Module Http.

(** [s.replace(/\/$/, "")]. *)
Definition stripTrailingSlash (s : string) : string :=
  if endsWith s "/" then take_string (String.length s - 1) s else s.

(** [s.replace(pat, by_)] with a string pattern: the first occurrence. *)
Fixpoint replaceFirst (pat by_ s : string) : string :=
  if String.prefix pat s then by_ +:+ drop_string (String.length pat) s
  else match s with
       | EmptyString => EmptyString
       | String c rest => String c (replaceFirst pat by_ rest)
       end.

Section WithPlatform.
Variable P : Platform.

Fixpoint substitutePath (params : list ToolParameter) (args : Json) (url : string)
    : Completion string :=
  match params with
  | [] => Returned url
  | param :: rest =>
      match get args (name param) with
      | Some v =>
          if String.eqb (in_ param) "path" then
            do enc <- encodeURIComponent P (js_String v);
            substitutePath rest args (replaceFirst ("{" +:+ name param +:+ "}") enc url)
          else substitutePath rest args url
      | None => substitutePath rest args url
      end
  end.

Definition buildUrl (tool : GeneratedTool) (args : Json) : Completion string :=
  substitutePath (parameters tool) args (stripTrailingSlash (baseUrl tool) +:+ path tool).

Fixpoint addHeaderParameters (params : list ToolParameter) (args : Json)
    (headers : list (string * string)) : list (string * string) :=
  match params with
  | [] => headers
  | param :: rest =>
      match get args (name param) with
      | Some v =>
          if String.eqb (in_ param) "header"
          then addHeaderParameters rest args (set_field (name param) (js_String v) headers)
          else addHeaderParameters rest args headers
      | None => addHeaderParameters rest args headers
      end
  end.

Fixpoint buildQueryParameters (params : list ToolParameter) (args : Json) (acc : Obj)
    : Obj :=
  match params with
  | [] => acc
  | param :: rest =>
      match get args (name param) with
      | Some v =>
          if String.eqb (in_ param) "query"
          then buildQueryParameters rest args (set_field (name param) v acc)
          else buildQueryParameters rest args acc
      | None => buildQueryParameters rest args acc
      end
  end.

(** [paramNames.has(key)]. *)
Definition isParamName (tool : GeneratedTool) (key : string) : bool :=
  existsb (fun p => String.eqb (name p) key) (parameters tool).

(** The arguments that match no declared parameter name. *)
Definition leftoverArgs (tool : GeneratedTool) (args : Json) : Obj :=
  List.filter (fun kv => negb (isParamName tool (fst kv))) (Object_entries args).

(** [buildRequestBody]; the result [JNull] is the code's [null]. *)
Definition buildRequestBody (tool : GeneratedTool) (args : Json) : Json :=
  if negb (truthy (requestBody tool)) then
    match List.find (fun param => String.eqb (in_ param) "body") (parameters tool) with
    | None => JNull
    | Some bodyParam =>
        match get args (name bodyParam) with
        | Some v => v
        | None =>
            match get args "body" with
            | Some v => v
            | None => JNull
            end
        end
    end
  else
    match get args "body" with
    | Some v => v
    | None =>
        match get args "requestBody" with
        | Some v => v
        | None =>
            let bodyArgs := leftoverArgs tool args in
            if (0 <? length bodyArgs)%nat then JObj bodyArgs else JNull
        end
    end.

Definition is_null (v : Json) : bool :=
  match v with
  | JNull => true
  | _ => false
  end.

Definition buildRequestConfig (tool : GeneratedTool) (authConfig : option Auth.AuthRecord)
    (args : Json) : Completion RequestConfig :=
  do url <- buildUrl tool args;
  let headers0 := [("User-Agent", "specrun/1.0.0"); ("Accept", "application/json")] in
  let headers1 := Auth.applyAuthentication (base64 P) headers0 authConfig in
  let headers2 := addHeaderParameters (parameters tool) args headers1 in
  let params := buildQueryParameters (parameters tool) args [] in
  let data := buildRequestBody tool args in
  let headers3 :=
    if negb (is_null data) && negb (Auth.str_truthy (assoc "Content-Type" headers2))
    then set_field "Content-Type" "application/json" headers2 else headers2 in
  Returned {| cfg_method := toLowerCase (method tool);
              cfg_url := url;
              cfg_headers := headers3;
              cfg_timeout := 30000;
              cfg_params := if (0 <? length params)%nat then Some params else None;
              cfg_data := if negb (is_null data) then Some data else None |}.

(** The pairs [buildRequestUrl] appends for one query parameter. *)
Definition searchPairs (kv : string * Json) : list (string * string) :=
  match snd kv with
  | JNull => []
  | JArr items => map (fun entry => (fst kv, js_String entry)) items
  | JObj _ => [(fst kv, JSON_stringify P (snd kv))]
  | v => [(fst kv, js_String v)]
  end.

Definition buildRequestUrl (config : RequestConfig) : string :=
  let baseUrl := cfg_url config in
  let params := from_option id [] (cfg_params config) in
  if negb (nonempty baseUrl) || (length params =? 0)%nat then baseUrl
  else match serializeUrl P baseUrl (concat (map searchPairs params)) with
       | Some u => u
       | None => baseUrl
       end.

(** [x ?? null]. *)
Definition orNull (v : option Json) : Json :=
  match v with
  | Some x => x
  | None => JNull
  end.

(** The [catch] block of [executeRequest]. *)
Definition failureResult (requestConfig : option RequestConfig) (error : Failure)
    : ApiCallResult :=
  let url := match requestConfig with
             | Some c => buildRequestUrl c
             | None => EmptyString
             end in
  let body := orNull (requestConfig ≫= cfg_data) in
  match error with
  | AxiosError response =>
      {| requestUrl := url;
         result_requestBody := body;
         response_status := match response with
                            | Some r => StatusCode (status r)
                            | None => StatusText "Unknown"
                            end;
         response_body := orNull (response ≫= data) |}
  | OtherError message =>
      {| requestUrl := url;
         result_requestBody := body;
         response_status := StatusText "Error";
         response_body := JObj [("error", JStr message)] |}
  end.

(** [executeRequest]: [axios] answers the request that was built.  The
    debug-log calls only append to a file and are left out. *)
Definition executeRequest (axios : RequestConfig -> AxiosOutcome)
    (tool : GeneratedTool) (authConfig : option Auth.AuthRecord) (args : Json)
    : Completion ApiCallResult :=
  match buildRequestConfig tool authConfig args with
  | Threw message => Returned (failureResult None (OtherError message))
  | Returned requestConfig =>
      match axios requestConfig with
      | Resolved response =>
          Returned {| requestUrl := buildRequestUrl requestConfig;
                      result_requestBody := orNull (cfg_data requestConfig);
                      response_status := StatusCode (status response);
                      response_body := orNull (data response) |}
      | Rejected error => Returned (failureResult (Some requestConfig) error)
      end
  end.

End WithPlatform.

End Http.

(** * server.ts and tools.ts: shared state *)

Record ParsedSpec : Type := {
  apiName : string;
  filePath : string;
  spec : Json;
  tools : list nat
}.

Record ToolRegistryEntry : Type := {
  entry_spec : ParsedSpec;
  entry_tool : nat;
  entry_schema : ZodType
}.

Record Confirmation : Type := {
  conf_toolName : string;
  conf_count : nat;
  expiresAt : Z
}.

(** Tool Definitions are objects shared by reference between the parsed
    documents and the registry: [toolHeap] maps an address to the object it
    holds, and [tools] and [entry_tool] are addresses.  [issued] records the
    invocations of the request executor, oldest first. *)
Record State : Type := {
  toolHeap : nat -> GeneratedTool;
  parsedSpecs : list (string * ParsedSpec);
  toolRegistry : gmap string ToolRegistryEntry;
  authConfig : gmap string Auth.AuthRecord;
  lastEnvMtimeMs : option Z;
  largeBatchConfirmations : gmap string Confirmation;
  issued : list (string * Json)
}.

(** * server.ts *)

Module Server.

Definition withBaseUrl (url : string) (t : GeneratedTool) : GeneratedTool :=
  {| tool_name := tool_name t;
     tool_description := tool_description t;
     operationId := operationId t;
     method := method t;
     path := path t;
     parameters := parameters t;
     requestBody := requestBody t;
     responses := responses t;
     security := security t;
     baseUrl := url |}.

(** [tool.baseUrl = url] on the object at address [l]. *)
Definition writeBaseUrl (url : string) (heap : nat -> GeneratedTool) (l : nat)
    : nat -> GeneratedTool :=
  fun l' => if Nat.eqb l' l then withBaseUrl url (heap l') else heap l'.

Section WithPlatform.
Variable P : Platform.

Definition hasPath (u : Url) : bool :=
  nonempty (pathname u) && negb (String.eqb (pathname u) "/").

Definition getOpenApiBasePath (spec : Json) : option string :=
  let raw := if typeof_string (get spec "basePath")
             then as_string (get spec "basePath") else EmptyString in
  let trimmed := trim raw in
  if negb (nonempty trimmed) then None
  else Some (if startsWith trimmed "/" then trimmed else "/" +:+ trimmed).

Definition appendOpenApiBasePath (baseUrl : string) (spec : Json) : string :=
  match getOpenApiBasePath spec with
  | None => baseUrl
  | Some basePath =>
      match parseUrl P baseUrl with
      | None => baseUrl
      | Some parsed =>
          if hasPath parsed then baseUrl
          else Http.stripTrailingSlash (withPathname parsed basePath)
      end
  end.

Definition openApiOrPlain (swaggerSpec : Json) (newBaseUrl : string) : string :=
  if truthy_val swaggerSpec && truthy (get swaggerSpec "openapi")
  then appendOpenApiBasePath newBaseUrl swaggerSpec
  else newBaseUrl.

Definition resolveToolBaseUrl (parsed : ParsedSpec) (newBaseUrl : string) : string :=
  let swaggerSpec := spec parsed in
  if truthy_val swaggerSpec && is_str (get swaggerSpec "swagger") "2.0" then
    match parseUrl P newBaseUrl with
    | None => newBaseUrl
    | Some url =>
        if negb (hasPath url) && typeof_string (get swaggerSpec "basePath") then
          let basePath := trim (as_string (get swaggerSpec "basePath")) in
          if nonempty basePath
          then Http.stripTrailingSlash (withPathname url basePath)
          else openApiOrPlain swaggerSpec newBaseUrl
        else openApiOrPlain swaggerSpec newBaseUrl
    end
  else openApiOrPlain swaggerSpec newBaseUrl.

(** The two inner loops of [updateToolBaseUrlsFromEnv] for one document. *)
Definition pushBaseUrl (apiName_ : string) (resolvedBaseUrl : string)
    (ownTools : list nat) (registry : list ToolRegistryEntry)
    (heap : nat -> GeneratedTool) : nat -> GeneratedTool :=
  let heap1 := fold_left (writeBaseUrl resolvedBaseUrl) ownTools heap in
  fold_left
    (fun h entry =>
       if String.eqb (apiName (entry_spec entry)) apiName_
       then writeBaseUrl resolvedBaseUrl h (entry_tool entry) else h)
    registry heap1.

(** One iteration of the outer loop. *)
Definition updateSpec (env : list (string * option string))
    (registry : list ToolRegistryEntry) (heap : nat -> GeneratedTool)
    (parsed : ParsedSpec) : nat -> GeneratedTool :=
  match Parser.resolveServerUrl (apiName parsed) env with
  | None => heap
  | Some newBaseUrl =>
      pushBaseUrl (apiName parsed) (resolveToolBaseUrl parsed newBaseUrl)
        (tools parsed) registry heap
  end.

(** [updateToolBaseUrlsFromEnv]: the registry is traversed in whatever order
    the map yields its values; every write of one traversal stores the same
    string. *)
Definition updateToolBaseUrlsFromEnv (env : list (string * option string))
    (st : State) : nat -> GeneratedTool :=
  fold_left (updateSpec env (map snd (map_to_list (toolRegistry st))))
    (map snd (parsedSpecs st)) (toolHeap st).

Definition option_Z_eqb (a b : option Z) : bool :=
  match a, b with
  | Some x, Some y => x =? y
  | None, None => true
  | _, _ => false
  end.

(** [refreshEnvConfigIfChanged].  Rewriting the document files
    ([updateSpecServerUrls]) touches no state of the process. *)
Definition refreshEnvConfigIfChanged (w : World) (force : bool) (st : State) : State :=
  let currentMtimeMs := envMtimeMs w in
  if negb force && option_Z_eqb currentMtimeMs (lastEnvMtimeMs st) then st
  else
    {| toolHeap := updateToolBaseUrlsFromEnv (env w) st;
       parsedSpecs := parsedSpecs st;
       toolRegistry := toolRegistry st;
       authConfig := Auth.loadAuthConfig (env w);
       lastEnvMtimeMs := currentMtimeMs;
       largeBatchConfirmations := largeBatchConfirmations st;
       issued := issued st |}.

End WithPlatform.
End Server.

(** * tools.ts *)

Module Tools.

Definition largeBatchThreshold : nat := 200.
Definition largeBatchTokenTtlMs : Z := 5 * 60 * 1000.

(** [new Set(v)]: the elements of an array, the characters of a string; any
    other value is not iterable. *)
Definition newSet (v : Json) : Completion (list Json) :=
  match v with
  | JArr items => Returned items
  | JStr s => Returned (map (fun c => JStr (String c EmptyString)) (list_ascii_of_string s))
  | _ => Threw "TypeError: value is not iterable"
  end.

(** [required.has(key)]. *)
Definition setHas (elements : list Json) (key : string) : bool :=
  existsb (fun e => is_str (Some e) key) elements.

(** [a || b]. *)
Definition js_or (a : option Json) (b : Json) : Json :=
  match a with
  | Some v => if truthy_val v then v else b
  | None => b
  end.

Definition optionalUnless (isRequired : bool) (z : ZodType) : ZodType :=
  if isRequired then z else ZOptional z.

Fixpoint buildShape (convert : Json -> Completion ZodType) (required : list Json)
    (entries : Obj) (shape : list (string * ZodType))
    : Completion (list (string * ZodType)) :=
  match entries with
  | [] => Returned shape
  | (key, value) :: rest =>
      do propertySchema <- convert value;
      buildShape convert required rest
        (set_field key (optionalUnless (setHas required key) propertySchema) shape)
  end.

(** [openAPISchemaToZod]; [depth] bounds the call stack, and exhausting it
    is the engine's [RangeError]. *)
Fixpoint openAPISchemaToZod (depth : nat) (schema : option Json) : Completion ZodType :=
  match depth with
  | O => Threw "RangeError: Maximum call stack size exceeded"
  | S depth' =>
      if negb (truthy schema) || negb (typeof_object schema) then Returned ZAny
      else
        let ty := get_opt schema "type" in
        if is_str ty "string" then Returned ZString
        else if is_str ty "number" then Returned ZNumber
        else if is_str ty "integer" then Returned ZInt
        else if is_str ty "boolean" then Returned ZBoolean
        else if is_str ty "array" then
          do element <- openAPISchemaToZod depth'
                          (Some (js_or (get_opt schema "items") (JObj [])));
          Returned (ZArray element)
        else if is_str ty "object" then
          let properties := js_or (get_opt schema "properties") (JObj []) in
          do required <- newSet (js_or (get_opt schema "required") (JArr []));
          do shape <- buildShape (fun value => openAPISchemaToZod depth' (Some value))
                        required (Object_entries properties) [];
          match get_opt schema "additionalProperties" with
          | Some (JBool false) => Returned (ZObject shape Strict None)
          | Some (JBool true) | None => Returned (ZObject shape Loose None)
          | Some additional =>
              if typeof_object (Some additional) then
                do extra <- openAPISchemaToZod depth' (Some additional);
                Returned (ZObject shape Strip (Some extra))
              else Returned (ZObject shape Strip None)
          end
        else Returned ZAny
  end.

Fixpoint buildFields (depth : nat) (params : list ToolParameter)
    (schemaFields : list (string * ZodType)) : Completion (list (string * ZodType)) :=
  match params with
  | [] => Returned schemaFields
  | param :: rest =>
      do fieldSchema <- openAPISchemaToZod depth (Some (schema param));
      let described := if truthy (description param)
                       then ZDescribe fieldSchema (js_String_opt (description param))
                       else fieldSchema in
      buildFields depth rest
        (set_field (name param) (optionalUnless (required param) described) schemaFields)
  end.

(** [buildZodSchema]. *)
Definition buildZodSchema (depth : nat) (tool : GeneratedTool) : Completion ZodType :=
  do schemaFields <- buildFields depth (parameters tool) [];
  if truthy (requestBody tool) then
    Returned (ZObject
                (set_field "body" (ZDescribe (ZOptional ZAny) "Request body data") schemaFields)
                Loose None)
  else Returned (ZObject schemaFields Strip None).

(** [normalizeToolName]. *)
Definition normalizeToolName (value : string) : string :=
  let trimmed := trim value in
  if startsWith trimmed "mcp_specrun_"
  then drop_string (String.length "mcp_specrun_") trimmed
  else if startsWith trimmed "specrun_"
  then drop_string (String.length "specrun_") trimmed
  else trimmed.

Definition setConfirmations (table : gmap string Confirmation) (st : State) : State :=
  {| toolHeap := toolHeap st;
     parsedSpecs := parsedSpecs st;
     toolRegistry := toolRegistry st;
     authConfig := authConfig st;
     lastEnvMtimeMs := lastEnvMtimeMs st;
     largeBatchConfirmations := table;
     issued := issued st |}.

Definition recordCall (toolName : string) (args : Json) (st : State) : State :=
  {| toolHeap := toolHeap st;
     parsedSpecs := parsedSpecs st;
     toolRegistry := toolRegistry st;
     authConfig := authConfig st;
     lastEnvMtimeMs := lastEnvMtimeMs st;
     largeBatchConfirmations := largeBatchConfirmations st;
     issued := issued st ++ [(toolName, args)] |}.

(** [issueLargeBatchToken]. *)
Definition issueLargeBatchToken (w : World) (toolName : string) (count : nat)
    (st : State) : string * State :=
  let token := uuid w in
  (token,
   setConfirmations
     (<[token := {| conf_toolName := toolName;
                    conf_count := count;
                    expiresAt := now_issue w + largeBatchTokenTtlMs |}]>
        (largeBatchConfirmations st))
     st).

(** [isLargeBatchConfirmed]. *)
Definition isLargeBatchConfirmed (w : World) (confirmLargeBatch : bool)
    (confirmLargeBatchToken : string) (toolName : string) (count : nat)
    (st : State) : bool * State :=
  if negb confirmLargeBatch || negb (nonempty confirmLargeBatchToken) then (false, st)
  else
    match largeBatchConfirmations st !! confirmLargeBatchToken with
    | None => (false, st)
    | Some record =>
        if expiresAt record <=? now_confirm w then
          (false,
           setConfirmations (delete confirmLargeBatchToken (largeBatchConfirmations st)) st)
        else if negb (String.eqb (conf_toolName record) toolName)
                || negb (Nat.eqb (conf_count record) count) then (false, st)
        else
          (true,
           setConfirmations (delete confirmLargeBatchToken (largeBatchConfirmations st)) st)
    end.

Inductive ItemOutcome : Type :=
| ItemResult (index : nat) (result : ApiCallResult)
| ItemError (index : nat) (error : string).

Inductive BatchResponse : Type :=
| UnknownTool (rawToolName normalizedToolName : string)
| ConfirmationRequired (toolName : string) (count threshold : nat)
    (confirmLargeBatchToken : string) (confirmLargeBatchTokenTtlMs : Z)
| BatchResults (toolName : string) (count : nat) (results : list ItemOutcome).

(** [String(args.toolName || "")]. *)
Definition argRawToolName (args : Json) : string :=
  match get args "toolName" with
  | Some v => if truthy_val v then js_String v else EmptyString
  | None => EmptyString
  end.

(** [Array.isArray(args.items) ? args.items : []]. *)
Definition argItems (args : Json) : list Json :=
  match get args "items" with
  | Some (JArr l) => l
  | _ => []
  end.

(** [typeof args.confirmLargeBatchToken === "string" ? ... : ""]. *)
Definition argToken (args : Json) : string :=
  if typeof_string (get args "confirmLargeBatchToken")
  then as_string (get args "confirmLargeBatchToken") else EmptyString.

Section WithPlatform.
Variable P : Platform.

(** The item loop of the batch tool, from position [index] on. *)
Fixpoint runItems (w : World) (entry : ToolRegistryEntry) (failFast : bool)
    (index : nat) (items : list Json) (st : State) : list ItemOutcome * State :=
  match items with
  | [] => ([], st)
  | itemArgs :: rest =>
      match safeParse P (entry_schema entry) itemArgs with
      | ParseFailure message =>
          if failFast then ([ItemError index message], st)
          else
            let '(results, st') := runItems w entry failFast (S index) rest st in
            (ItemError index message :: results, st')
      | ParseSuccess data =>
          let tool := toolHeap st (entry_tool entry) in
          let auth := authConfig st !! apiName (entry_spec entry) in
          let st1 := recordCall (tool_name tool) data st in
          match Http.executeRequest P (axios w (length (issued st))) tool auth data with
          | Returned output =>
              let '(results, st') := runItems w entry failFast (S index) rest st1 in
              (ItemResult index output :: results, st')
          | Threw message =>
              if failFast then ([ItemError index message], st1)
              else
                let '(results, st') := runItems w entry failFast (S index) rest st1 in
                (ItemError index message :: results, st')
          end
      end
  end.

(** The [execute] handler of the [specrun_batch] tool. *)
Definition batchExecute (w : World) (args : Json) (st0 : State) : BatchResponse * State :=
  let st := Server.refreshEnvConfigIfChanged P w false st0 in
  let rawToolName := argRawToolName args in
  let toolName := normalizeToolName rawToolName in
  match toolRegistry st !! toolName with
  | None => (UnknownTool rawToolName toolName, st)
  | Some entry =>
      let items := argItems args in
      let failFast := truthy (get args "failFast") in
      let confirmLargeBatch := truthy (get args "confirmLargeBatch") in
      let confirmLargeBatchToken := argToken args in
      let '(blocked, st1) :=
        if (largeBatchThreshold <? length items)%nat then
          let '(confirmed, st') :=
            isLargeBatchConfirmed w confirmLargeBatch confirmLargeBatchToken toolName
              (length items) st in
          (negb confirmed, st')
        else (false, st) in
      if blocked then
        let '(token, st2) := issueLargeBatchToken w toolName (length items) st1 in
        (ConfirmationRequired toolName (length items) largeBatchThreshold token
           largeBatchTokenTtlMs, st2)
      else
        let '(results, st2) := runItems w entry failFast 0 items st1 in
        (BatchResults toolName (length items) results, st2)
  end.

End WithPlatform.
End Tools.

(** * utils/openapi-parser.ts: compiling a document *)

Module Compiler.

Definition DEFAULT_SERVER_URL : string := "https://api-server.placeholder".

Definition methods : list string :=
  ["get"; "post"; "put"; "patch"; "delete"; "head"; "options"].

(** [isSwagger2Spec], [isOpenApi3Spec]. *)
Definition isSwagger2Spec (spec : Json) : bool :=
  truthy_val spec && typeof_object (Some spec) && is_str (get spec "swagger") "2.0".

Definition isOpenApi3Spec (spec : Json) : bool :=
  truthy_val spec && typeof_object (Some spec) && truthy (get spec "openapi").

(** [[...v]]: the elements of an array, the characters of a string; any
    other value is not iterable. *)
Definition spread (v : Json) : Completion (list Json) :=
  match v with
  | JArr items => Returned items
  | JStr s => Returned (map (fun c => JStr (String c EmptyString)) (list_ascii_of_string s))
  | _ => Threw "TypeError: value is not iterable"
  end.

(** [v.length > 0] and [v[0]].  A validated document has an array here; on
    an object the own property [length] is compared when it is a number. *)
Definition lengthPositive (v : Json) : bool :=
  match v with
  | JArr items => (0 <? length items)%nat
  | JStr s => (0 <? String.length s)%nat
  | JObj fields => match assoc "length" fields with
                   | Some (JNum n) => 0 <? n
                   | _ => false
                   end
  | _ => false
  end.

Definition first (v : Json) : option Json :=
  match v with
  | JArr items => head items
  | JStr (String c _) => Some (JStr (String c EmptyString))
  | JObj fields => assoc "0" fields
  | _ => None
  end.

(** [rawUrl.replace(/\{([^}]+)\}/g, callback)], one character at a time:
    [inside] holds the text read since an opening brace that is still
    unmatched. *)
Fixpoint replaceVariables (callback : string -> string) (inside : option string)
    (s : string) : string :=
  match s with
  | EmptyString =>
      match inside with
      | Some content => "{" +:+ content
      | None => EmptyString
      end
  | String c rest =>
      match inside with
      | None =>
          if Ascii.eqb c "{" then replaceVariables callback (Some EmptyString) rest
          else String c (replaceVariables callback None rest)
      | Some content =>
          if Ascii.eqb c "}" then
            if nonempty content
            then callback content +:+ replaceVariables callback None rest
            else "{}" +:+ replaceVariables callback None rest
          else replaceVariables callback (Some (content +:+ String c EmptyString)) rest
      end
  end.

(** [resolveOpenApi3ServerUrl]. *)
Definition resolveOpenApi3ServerUrl (server : option Json) : string :=
  if negb (truthy server) || negb (typeof_object server) then DEFAULT_SERVER_URL
  else
    let rawUrl := if typeof_string (get_opt server "url")
                  then as_string (get_opt server "url") else EmptyString in
    if negb (nonempty rawUrl) then DEFAULT_SERVER_URL
    else
      match get_opt server "variables" with
      | Some variables =>
          if negb (truthy_val variables) || negb (typeof_object (Some variables))
          then rawUrl
          else
            replaceVariables
              (fun varName =>
                 let variable := Parser.member variables varName in
                 if truthy variable && typeof_string (get_opt variable "default")
                 then as_string (get_opt variable "default")
                 else "{" +:+ varName +:+ "}")
              None rawUrl
      | None => rawUrl
      end.

Section WithPlatform.
Variable P : Platform.

(** [getOpenApiBasePath], [appendBasePathIfNeeded]. *)
Definition getOpenApiBasePath (spec : Json) : option string :=
  let raw := if typeof_string (get spec "basePath")
             then as_string (get spec "basePath") else EmptyString in
  let trimmed := trim raw in
  if negb (nonempty trimmed) then None
  else Some (if startsWith trimmed "/" then trimmed else "/" +:+ trimmed).

Definition appendBasePathIfNeeded (baseUrl : string) (spec : Json) : string :=
  match getOpenApiBasePath spec with
  | None => baseUrl
  | Some basePath =>
      match parseUrl P baseUrl with
      | None => baseUrl
      | Some parsed =>
          if nonempty (pathname parsed) && negb (String.eqb (pathname parsed) "/")
          then baseUrl
          else Http.stripTrailingSlash (withPathname parsed basePath)
      end
  end.

(** [getBaseUrl]. *)
Definition getBaseUrl (spec : Json) : string :=
  let override := if isOpenApi3Spec spec && typeof_string (get spec "x-base-url")
                  then trim (as_string (get spec "x-base-url")) else EmptyString in
  if nonempty override then appendBasePathIfNeeded override spec
  else if isOpenApi3Spec spec && truthy (get spec "servers")
          && from_option lengthPositive false (get spec "servers")
  then appendBasePathIfNeeded
         (resolveOpenApi3ServerUrl (get spec "servers" ≫= first)) spec
  else
    let fallback := DEFAULT_SERVER_URL in
    if isSwagger2Spec spec then
      let schemes := match get spec "schemes" with
                     | Some (JArr l) => l
                     | _ => []
                     end in
      let scheme := match head schemes with
                    | Some v => if truthy_val v then js_String v else "https"
                    | None => "https"
                    end in
      let host := if typeof_string (get spec "host")
                  then as_string (get spec "host") else EmptyString in
      let basePath := if typeof_string (get spec "basePath")
                      then as_string (get spec "basePath") else EmptyString in
      if nonempty host then scheme +:+ "://" +:+ host +:+ basePath else fallback
    else fallback.

(** [createToolFromOperation]: [None] is the [null] the [catch] returns. *)
Definition createToolFromOperation (apiName pathTemplate method : string)
    (operation : Json) (baseUrl : string) (pathLevelParams : option Json)
    (spec : Json) : option GeneratedTool :=
  let toolName := Parser.generateToolName apiName operation pathTemplate method in
  let description :=
    if truthy (get operation "summary") then js_String_opt (get operation "summary")
    else if truthy (get operation "description")
    then js_String_opt (get operation "description")
    else toUpperCase method +:+ " " +:+ pathTemplate in
  match spread (Tools.js_or pathLevelParams (JArr [])),
        spread (Tools.js_or (get operation "parameters") (JArr [])) with
  | Returned pathLevel, Returned own =>
      Some {| tool_name := toolName;
              tool_description := description;
              operationId := get operation "operationId";
              method := toUpperCase method;
              path := pathTemplate;
              parameters := Parser.extractParameters (pathLevel ++ own) (Some spec);
              requestBody := get operation "requestBody";
              responses := get operation "responses";
              security := Some (Tools.js_or (get operation "security") (JArr []));
              baseUrl := baseUrl |}
  | _, _ => None
  end.

(** The inner loop of [generateToolsFromSpec] over the methods. *)
Definition toolsOfPath (apiName : string) (spec : Json) (baseUrl : string)
    (entry : string * Json) : list GeneratedTool :=
  let '(pathTemplate, pathItem) := entry in
  if negb (truthy_val pathItem) || negb (typeof_object (Some pathItem)) then []
  else
    omap
      (fun method =>
         match get pathItem method with
         | Some operation =>
             if truthy_val operation
             then createToolFromOperation apiName pathTemplate method operation baseUrl
                    (get pathItem "parameters") spec
             else None
         | None => None
         end)
      methods.

(** [generateToolsFromSpec]: reading [spec.paths] throws on [null]. *)
Definition generateToolsFromSpec (spec : Json) (apiName : string)
    : Completion (list GeneratedTool) :=
  let baseUrl := getBaseUrl spec in
  match spec with
  | JNull => Threw "TypeError: Cannot read properties of null (reading 'paths')"
  | _ =>
      match get spec "paths" with
      | Some paths =>
          if truthy_val paths
          then Returned (flat_map (toolsOfPath apiName spec baseUrl) (Object_entries paths))
          else Returned []
      | None => Returned []
      end
  end.

End WithPlatform.

(** [delete obj[key]]. *)
Definition remove_field (key : string) (fields : Obj) : Obj :=
  List.filter (fun kv => negb (String.eqb (fst kv) key)) fields.

(** [applyOpenApi3ServerUrl]: the document after the assignments, and the
    flag the function returns. *)
Definition applyOpenApi3ServerUrl (fields : Obj) (newUrl : string) : Obj * bool :=
  match assoc "servers" fields with
  | Some (JArr (server :: others)) =>
      if negb (truthy_val server) || negb (typeof_object (Some server))
         || negb (is_str (get server "url") newUrl)
      then
        let spreadFirst := if truthy_val server then Object_entries server else [] in
        (set_field "servers"
           (JArr (JObj (set_field "url" (JStr newUrl) spreadFirst) :: others)) fields,
         true)
      else (fields, false)
  | _ => (set_field "servers" (JArr [JObj [("url", JStr newUrl)]]) fields, true)
  end.

(** The parts of a parsed URL that [applySwagger2ServerUrl] reads. *)
Record UrlParts : Type := {
  protocol : string;
  host : string;
  url_pathname : string
}.

Section WithUrlParser.
(** [safeParseUrl]: [new URL(rawUrl)], or [None] when it throws. *)
Variable safeParseUrl : string -> option UrlParts.

(** [Array.isArray(v) && v[0] === lit]. *)
Definition firstIs (v : option Json) (lit : string) : bool :=
  match v with
  | Some (JArr l) => is_str (head l) lit
  | _ => false
  end.

Definition setIf (condition : bool) (key : string) (value : Json) (state : Obj * bool)
    : Obj * bool :=
  if condition then (set_field key value (fst state), true) else state.

(** [applySwagger2ServerUrl]. *)
Definition applySwagger2ServerUrl (fields : Obj) (newUrl : string) : Obj * bool :=
  let afterUrl :=
    match safeParseUrl newUrl with
    | Some parsedUrl =>
        let scheme := Http.replaceFirst ":" EmptyString (protocol parsedUrl) in
        let host := host parsedUrl in
        let hasPath := nonempty (url_pathname parsedUrl)
                       && negb (String.eqb (url_pathname parsedUrl) "/") in
        let s1 :=
          setIf (nonempty scheme && negb (firstIs (assoc "schemes" fields) scheme))
            "schemes" (JArr [JStr scheme]) (fields, false) in
        let s2 :=
          setIf (nonempty host && negb (is_str (assoc "host" (fst s1)) host))
            "host" (JStr host) s1 in
        setIf (hasPath && negb (is_str (assoc "basePath" (fst s2)) (url_pathname parsedUrl)))
          "basePath" (JStr (url_pathname parsedUrl)) s2
    | None => (fields, false)
    end in
  if truthy (assoc "servers" (fst afterUrl))
  then (remove_field "servers" (fst afterUrl), true)
  else afterUrl.

(** [applyServerUrlToSpec]: the document after the call and the flag it
    returns; a value that is not an object is neither kind of document. *)
Definition applyServerUrlToSpec (spec : Json) (newUrl : string) : Json * bool :=
  match spec with
  | JObj fields =>
      if isSwagger2Spec spec then
        let '(fields', updated) := applySwagger2ServerUrl fields newUrl in
        (JObj fields', updated)
      else if isOpenApi3Spec spec then
        let '(fields', updated) := applyOpenApi3ServerUrl fields newUrl in
        (JObj fields', updated)
      else (spec, false)
  | _ => (spec, false)
  end.

End WithUrlParser.

End Compiler.

(** * utils/http-client.ts: the debug log *)

Module Debug.

Definition redactKeys : list string := ["authorization"; "x-api-key"].

(** [redactHeaders]. *)
Definition redactHeaders (headers : list (string * string)) : list (string * string) :=
  map (fun kv => if existsb (String.eqb (toLowerCase (fst kv))) redactKeys
                 then (fst kv, "[redacted]") else kv)
    headers.

End Debug.

(** * tools.ts: registration *)

Module Registrar.

(** A loop that stopped normally, or on an exception, with the state it
    left behind. *)
Inductive Effect : Type :=
| Completed (st : State)
| Raised (message : string) (st : State).

Definition setRegistry (registry : gmap string ToolRegistryEntry) (st : State) : State :=
  {| toolHeap := toolHeap st;
     parsedSpecs := parsedSpecs st;
     toolRegistry := registry;
     authConfig := authConfig st;
     lastEnvMtimeMs := lastEnvMtimeMs st;
     largeBatchConfirmations := largeBatchConfirmations st;
     issued := issued st |}.

(** [registerTool]: the object at address [tool] is registered under its
    name.  [fastMCP.addTool] is the framework's. *)
Definition registerTool (depth : nat) (parsed : ParsedSpec) (tool : nat) (st : State)
    : Completion State :=
  do schema <- Tools.buildZodSchema depth (toolHeap st tool);
  Returned
    (setRegistry
       (<[tool_name (toolHeap st tool) :=
            {| entry_spec := parsed; entry_tool := tool; entry_schema := schema |}]>
          (toolRegistry st))
       st).

Fixpoint registerEach (depth : nat) (parsed : ParsedSpec) (pending : list nat)
    (st : State) : Effect :=
  match pending with
  | [] => Completed st
  | tool :: rest =>
      match registerTool depth parsed tool st with
      | Returned st' => registerEach depth parsed rest st'
      | Threw message => Raised message st
      end
  end.

(** [registerToolsFromSpec]. *)
Definition registerToolsFromSpec (depth : nat) (parsed : ParsedSpec) (st : State) : Effect :=
  registerEach depth parsed (tools parsed) st.

End Registrar.

(** * utils/auth.ts: the configuration file *)

Module EnvFile.

Definition ENV_PLACEHOLDER_COMMENT : string := "# SpecRun placeholders".

Definition newline : string := String "010" EmptyString.

(** [content.split(/\r?\n/)]. *)
Fixpoint splitLines (content : string) : list string :=
  match content with
  | EmptyString => [EmptyString]
  | String c rest =>
      if Ascii.eqb c "010" then EmptyString :: splitLines rest
      else
        match rest with
        | String d rest' =>
            if Ascii.eqb c "013" && Ascii.eqb d "010" then EmptyString :: splitLines rest'
            else match splitLines rest with
                 | line :: lines => String c line :: lines
                 | [] => [String c EmptyString]
                 end
        | EmptyString => [String c EmptyString]
        end
  end.

Definition isKeyChar (c : ascii) : bool := is_upper c || is_digit c || Ascii.eqb c "_".

(** The longest prefix of characters that satisfy [p], and what follows. *)
Fixpoint span (p : ascii -> bool) (s : string) : string * string :=
  match s with
  | String c rest =>
      if p c then let '(taken, remaining) := span p rest in (String c taken, remaining)
      else (EmptyString, s)
  | EmptyString => (EmptyString, EmptyString)
  end.

(** [trimmed.match(/^([A-Z0-9_]+)\s*=/)]: the first group. *)
Definition matchKey (trimmed : string) : option string :=
  let '(key, rest) := span isKeyChar trimmed in
  if nonempty key && startsWith (stripStart Ascii.is_space rest) "="
  then Some key else None.

(** The key a line defines, if any. *)
Definition keyOfLine (line : string) : option string :=
  let trimmed := trim line in
  if negb (nonempty trimmed) || startsWith trimmed "#" then None
  else matchKey trimmed.

(** [parseEnvKeys]: the set is only ever asked for membership; it is kept
    as the list of the keys found, in file order. *)
Definition parseEnvKeys (envContent : string) : list string :=
  omap keyOfLine (splitLines envContent).

(** [ensureEnvKeysForSpecs] on the content of the configuration file, the
    empty string when the file does not exist: the content it writes, or
    [None] when it returns without writing. *)
Definition ensureEnvKeysForSpecs (envContent : string) (specFiles : list string)
    : option string :=
  let existingKeys := parseEnvKeys envContent in
  match Auth.ensureEnvKeysForSpecs existingKeys
          (includes envContent ENV_PLACEHOLDER_COMMENT) specFiles with
  | [] => None
  | additions =>
      let needsNewline := nonempty envContent && negb (endsWith envContent newline) in
      let prefix := if nonempty envContent
                    then (if needsNewline then newline else EmptyString)
                    else EmptyString in
      Some (envContent +:+ prefix +:+ join newline additions +:+ newline)
  end.

End EnvFile.

(** * prompts.ts *)

Module Prompts.

(** [/[\u0000-\u001F\u007F]/]. *)
Definition isControl (c : ascii) : bool :=
  let n := nat_of_ascii c in (n <=? 31)%nat || (n =? 127)%nat.

Definition isBacktick (c : ascii) : bool := Ascii.eqb c "`".

(** [s.replace(/```/g, "'''")]. *)
Fixpoint replaceFences (s : string) : string :=
  match s with
  | String a (String b (String c rest) as tail) =>
      if isBacktick a && isBacktick b && isBacktick c
      then "'''" +:+ replaceFences rest
      else String a (replaceFences tail)
  | _ => s
  end.

(** [sanitizePromptText]; [maxLength] defaults to 400. *)
Definition sanitizePromptText (value : string) (maxLength : nat) : string :=
  let raw := value in
  let stripped := filter_string (fun c => negb (isControl c)) raw in
  let fenced := replaceFences stripped in
  take_string maxLength fenced.

End Prompts.

(** * Vocabulary of the properties *)

Section Vocabulary.
Import Parser Auth Http Server Tools.
Variable P : Platform.

(** The name part derived from a path template. *)
Definition pathName (pathTemplate : string) : string :=
  or_string (join "_" (pathSegments pathTemplate)) "root".

(** The body the claimed precedence prescribes: explicit [body], else explicit
    [requestBody], else (only without a body schema) the argument of a
    body-location parameter, else the leftover arguments when there are some,
    else none. *)
Definition claimedBody (tool : GeneratedTool) (args : Json) : Json :=
  match get args "body" with
  | Some v => v
  | None =>
      match get args "requestBody" with
      | Some v => v
      | None =>
          let fromBodyParam :=
            if negb (truthy (requestBody tool)) then
              match List.find (fun p => String.eqb (in_ p) "body") (parameters tool) with
              | Some bodyParam => get args (name bodyParam)
              | None => None
              end
            else None in
          match fromBodyParam with
          | Some v => v
          | None =>
              let bodyArgs := leftoverArgs tool args in
              if (0 <? length bodyArgs)%nat then JObj bodyArgs else JNull
          end
      end
  end.

(** A status the transport treats as success (its default acceptance test). *)
Definition successStatus (s : Status) : bool :=
  match s with
  | StatusCode code => (200 <=? code) && (code <? 300)
  | StatusText _ => false
  end.

(** The transport's contract: it rejects a call that got a response only
    when the status of that response is not a success. *)
Definition settled (outcome : AxiosOutcome) : Prop :=
  match outcome with
  | Rejected (AxiosError (Some r)) => successStatus (StatusCode (status r)) = false
  | _ => True
  end.

Definition apiKeyRecord (tok : string) : AuthRecord :=
  {| type := apiKey; token := Some tok; username := None; password := None;
     headerName := Some "X-API-Key" |}.

Definition bearerRecord (tok : string) : AuthRecord :=
  {| type := bearer; token := Some tok; username := None; password := None;
     headerName := None |}.

(** The entry is scanned (its value is non-empty) and classified for [api]. *)
Definition concerns (api : string) (entry : string * option string) : bool :=
  str_truthy (snd entry) &&
  match classify (fst entry) with
  | Some (apiName, _, _) => String.eqb apiName api
  | None => false
  end.


(** The conditions under which a supplied token is honoured. *)
Definition tokenValid (w : World) (confirmLargeBatch : bool) (confirmLargeBatchToken : string)
    (toolName : string) (count : nat) (st : State) : Prop :=
  confirmLargeBatch = true
  /\ confirmLargeBatchToken <> EmptyString
  /\ exists record,
       largeBatchConfirmations st !! confirmLargeBatchToken = Some record
       /\ now_confirm w < expiresAt record
       /\ conf_toolName record = toolName
       /\ conf_count record = count.

Definition outcomeIndex (o : ItemOutcome) : nat :=
  match o with
  | ItemResult index _ | ItemError index _ => index
  end.

Definition isResult (o : ItemOutcome) : bool :=
  match o with
  | ItemResult _ _ => true
  | ItemError _ _ => false
  end.

(** The calls the item loop issues when it runs over all of [items]: one per
    item that passes validation, with the validated arguments. *)
Fixpoint validCalls (toolName : string) (entry : ToolRegistryEntry) (items : list Json)
    : list (string * Json) :=
  match items with
  | [] => []
  | itemArgs :: rest =>
      match safeParse P (entry_schema entry) itemArgs with
      | ParseSuccess data => (toolName, data) :: validCalls toolName entry rest
      | ParseFailure _ => validCalls toolName entry rest
      end
  end.

Definition allValid (entry : ToolRegistryEntry) (items : list Json) : bool :=
  forallb (fun itemArgs => match safeParse P (entry_schema entry) itemArgs with
                           | ParseSuccess _ => true
                           | ParseFailure _ => false
                           end) items.

(** [t'] is [t] up to its base URL. *)
Definition sameButBaseUrl (t t' : GeneratedTool) : Prop :=
  tool_name t' = tool_name t
  /\ tool_description t' = tool_description t
  /\ operationId t' = operationId t
  /\ method t' = method t
  /\ path t' = path t
  /\ parameters t' = parameters t
  /\ requestBody t' = requestBody t
  /\ responses t' = responses t
  /\ security t' = security t.

(** The addresses one traversal writes: the document's own tools, and the
    tools of the registry entries filed under the same API name. *)
Definition touches (api : string) (ownTools : list nat) (registry : list ToolRegistryEntry)
    (l : nat) : bool :=
  existsb (Nat.eqb l) ownTools
  || existsb (fun e => String.eqb (apiName (entry_spec e)) api && Nat.eqb l (entry_tool e))
       registry.

(** The documents of [specs] whose API has a server URL in the environment
    and whose traversal writes address [l]. *)
Definition written (env : list (string * option string)) (registry : list ToolRegistryEntry)
    (l : nat) (parsed : ParsedSpec) : bool :=
  match Parser.resolveServerUrl (apiName parsed) env with
  | Some _ => touches (apiName parsed) (tools parsed) registry l
  | None => false
  end.

(** The definition at address [l] belongs to API [api]: a loaded document of
    that API lists it, or a registry entry of that API holds it. *)
Definition belongsTo (st : State) (api : string) (l : nat) : Prop :=
  (exists file parsed,
     In (file, parsed) (parsedSpecs st) /\ apiName parsed = api /\ In l (tools parsed))
  \/ (exists key entry,
        toolRegistry st !! key = Some entry
        /\ apiName (entry_spec entry) = api /\ entry_tool entry = l).

Definition registryEntries (st : State) : list ToolRegistryEntry :=
  map snd (map_to_list (toolRegistry st)).

(** The nesting depth of a fragment. *)
Fixpoint height (v : Json) : nat :=
  match v with
  | JArr items => S (fold_right (fun x acc => Nat.max (height x) acc) 0%nat items)
  | JObj fields => S (fold_right (fun kv acc => Nat.max (height (snd kv)) acc) 0%nat fields)
  | _ => 0%nat
  end.

(** A value [new Set] accepts once [|| []] has replaced a falsy one. *)
Definition iterableOrFalsy (v : option Json) : bool :=
  match v with
  | None => true
  | Some (JArr _) | Some (JStr _) => true
  | Some x => negb (truthy_val x)
  end.

(** Every [required] in the fragment, at any depth, is absent, falsy, an
    array or a string. *)
Fixpoint requiredIterable (v : Json) : bool :=
  match v with
  | JArr items => forallb requiredIterable items
  | JObj fields =>
      iterableOrFalsy (assoc "required" fields)
      && forallb (fun kv => requiredIterable (snd kv)) fields
  | _ => true
  end.

End Vocabulary.

(** * Sample data *)

Definition petIdParam : Json :=
  JObj [("name", JStr "petId"); ("in", JStr "path"); ("required", JBool false);
        ("schema", JObj [("type", JStr "string")])].

Definition limitParam : Json :=
  JObj [("name", JStr "limit"); ("in", JStr "query");
        ("schema", JObj [("type", JStr "integer")])].

Definition petIdDescriptor : ToolParameter :=
  {| name := "petId"; in_ := "path"; required := true;
     schema := JObj [("type", JStr "string")]; description := None |}.

Definition addCarTool (body : option Json) (params : list ToolParameter) : GeneratedTool :=
  {| tool_name := "cars_addCar";
     tool_description := "Add a car";
     operationId := Some (JStr "addCar");
     method := "POST";
     path := "/cars";
     parameters := params;
     requestBody := body;
     responses := None;
     security := Some (JArr []);
     baseUrl := "https://api-server.placeholder" |}.

Definition civic : Json := JObj [("name", JStr "Civic")].

Definition carBodySchema : Json :=
  JObj [("content", JObj [("application/json", JObj [("schema", JObj [("type", JStr "object")])])])].

Definition carBodyParam : ToolParameter :=
  {| name := "car"; in_ := "body"; required := false;
     schema := JObj [("type", JStr "object")]; description := None |}.

(** A platform for examples: percent-encoding refuses the empty string,
    which stands for a value it cannot encode. *)
Definition samplePlatform : Platform :=
  {| encodeURIComponent :=
       fun s => if nonempty s then Returned s else Threw "URIError: URI malformed";
     base64 := fun s => s;
     JSON_stringify := fun _ => "{}";
     serializeUrl := fun u q => Some (u +:+ "?" +:+ join "&" (map (fun kv => fst kv +:+ "=" +:+ snd kv) q));
     parseUrl := fun u => Some {| pathname := "/"; withPathname := fun p => u +:+ p |};
     safeParse := fun _ v => match v with
                             | JObj _ => ParseSuccess v
                             | _ => ParseFailure "Invalid input: expected object"
                             end |}.

Definition notFound : Response :=
  {| status := 404; data := Some (JObj [("message", JStr "no such car")]) |}.

Definition carIdParam : ToolParameter :=
  {| name := "id"; in_ := "path"; required := true;
     schema := JObj [("type", JStr "string")]; description := None |}.


(** An object schema whose [required] is the boolean [true], as in
    draft-3 style schemas; the validator of OpenAPI 3.1 documents accepts any
    object as a schema. *)
Definition requiredTrueSchema : Json :=
  JObj [("type", JStr "object"); ("required", JBool true)].

Definition filterParam : ToolParameter :=
  {| name := "filter"; in_ := "query"; required := false;
     schema := requiredTrueSchema; description := None |}.

Definition carsSpec : ParsedSpec :=
  {| apiName := "cars";
     filePath := "/specs/cars.json";
     spec := JObj [("openapi", JStr "3.0.0")];
     tools := [0%nat] |}.

Definition petsSpec : ParsedSpec :=
  {| apiName := "pets";
     filePath := "/specs/pets.yaml";
     spec := JObj [("swagger", JStr "2.0"); ("basePath", JStr "/v2")];
     tools := [1%nat] |}.

Definition carsEntry : ToolRegistryEntry :=
  {| entry_spec := carsSpec; entry_tool := 0%nat; entry_schema := ZObject [] Loose None |}.

Definition petsEntry : ToolRegistryEntry :=
  {| entry_spec := petsSpec; entry_tool := 1%nat; entry_schema := ZObject [] Strip None |}.

Definition listPetsTool : GeneratedTool :=
  {| tool_name := "pets_listPets";
     tool_description := "List pets";
     operationId := Some (JStr "listPets");
     method := "GET";
     path := "/pets";
     parameters := [];
     requestBody := None;
     responses := None;
     security := Some (JArr []);
     baseUrl := "https://pets.example/v2" |}.

Definition sampleState : State :=
  {| toolHeap := fun l => match l with
                          | O => addCarTool (Some carBodySchema) []
                          | _ => listPetsTool
                          end;
     parsedSpecs := [("/specs/cars.json", carsSpec); ("/specs/pets.yaml", petsSpec)];
     toolRegistry := <["pets_listPets" := petsEntry]> {["cars_addCar" := carsEntry]};
     authConfig := ∅;
     lastEnvMtimeMs := Some 1;
     largeBatchConfirmations := ∅;
     issued := [] |}.

Definition sampleWorld : World :=
  {| env := [("CARS_SERVER_URL", Some "https://cars.example "); ("PETS_SERVER_URL", Some EmptyString)];
     envMtimeMs := Some 2;
     uuid := "0b6e0a58-6f0c-4f0e-9d57-3c1f6d2a9b11";
     now_confirm := 1000;
     now_issue := 1000;
     axios := fun _ _ => Resolved {| status := 201; data := None |} |}.

Definition laterWorld : World :=
  {| env := env sampleWorld;
     envMtimeMs := Some 2;
     uuid := "5a1d7c3e-2b4f-4c8a-8e6d-9f0a1b2c3d4e";
     now_confirm := 200000;
     now_issue := 200000;
     axios := axios sampleWorld |}.



Definition pendingToken : Confirmation :=
  {| conf_toolName := "cars_addCar"; conf_count := 201; expiresAt := 301000 |}.

Definition pendingState : State :=
  Tools.setConfirmations {[ uuid sampleWorld := pendingToken ]} sampleState.

(** * Further vocabulary *)

(** A slug: lower-case letters, digits and single underscores between them. *)
Definition slugChar (c : ascii) : bool := is_lower c || is_digit c || Ascii.eqb c "_".

Definition isSlug (s : string) : bool :=
  forall_string slugChar s && negb (startsWith s "_") && negb (endsWith s "_")
  && negb (includes s "__").

Definition basicRecord (user pass : string) : Auth.AuthRecord :=
  {| Auth.type := Auth.basic; Auth.token := None; Auth.username := Some user;
     Auth.password := Some pass; Auth.headerName := None |}.

(** A record whose fields fit its kind: a bearer or API-key record carries a
    non-empty token, an API-key record names the X-API-Key header, a basic
    record carries a user name or a password, and no record names another
    header. *)
Definition wellFormed (r : Auth.AuthRecord) : bool :=
  match Auth.headerName r with
  | None => true
  | Some h => String.eqb h "X-API-Key"
  end
  && match Auth.type r with
     | Auth.bearer => Auth.str_truthy (Auth.token r)
     | Auth.apiKey =>
         Auth.str_truthy (Auth.token r) && Auth.str_truthy (Auth.headerName r)
     | Auth.basic =>
         Auth.str_truthy (Auth.username r) || Auth.str_truthy (Auth.password r)
     end.

(** The invariant of the table the environment scan builds. *)
Definition recordsOk (authConfig : gmap string Auth.AuthRecord) : Prop :=
  forall api r, authConfig !! api = Some r ->
    nonempty api = true /\ toLowerCase api = api /\ wellFormed r = true.

(** The scan of this variable goes through the prototype chain of the table:
    its value is non-empty and it is classified under a name every object
    inherits, so the code finds the inherited member where the embedding
    finds no record, and writes to that member. *)
Definition reachesPrototype (entry : string * option string) : bool :=
  Auth.str_truthy (snd entry) &&
  match Auth.classify (fst entry) with
  | Some (apiName, _, _) => inheritedMember apiName
  | None => false
  end.

(** A variable that leaves the credentials of [api] alone: it neither
    concerns [api] nor reaches the prototype. *)
Definition apart (api : string) (entry : string * option string) : bool :=
  negb (concerns api entry) && negb (reachesPrototype entry).

(** A 7-bit character: on strings of such characters the white space that
    [String.prototype.trim] removes is the ASCII white space. *)
Definition isAscii (c : ascii) : bool := (nat_of_ascii c <? 128)%nat.

(** The tool declares a parameter [key] at location [place]. *)
Definition declares (place key : string) (params : list ToolParameter) : bool :=
  existsb (fun p => String.eqb (name p) key && String.eqb (in_ p) place) params.

(** A line without the carriage return that a line break leaves at its end. *)
Fixpoint chomp (s : string) : string :=
  match s with
  | EmptyString => EmptyString
  | String c EmptyString => if Ascii.eqb c "013" then EmptyString else s
  | String c rest => String c (chomp rest)
  end.

(** [f] applied to the last element. *)
Fixpoint mapLast {A : Type} (f : A -> A) (l : list A) : list A :=
  match l with
  | [] => []
  | [a] => [f a]
  | a :: rest => a :: mapLast f rest
  end.

(** The placeholder keys wanted for the document files. *)
Definition placeholderKeys (specFiles : list string) : list string :=
  Auth.missingKeys [] specFiles.

(** The string starts with three backticks. *)
Definition fenceAhead (s : string) : bool :=
  match s with
  | String a (String b (String c _)) => Prompts.isBacktick a && Prompts.isBacktick b && Prompts.isBacktick c
  | _ => false
  end.

(** The elements the spread [[...(v || [])]] yields when [v] is iterable or
    falsy. *)
Definition elements (v : option Json) : list Json :=
  match Compiler.spread (Tools.js_or v (JArr [])) with
  | Returned items => items
  | Threw _ => []
  end.

(** * Further sample data *)

Definition limitDescriptor : ToolParameter :=
  {| name := "limit"; in_ := "query"; required := false;
     schema := JObj [("type", JStr "integer")]; description := None |}.

Definition apiKeyHeaderDescriptor : ToolParameter :=
  {| name := "X-API-Key"; in_ := "header"; required := false;
     schema := JObj [("type", JStr "string")]; description := None |}.

Definition getCarTool : GeneratedTool :=
  {| tool_name := "cars_getCar";
     tool_description := "Get a car";
     operationId := Some (JStr "getCar");
     method := "GET";
     path := "/cars/{id}";
     parameters := [carIdParam; limitDescriptor; apiKeyHeaderDescriptor];
     requestBody := None;
     responses := None;
     security := Some (JArr []);
     baseUrl := "https://api-server.placeholder/" |}.

Definition getCarArgs : Json :=
  JObj [("id", JStr "7"); ("limit", JNum 5); ("X-API-Key", JStr "mine");
        ("verbose", JBool true)].

Definition getCarConfig : RequestConfig :=
  {| cfg_method := "get";
     cfg_url := "https://api-server.placeholder/cars/7";
     cfg_headers := [("User-Agent", "specrun/1.0.0"); ("Accept", "application/json");
                     ("X-API-Key", "mine")];
     cfg_timeout := 30000;
     cfg_params := Some [("limit", JNum 5)];
     cfg_data := None |}.

Definition addCarConfig : RequestConfig :=
  {| cfg_method := "post";
     cfg_url := "https://api-server.placeholder/cars";
     cfg_headers := [("User-Agent", "specrun/1.0.0"); ("Accept", "application/json");
                     ("Authorization", "Bearer xyz");
                     ("Content-Type", "application/json")];
     cfg_timeout := 30000;
     cfg_params := None;
     cfg_data := Some civic |}.

(** The validator [buildZodSchema] stores for one parameter. *)
Definition fieldOf (p : ToolParameter) (converted : ZodType) : ZodType :=
  Tools.optionalUnless (required p)
    (if truthy (description p)
     then ZDescribe converted (js_String_opt (description p)) else converted).

(** The last parameter declared under the name [key]. *)
Definition lastNamed (key : string) (params : list ToolParameter) : option ToolParameter :=
  List.find (fun p => String.eqb (name p) key) (rev params).

Definition schemasOk (depth : nat) (t : GeneratedTool) : Prop :=
  forall p, In p (parameters t) ->
    (height (schema p) + 2 <= depth)%nat /\ requiredIterable (schema p) = true.

Definition getCarSchema : ZodType :=
  ZObject [("id", ZString); ("limit", ZOptional ZInt); ("X-API-Key", ZOptional ZString)]
    Strip None.

(** The state before any document is loaded, with two tools in the heap: a
    tool whose only parameter has a schema the synthesizer fails on, at
    address 2, and [getCarTool] elsewhere. *)
Definition freshState : State :=
  {| toolHeap := fun l => match l with
                          | 2%nat => addCarTool None [filterParam]
                          | _ => getCarTool
                          end;
     parsedSpecs := [];
     toolRegistry := ∅;
     authConfig := ∅;
     lastEnvMtimeMs := None;
     largeBatchConfirmations := ∅;
     issued := [] |}.

Definition carsDocument (addresses : list nat) : ParsedSpec :=
  {| apiName := "cars";
     filePath := "/specs/cars.json";
     spec := JObj [("openapi", JStr "3.0.0")];
     tools := addresses |}.

(** No character of [s] is [c]. *)
Definition lacks (c : ascii) (s : string) : bool :=
  forall_string (fun x => negb (Ascii.eqb x c)) s.

(** The default a server object declares for a variable, if it is a string. *)
Definition variableDefault (server : Json) (varName : string) : option string :=
  match get server "variables" with
  | Some variables =>
      let variable := Parser.member variables varName in
      if truthy variable && typeof_string (get_opt variable "default")
      then Some (as_string (get_opt variable "default")) else None
  | None => None
  end.

Definition stagingServer : Json :=
  JObj [("url", JStr "https://{env}.cars.example/{version}");
        ("variables", JObj [("env", JObj [("default", JStr "staging")]);
                            ("version", JObj [("enum", JArr [JStr "v1"])])])].

(** [operation] is the operation of [spec] at [pathTemplate] under the verb
    [verb], in a path item [pathItem] that the compiler visits. *)
Definition operationAt (spec : Json) (pathTemplate : string) (pathItem : Json)
    (verb : string) (operation : Json) : Prop :=
  exists paths,
    get spec "paths" = Some paths /\ truthy_val paths = true
    /\ In (pathTemplate, pathItem) (Object_entries paths)
    /\ truthy_val pathItem = true /\ typeof_object (Some pathItem) = true
    /\ In verb Compiler.methods
    /\ get pathItem verb = Some operation /\ truthy_val operation = true.

Definition petsDocument : Json :=
  JObj [("swagger", JStr "2.0");
        ("host", JStr "pets.example");
        ("basePath", JStr "/v2");
        ("paths",
         JObj [("/pets",
                JObj [("get", JObj [("operationId", JStr "listPets")]);
                      ("post", JObj [("parameters", JNum 1)])]);
               ("/pets/{petId}",
                JObj [("parameters", JArr [petIdParam]);
                      ("delete", JObj [("summary", JStr "Remove a pet")])])])].

(** The tools compiled from [petsDocument]: one for GET /pets and one for
    DELETE /pets/{petId}; the POST operation, whose parameter list is a
    number, yields none. *)
Definition petsTools : list GeneratedTool :=
  Eval vm_compute in
    match Compiler.generateToolsFromSpec samplePlatform petsDocument "pets" with
    | Returned generated => generated
    | Threw _ => []
    end.

(** * Properties *)

(** ** Strings *)

Lemma split_not_nil (sep : ascii) (s : string) : split sep s <> [].
Proof.
  destruct s as [|c rest]; simpl; [discriminate|].
  destruct (Ascii.eqb c sep); [discriminate|].
  destruct (split sep rest); discriminate.
Qed.

(** Splitting then joining on the separator gives the string back. *)
Lemma join_split (sep : ascii) (s : string) :
  join (String sep EmptyString) (split sep s) = s.
Proof.
  induction s as [|c rest IH]; [reflexivity|].
  simpl split. destruct (Ascii.eqb c sep) eqn:E.
  - apply Ascii.eqb_eq in E. subst c.
    pose proof (split_not_nil sep rest) as Hne.
    destruct (split sep rest) as [|part parts]; [contradiction|].
    change (join (String sep EmptyString) (EmptyString :: part :: parts))
      with (EmptyString +:+ String sep EmptyString
              +:+ join (String sep EmptyString) (part :: parts)).
    rewrite IH. reflexivity.
  - pose proof (split_not_nil sep rest) as Hne.
    destruct (split sep rest) as [|part parts]; [contradiction|].
    destruct parts as [|part' parts'].
    + simpl in *. congruence.
    + change (join (String sep EmptyString) (String c part :: part' :: parts'))
        with (String c (part +:+ String sep EmptyString
                          +:+ join (String sep EmptyString) (part' :: parts'))).
      f_equal. exact IH.
Qed.

(** No part of a split contains the separator. *)
Lemma split_parts_free (sep : ascii) (s : string) :
  Forall (fun part => forall_string (fun c => negb (Ascii.eqb c sep)) part = true)
    (split sep s).
Proof.
  induction s as [|c rest IH]; simpl.
  - repeat constructor.
  - destruct (Ascii.eqb c sep) eqn:E.
    + constructor; [reflexivity | exact IH].
    + destruct (split sep rest) as [|part parts].
      * repeat constructor. simpl. rewrite E. reflexivity.
      * inversion IH as [|? ? Hpart Hparts]; subst.
        constructor; [|exact Hparts]. simpl. rewrite E. exact Hpart.
Qed.

Lemma filter_string_forall (keep : ascii -> bool) (s : string) :
  forall_string keep (filter_string keep s) = true.
Proof.
  induction s as [|c rest IH]; simpl; [reflexivity|].
  destruct (keep c) eqn:E; simpl; [rewrite E|]; exact IH.
Qed.

(** ** Tool naming *)

Section ToolNaming.
Import Parser.

Lemma pathSegments_alnum (pathTemplate : string) :
  Forall (fun segment => forall_string is_alnum segment = true) (pathSegments pathTemplate).
Proof.
  unfold pathSegments. apply List.Forall_forall. intros segment Hin.
  apply in_map_iff in Hin as (part & <- & _). apply filter_string_forall.
Qed.

Lemma pathSegments_none (pathTemplate : string) :
  pathSegments pathTemplate = [] -> pathName pathTemplate = "root".
Proof. unfold pathName. intros ->. reflexivity. Qed.

(** C7. Tool naming is a function of its inputs alone.  With an operationId
    the name is namespace, underscore, operationId, whatever the path and the
    verb; without one it is namespace, verb and the static path segments
    joined by underscores, whatever else the operation holds.  The segments
    are the parts of the template between slashes that are non-empty and do
    not open with a brace, each reduced to its alphanumeric characters; when
    their join is empty the name ends in [root]. *)
Theorem generateToolName_spec (apiName pathTemplate verb : string) (operation : Json) :
  (forall id, get operation "operationId" = Some (JStr id) -> id <> EmptyString ->
     forall pathTemplate' verb',
       generateToolName apiName operation pathTemplate' verb' = apiName +:+ "_" +:+ id)
  /\ (truthy (get operation "operationId") = false ->
        generateToolName apiName operation pathTemplate verb
        = apiName +:+ "_" +:+ verb +:+ "_" +:+ pathName pathTemplate
        /\ (forall operation', truthy (get operation' "operationId") = false ->
              generateToolName apiName operation' pathTemplate verb
              = generateToolName apiName operation pathTemplate verb))
  /\ (exists parts,
        join "/" parts = pathTemplate
        /\ Forall (fun part => forall_string (fun c => negb (Ascii.eqb c "/")) part = true) parts
        /\ pathSegments pathTemplate
           = map (filter_string is_alnum)
               (List.filter (fun part => nonempty part && negb (startsWith part "{")) parts))
  /\ Forall (fun segment => forall_string is_alnum segment = true) (pathSegments pathTemplate)
  /\ (pathName pathTemplate
      = if nonempty (join "_" (pathSegments pathTemplate))
        then join "_" (pathSegments pathTemplate) else "root")
  /\ (pathSegments pathTemplate = [] -> pathName pathTemplate = "root").
Proof.
  repeat split.
  - intros id Hid Hne pathTemplate' verb'. unfold generateToolName.
    rewrite Hid. simpl truthy.
    destruct (String.eqb id EmptyString) eqn:E.
    + apply String.eqb_eq in E. contradiction.
    + reflexivity.
  - unfold generateToolName. rewrite H. reflexivity.
  - intros operation' H'. unfold generateToolName. rewrite H, H'. reflexivity.
  - exists (split "/" pathTemplate). split; [apply join_split|].
    split; [apply split_parts_free | reflexivity].
  - apply pathSegments_alnum.
  - apply pathSegments_none.
Qed.

End ToolNaming.

Example getApiNameFromFile_examples :
  Auth.getApiNameFromFile "/specs/cars.json" = "cars"
  /\ Auth.getApiNameFromFile "/specs/github-api.yaml" = "github_api"
  /\ Auth.getApiNameFromFile "/specs/Pet Store.swagger.yaml" = "pet_store"
  /\ Auth.getApiNameFromFile "billing-OpenAPI.yml" = "billing".
Proof. vm_compute. repeat split. Qed.

Example tool_name_end_to_end :
  Parser.generateToolName (Auth.getApiNameFromFile "/specs/cars.json")
    (JObj [("operationId", JStr "addCar")]) "/cars" "post" = "cars_addCar"
  /\ Parser.generateToolName "github" (JObj []) "/user/repos" "get" = "github_get_user_repos"
  /\ Parser.generateToolName "api" (JObj []) "/{id}" "delete" = "api_delete_root"
  /\ Parser.generateToolName "api" (JObj []) "/-" "get" = "api_get_root"
  /\ Parser.generateToolName "api" (JObj []) "/v1.0/pet-owners" "get" = "api_get_v10_petowners".
Proof. vm_compute. repeat split. Qed.

Lemma generateToolName_spec_witness :
  Parser.generateToolName "cars" (JObj [("operationId", JStr "addCar")]) "/cars" "post"
  = "cars_addCar"
  /\ Parser.generateToolName "github" (JObj []) "/user/{id}/repos" "get"
     = "github_get_user_repos".
Proof.
  split.
  - apply (proj1 (generateToolName_spec "cars" "/cars" "post"
                    (JObj [("operationId", JStr "addCar")])) "addCar");
      [reflexivity | discriminate].
  - apply (proj1 (proj1 (proj2 (generateToolName_spec "github" "/user/{id}/repos" "get"
                                  (JObj []))) eq_refl)).
Defined.

(** ** Parameter extraction *)

Section ParameterExtraction.
Import Parser.

Lemma is_str_as_string (v : option Json) (lit : string) :
  lit <> EmptyString -> (is_str v lit = true <-> as_string v = lit).
Proof.
  intros Hlit. destruct v as [[| | |s| |]|]; simpl;
    try (split; [discriminate | intros <-; contradiction]).
  apply String.eqb_eq.
Qed.

Lemma parameterDescriptor_fields (param : Json) (d : ToolParameter) :
  parameterDescriptor param = Some d ->
  name d = as_string (get param "name")
  /\ in_ d = as_string (get param "in")
  /\ required d = truthy (get param "required") || is_str (get param "in") "path"
  /\ getParameterSchema param = Some (schema d).
Proof.
  unfold parameterDescriptor.
  destruct (getParameterSchema param) as [sch|]; [|discriminate].
  destruct (truthy (get param "in") && truthy (get param "name")); [|discriminate].
  intros [= <-]. simpl. auto.
Qed.

(** Every descriptor comes from one resolved entry of the parameter list. *)
Lemma extractParameters_In (paramRefs : list Json) (spec : option Json) (d : ToolParameter) :
  In d (extractParameters paramRefs spec) ->
  exists paramRef param,
    In paramRef paramRefs
    /\ resolveParameterRef paramRef spec = Some param
    /\ parameterDescriptor param = Some d.
Proof.
  induction paramRefs as [|paramRef rest IH]; simpl; [contradiction|].
  destruct (resolveParameterRef paramRef spec) as [param|] eqn:Hres.
  - destruct (truthy_val param); simpl.
    + destruct (parameterDescriptor param) as [d'|] eqn:Hd.
      * intros [<-|Hin].
        -- exists paramRef, param. auto.
        -- destruct (IH Hin) as (r & p & ? & ? & ?). exists r, p. auto.
      * intros Hin. destruct (IH Hin) as (r & p & ? & ? & ?). exists r, p. auto.
    + intros Hin. destruct (IH Hin) as (r & p & ? & ? & ?). exists r, p. auto.
  - intros Hin. destruct (IH Hin) as (r & p & ? & ? & ?). exists r, p. auto.
Qed.

(** C6. Every descriptor that extraction emits is the descriptor of one
    parameter fragment of the list, built from that fragment by
    [parameterDescriptor], and carries the fragment's name and location; when
    the location is path its [required] flag is true, whatever the fragment
    declares (also [required: false] or nothing); for any other location the
    flag is the one this fragment declares, a missing declaration counting as
    false. *)
Theorem path_parameters_required (paramRefs : list Json) (spec : option Json)
    (d : ToolParameter) :
  In d (extractParameters paramRefs spec) ->
  exists paramRef param,
    In paramRef paramRefs
    /\ resolveParameterRef paramRef spec = Some param
    /\ parameterDescriptor param = Some d
    /\ name d = as_string (get param "name")
    /\ in_ d = as_string (get param "in")
    /\ (in_ d = "path" -> required d = true)
    /\ (in_ d <> "path" -> required d = truthy (get param "required")).
Proof.
  intros Hin.
  destruct (extractParameters_In _ _ _ Hin) as (paramRef & param & Href & Hres & Hd).
  destruct (parameterDescriptor_fields _ _ Hd) as (Hname & Hloc & Hreq & _).
  exists paramRef, param. repeat split; try assumption.
  - intros Hpath. rewrite Hreq.
    assert (is_str (get param "in") "path" = true) as ->.
    { apply is_str_as_string; [discriminate | congruence]. }
    apply orb_true_r.
  - intros Hpath. rewrite Hreq.
    destruct (is_str (get param "in") "path") eqn:E.
    + apply is_str_as_string in E; [|discriminate]. congruence.
    + apply orb_false_r.
Qed.

End ParameterExtraction.

Lemma path_parameters_required_witness :
  In petIdDescriptor (Parser.extractParameters [petIdParam; limitParam] None)
  /\ exists paramRef param,
       In paramRef [petIdParam; limitParam]
       /\ Parser.resolveParameterRef paramRef None = Some param
       /\ Parser.parameterDescriptor param = Some petIdDescriptor
       /\ name petIdDescriptor = as_string (get param "name")
       /\ in_ petIdDescriptor = as_string (get param "in")
       /\ (in_ petIdDescriptor = "path" -> required petIdDescriptor = true)
       /\ (in_ petIdDescriptor <> "path" ->
           required petIdDescriptor = truthy (get param "required")).
Proof.
  split.
  - vm_compute. left. reflexivity.
  - apply (path_parameters_required [petIdParam; limitParam] None petIdDescriptor).
    vm_compute. left. reflexivity.
Defined.

Example extractParameters_example :
  map (fun d => (name d, in_ d, required d))
    (Parser.extractParameters [petIdParam; limitParam] None)
  = [("petId", "path", true); ("limit", "query", false)].
Proof. vm_compute. reflexivity. Qed.

(** ** Request body *)

Section RequestBody.
Import Http.

(** Without a body schema and without a body-location parameter the executor
    sends no body: the single unmatched argument is not collected. *)
Lemma buildRequestBody_no_leftover_fallback :
  claimedBody (addCarTool None []) civic = civic
  /\ buildRequestBody (addCarTool None []) civic = JNull
  /\ buildRequestBody (addCarTool None []) civic <> claimedBody (addCarTool None []) civic.
Proof. vm_compute. repeat split. discriminate. Qed.

(** Without a body schema the parameter's own argument wins over [body], and
    [requestBody] is not consulted. *)
Example buildRequestBody_body_parameter_first :
  buildRequestBody (addCarTool None [carBodyParam])
    (JObj [("body", JStr "explicit"); ("car", JStr "own")]) = JStr "own"
  /\ buildRequestBody (addCarTool None [carBodyParam])
       (JObj [("requestBody", JStr "explicit")]) = JNull.
Proof. vm_compute. split; reflexivity. Qed.

Example buildRequestBody_leftover_with_schema :
  buildRequestBody (addCarTool (Some carBodySchema) []) civic = civic.
Proof. vm_compute. reflexivity. Qed.

Lemma leftoverArgs_spec (tool : GeneratedTool) (args : Json) (k : string) (v : Json) :
  In (k, v) (leftoverArgs tool args)
  <-> In (k, v) (Object_entries args)
      /\ forall p, In p (parameters tool) -> name p <> k.
Proof.
  unfold leftoverArgs. rewrite filter_In. simpl.
  split; intros [Hin Hname]; split; try assumption.
  - intros p Hp Heq. apply negb_true_iff in Hname.
    assert (isParamName tool k = true) as Habs; [|congruence].
    apply existsb_exists. exists p. split; [assumption|]. apply String.eqb_eq. assumption.
  - apply negb_true_iff. destruct (isParamName tool k) eqn:E; [|reflexivity].
    apply existsb_exists in E as (p & Hp & Heq). apply String.eqb_eq in Heq.
    exfalso. exact (Hname p Hp Heq).
Qed.

(** C1, as the code has it.  With a body schema: the [body] argument, else
    the [requestBody] argument, else, for arguments without a [__proto__]
    key (assigning that key to the collecting object adds no property), the
    object of the arguments that match no declared parameter name when there
    is one, else none.  Without a body schema: none unless a body-location
    parameter exists; with one, the argument named by the first such
    parameter, else, when that name is not one every object inherits (the
    read of the absent argument would answer the inherited member), the
    [body] argument, else none. *)
Theorem buildRequestBody_precedence (tool : GeneratedTool) (args : Json) :
  (truthy (requestBody tool) = true ->
     (forall v, get args "body" = Some v -> buildRequestBody tool args = v)
     /\ (forall v, get args "body" = None -> get args "requestBody" = Some v ->
           buildRequestBody tool args = v)
     /\ (get args "body" = None -> get args "requestBody" = None ->
         get args "__proto__" = None ->
           buildRequestBody tool args
           = (if (0 <? length (leftoverArgs tool args))%nat
              then JObj (leftoverArgs tool args) else JNull)
           /\ forall k v, In (k, v) (leftoverArgs tool args)
                <-> In (k, v) (Object_entries args)
                    /\ forall p, In p (parameters tool) -> name p <> k))
  /\ (truthy (requestBody tool) = false ->
        (List.find (fun p => String.eqb (in_ p) "body") (parameters tool) = None ->
           buildRequestBody tool args = JNull)
        /\ (forall bodyParam,
              List.find (fun p => String.eqb (in_ p) "body") (parameters tool)
              = Some bodyParam ->
              (forall v, get args (name bodyParam) = Some v ->
                 buildRequestBody tool args = v)
              /\ (inheritedMember (name bodyParam) = false ->
                    (forall v, get args (name bodyParam) = None ->
                       get args "body" = Some v -> buildRequestBody tool args = v)
                    /\ (get args (name bodyParam) = None -> get args "body" = None ->
                          buildRequestBody tool args = JNull)))).
Proof.
  split; intros Hbody; unfold buildRequestBody; rewrite Hbody; simpl negb; cbv iota.
  - split; [|split].
    + intros v ->. reflexivity.
    + intros v -> ->. reflexivity.
    + intros -> -> _. split; [reflexivity|].
      intros k v. apply leftoverArgs_spec.
  - split.
    + intros ->. reflexivity.
    + intros bodyParam ->. split; [|intros _; split].
      * intros v ->. reflexivity.
      * intros v -> ->. reflexivity.
      * intros -> ->. reflexivity.
Qed.

End RequestBody.

Lemma buildRequestBody_precedence_witness :
  Http.buildRequestBody (addCarTool (Some carBodySchema) []) civic = civic
  /\ Http.buildRequestBody (addCarTool None [carBodyParam]) civic = JNull.
Proof.
  split.
  - apply (proj1 (proj2 (proj2 (proj1
             (buildRequestBody_precedence (addCarTool (Some carBodySchema) []) civic)
             eq_refl)) eq_refl eq_refl eq_refl)).
  - apply (proj2 (proj2 (proj2 (proj2
             (buildRequestBody_precedence (addCarTool None [carBodyParam]) civic) eq_refl)
             carBodyParam eq_refl) eq_refl) eq_refl eq_refl).
Defined.

(** ** Request execution *)

Section Executor.
Import Http.
Variable P : Platform.

Lemma executeRequest_returns (axios : RequestConfig -> AxiosOutcome)
    (tool : GeneratedTool) (auth : option Auth.AuthRecord) (args : Json) :
  exists result, executeRequest P axios tool auth args = Returned result.
Proof.
  unfold executeRequest.
  destruct (buildRequestConfig P tool auth args) as [cfg|message]; [|eauto].
  destruct (axios cfg); eauto.
Qed.

(** C5. Whatever the tool, the arguments and the transport do, the executor
    returns a result and throws nothing: a request that cannot be built gives
    a result with status [Error]; a call the transport fails gives a result
    whose status is no success code, and whose body is the one the remote
    sent whenever it sent a non-null one. *)
Theorem executeRequest_contract (axios : RequestConfig -> AxiosOutcome)
    (tool : GeneratedTool) (auth : option Auth.AuthRecord) (args : Json) :
  (exists result, executeRequest P axios tool auth args = Returned result)
  /\ (forall message,
        buildRequestConfig P tool auth args = Threw message ->
        exists result,
          executeRequest P axios tool auth args = Returned result
          /\ response_status result = StatusText "Error"
          /\ response_body result = JObj [("error", JStr message)])
  /\ (forall cfg error,
        buildRequestConfig P tool auth args = Returned cfg ->
        axios cfg = Rejected error ->
        settled (axios cfg) ->
        exists result,
          executeRequest P axios tool auth args = Returned result
          /\ successStatus (response_status result) = false
          /\ (forall r body,
                error = AxiosError (Some r) -> data r = Some body -> body <> JNull ->
                response_body result = body /\ response_body result <> JNull)).
Proof.
  split; [apply executeRequest_returns|]. split.
  - intros message Hbuild. unfold executeRequest. rewrite Hbuild.
    eexists. split; [reflexivity|]. split; reflexivity.
  - intros cfg error Hbuild Haxios Hsettled. unfold executeRequest.
    rewrite Hbuild, Haxios. eexists. split; [reflexivity|].
    rewrite Haxios in Hsettled. split.
    + destruct error as [[r|]|message]; simpl in *; [exact Hsettled | reflexivity..].
    + intros r body -> Hdata Hnn. simpl. rewrite Hdata. simpl. split; [reflexivity | exact Hnn].
Qed.

End Executor.

Lemma executeRequest_contract_witness :
  (exists cfg,
     Http.buildRequestConfig samplePlatform (addCarTool None [carIdParam]) None
       (JObj [("id", JStr "7")]) = Returned cfg)
  /\ Http.buildRequestConfig samplePlatform (addCarTool None [carIdParam]) None
       (JObj [("id", JStr EmptyString)]) = Threw "URIError: URI malformed"
  /\ (exists result,
        Http.executeRequest samplePlatform (fun _ => Rejected (AxiosError (Some notFound)))
          (addCarTool None [carIdParam]) None (JObj [("id", JStr "7")]) = Returned result
        /\ response_status result = StatusCode 404
        /\ response_body result = JObj [("message", JStr "no such car")])
  /\ (exists result,
        Http.executeRequest samplePlatform (fun _ => Rejected (AxiosError (Some notFound)))
          (addCarTool None [carIdParam]) None (JObj [("id", JStr EmptyString)])
        = Returned result
        /\ response_status result = StatusText "Error").
Proof.
  split; [eexists; vm_compute; reflexivity|].
  split; [vm_compute; reflexivity|].
  split.
  - destruct (proj2 (proj2 (executeRequest_contract samplePlatform
                (fun _ => Rejected (AxiosError (Some notFound)))
                (addCarTool None [carIdParam]) None (JObj [("id", JStr "7")])))
              _ (AxiosError (Some notFound)) eq_refl eq_refl eq_refl)
      as (result & Hrun & _ & Hbody).
    exists result. split; [exact Hrun|].
    destruct (Hbody notFound _ eq_refl eq_refl ltac:(discriminate)) as [Hb _].
    split; [|exact Hb].
    vm_compute in Hrun. injection Hrun as <-. reflexivity.
  - destruct (proj1 (proj2 (executeRequest_contract samplePlatform
                (fun _ => Rejected (AxiosError (Some notFound)))
                (addCarTool None [carIdParam]) None (JObj [("id", JStr EmptyString)])))
              _ eq_refl)
      as (result & Hrun & Hstatus & _).
    exists result. split; assumption.
Defined.

(** ** Credentials from the environment *)

Section AuthRecords.
Import Auth.

Lemma scanEntry_skip (authConfig : gmap string AuthRecord) (key : string)
    (value : option string) :
  str_truthy value = false -> scanEntry authConfig (key, value) = authConfig.
Proof. intros H. unfold scanEntry. rewrite H. reflexivity. Qed.

Lemma scanEntry_frame (api : string) (authConfig : gmap string AuthRecord)
    (entry : string * option string) :
  concerns api entry = false -> scanEntry authConfig entry !! api = authConfig !! api.
Proof.
  destruct entry as [key value]. unfold concerns, scanEntry. simpl.
  destruct (str_truthy value) eqn:Hv; simpl; [|reflexivity].
  destruct value as [v|]; [|reflexivity].
  destruct (classify key) as [[[apiName authType] configKey]|]; [|reflexivity].
  intros Hne. destruct (nonempty apiName); [|reflexivity].
  apply lookup_insert_ne. intros ->. rewrite String.eqb_refl in Hne. discriminate.
Qed.

Lemma scan_frame (api : string) (entries : list (string * option string))
    (authConfig : gmap string AuthRecord) :
  forallb (fun e => negb (concerns api e)) entries = true ->
  fold_left scanEntry entries authConfig !! api = authConfig !! api.
Proof.
  revert authConfig. induction entries as [|e rest IH]; intros authConfig; simpl.
  - reflexivity.
  - intros H. apply andb_true_iff in H as [He Hrest].
    rewrite IH by exact Hrest. apply scanEntry_frame.
    apply negb_true_iff. exact He.
Qed.

Lemma scan_skip_all (entries : list (string * option string))
    (authConfig : gmap string AuthRecord) :
  fold_left scanEntry entries authConfig
  = fold_left scanEntry (List.filter (fun e => str_truthy (snd e)) entries) authConfig.
Proof.
  revert authConfig. induction entries as [|[key value] rest IH]; intros authConfig.
  - reflexivity.
  - cbn [fold_left List.filter snd]. destruct (str_truthy value) eqn:Hv.
    + cbn [fold_left]. apply IH.
    + rewrite scanEntry_skip by exact Hv. apply IH.
Qed.








(** C10. A variable whose value is empty or undefined is skipped: scanning it
    leaves every Auth Record as it was and creates none.  Hence the table is
    the one computed from the non-empty variables alone, and the empty
    [_SERVER_URL] and [_BEARER_TOKEN] placeholders the loader appends produce
    no record, alone or among other variables. *)
Theorem loadAuthConfig_skips_empty (authConfig : gmap string AuthRecord) (key : string)
    (value : option string) :
  (value = None \/ value = Some EmptyString ->
     scanEntry authConfig (key, value) = authConfig)
  /\ (forall entries,
        loadAuthConfig entries
        = loadAuthConfig (List.filter (fun e => str_truthy (snd e)) entries))
  /\ (forall keys,
        loadAuthConfig (map (fun k => (k, Some (getEnvPlaceholderValue k))) keys) = ∅)
  /\ (forall keys before after,
        loadAuthConfig
          (before ++ map (fun k => (k, Some (getEnvPlaceholderValue k))) keys ++ after)
        = loadAuthConfig (before ++ after))
  /\ (forall existingKeys specFiles before after,
        loadAuthConfig (placeholderEntries existingKeys specFiles) = ∅
        /\ loadAuthConfig (before ++ placeholderEntries existingKeys specFiles ++ after)
           = loadAuthConfig (before ++ after)).
Proof.
  assert (forall keys,
            List.filter (fun e : string * option string => str_truthy (snd e))
              (map (fun k => (k, Some (getEnvPlaceholderValue k))) keys) = []) as Hnone.
  { induction keys as [|k rest IH]; simpl; [reflexivity|].
    unfold getEnvPlaceholderValue at 1.
    destruct (endsWith k "_SERVER_URL"), (endsWith k "_BEARER_TOKEN"); simpl; exact IH. }
  assert (forall keys before after,
            loadAuthConfig
              (before ++ map (fun k => (k, Some (getEnvPlaceholderValue k))) keys ++ after)
            = loadAuthConfig (before ++ after)) as Hamong.
  { intros keys before after. unfold loadAuthConfig.
    rewrite (scan_skip_all (before ++ _)), (scan_skip_all (before ++ after)).
    rewrite !List.filter_app, Hnone. reflexivity. }
  split; [|split; [|split; [|split]]].
  - intros [-> | ->]; apply scanEntry_skip; reflexivity.
  - intros entries. unfold loadAuthConfig. apply scan_skip_all.
  - intros keys. unfold loadAuthConfig. rewrite scan_skip_all, Hnone. reflexivity.
  - exact Hamong.
  - intros existingKeys specFiles before after. unfold placeholderEntries. split.
    + unfold loadAuthConfig. rewrite scan_skip_all, Hnone. reflexivity.
    + apply Hamong.
Qed.

End AuthRecords.

Example loadAuthConfig_alone :
  Auth.loadAuthConfig [("CARS_API_KEY", Some "abc")] = {[ "cars" := apiKeyRecord "abc" ]}
  /\ Auth.loadAuthConfig [("CARS_TOKEN", Some "xyz")] = {[ "cars" := bearerRecord "xyz" ]}.
Proof. split; vm_compute; reflexivity. Qed.

Example ensureEnvKeysForSpecs_example :
  Auth.ensureEnvKeysForSpecs ["CARS_API_KEY"; "PETS_SERVER_URL"] false
    ["/specs/cars.json"; "/specs/pets.yaml"]
  = ["# SpecRun placeholders"; "CARS_SERVER_URL="; "CARS_BEARER_TOKEN="; "PETS_BEARER_TOKEN="]
  /\ Auth.loadAuthConfig
       (("CARS_API_KEY", Some "abc")
        :: Auth.placeholderEntries ["CARS_API_KEY"; "PETS_SERVER_URL"]
             ["/specs/cars.json"; "/specs/pets.yaml"])
     = {[ "cars" := apiKeyRecord "abc" ]}.
Proof. split; vm_compute; reflexivity. Qed.


Lemma loadAuthConfig_skips_empty_witness :
  Auth.scanEntry (Auth.loadAuthConfig [("CARS_API_KEY", Some "abc")])
    ("CARS_BEARER_TOKEN", Some EmptyString)
  = Auth.loadAuthConfig [("CARS_API_KEY", Some "abc")].
Proof.
  apply (proj1 (loadAuthConfig_skips_empty
                  (Auth.loadAuthConfig [("CARS_API_KEY", Some "abc")])
                  "CARS_BEARER_TOKEN" (Some EmptyString))).
  right. reflexivity.
Defined.

(** ** Batch dispatcher: the confirmation table *)

Section Confirmation.
Import Tools.
Variable P : Platform.

Lemma runItems_frame (w : World) (entry : ToolRegistryEntry) (failFast : bool)
    (items : list Json) (index : nat) (st : State) :
  let st' := snd (runItems P w entry failFast index items st) in
  largeBatchConfirmations st' = largeBatchConfirmations st
  /\ toolRegistry st' = toolRegistry st
  /\ toolHeap st' = toolHeap st
  /\ authConfig st' = authConfig st.
Proof.
  revert index st. induction items as [|itemArgs rest IH]; intros index st; simpl.
  - auto.
  - destruct (safeParse P (entry_schema entry) itemArgs) as [data|message].
    + destruct (Http.executeRequest P _ _ _ data) as [output|message].
      * specialize (IH (S index) (recordCall (tool_name (toolHeap st (entry_tool entry))) data st)).
        destruct (runItems P w entry failFast (S index) rest _) as [results st'].
        simpl in *. exact IH.
      * destruct failFast; simpl; [auto|].
        specialize (IH (S index) (recordCall (tool_name (toolHeap st (entry_tool entry))) data st)).
        destruct (runItems P w entry false (S index) rest _) as [results st'].
        simpl in *. exact IH.
    + destruct failFast; simpl; [auto|].
      specialize (IH (S index) st).
      destruct (runItems P w entry false (S index) rest st) as [results st'].
      simpl in *. exact IH.
Qed.

Lemma isLargeBatchConfirmed_true (w : World) (confirm : bool) (tok toolName : string)
    (count : nat) (st : State) :
  tokenValid w confirm tok toolName count st ->
  isLargeBatchConfirmed w confirm tok toolName count st
  = (true, setConfirmations (delete tok (largeBatchConfirmations st)) st).
Proof.
  intros (-> & Hne & record & Hrec & Hexp & Hname & Hcount).
  unfold isLargeBatchConfirmed. simpl.
  destruct tok as [|c tok']; [contradiction|]. simpl.
  rewrite Hrec.
  destruct (Z.leb_spec (expiresAt record) (now_confirm w)); [lia|].
  rewrite Hname, Hcount, String.eqb_refl, Nat.eqb_refl. reflexivity.
Qed.

Lemma isLargeBatchConfirmed_inv (w : World) (confirm : bool) (tok toolName : string)
    (count : nat) (st : State) :
  fst (isLargeBatchConfirmed w confirm tok toolName count st) = true ->
  tokenValid w confirm tok toolName count st.
Proof.
  unfold isLargeBatchConfirmed, tokenValid.
  destruct confirm; simpl; [|discriminate].
  destruct (nonempty tok) eqn:Htok; simpl; [|discriminate].
  destruct (largeBatchConfirmations st !! tok) as [record|] eqn:Hrec; [|discriminate].
  destruct (Z.leb_spec (expiresAt record) (now_confirm w)); [discriminate|].
  destruct (String.eqb (conf_toolName record) toolName) eqn:Hname; [|discriminate].
  destruct (Nat.eqb (conf_count record) count) eqn:Hcount; [|discriminate].
  intros _. split; [reflexivity|]. split.
  - intros ->. discriminate.
  - exists record. apply String.eqb_eq in Hname. apply Nat.eqb_eq in Hcount. auto.
Qed.

Lemma isLargeBatchConfirmed_false_no_record (w : World) (confirm : bool)
    (tok toolName : string) (count : nat) (st : State) :
  largeBatchConfirmations st !! tok = None ->
  isLargeBatchConfirmed w confirm tok toolName count st = (false, st).
Proof.
  intros Hnone. unfold isLargeBatchConfirmed.
  destruct (negb confirm || negb (nonempty tok)); [reflexivity|].
  rewrite Hnone. reflexivity.
Qed.

(** C3. A supplied token is accepted exactly when the confirmation flag is
    set, the token is non-empty, the table holds a record for it, that record
    has not expired at the time of the check, and its tool name and item count
    equal those of the request.  On acceptance the record is deleted at once:
    no request has been issued yet, and the record stays absent after the item
    loop, whatever the items, the fail-fast flag and the transport do. *)
Theorem isLargeBatchConfirmed_spec (w : World) (confirm : bool) (tok toolName : string)
    (count : nat) (st : State) :
  (fst (isLargeBatchConfirmed w confirm tok toolName count st) = true
   <-> tokenValid w confirm tok toolName count st)
  /\ (fst (isLargeBatchConfirmed w confirm tok toolName count st) = true ->
      let st' := snd (isLargeBatchConfirmed w confirm tok toolName count st) in
      largeBatchConfirmations st' = delete tok (largeBatchConfirmations st)
      /\ largeBatchConfirmations st' !! tok = None
      /\ issued st' = issued st
      /\ forall w' entry failFast items,
           largeBatchConfirmations (snd (runItems P w' entry failFast 0 items st')) !! tok
           = None).
Proof.
  split.
  - split; [apply isLargeBatchConfirmed_inv|].
    intros Hvalid. rewrite (isLargeBatchConfirmed_true _ _ _ _ _ _ Hvalid). reflexivity.
  - intros Hacc. apply isLargeBatchConfirmed_inv in Hacc.
    rewrite (isLargeBatchConfirmed_true _ _ _ _ _ _ Hacc). simpl.
    split; [reflexivity|]. split; [apply lookup_delete_eq|]. split; [reflexivity|].
    intros w' entry failFast items.
    destruct (runItems_frame w' entry failFast items 0
                (setConfirmations (delete tok (largeBatchConfirmations st)) st)) as [-> _].
    simpl. apply lookup_delete_eq.
Qed.

End Confirmation.

(** ** Batch dispatcher: the large-batch gate *)

Section BatchGate.
Import Tools.
Variable P : Platform.

Lemma refresh_frame (w : World) (force : bool) (st : State) :
  let st' := Server.refreshEnvConfigIfChanged P w force st in
  toolRegistry st' = toolRegistry st
  /\ largeBatchConfirmations st' = largeBatchConfirmations st
  /\ issued st' = issued st.
Proof.
  unfold Server.refreshEnvConfigIfChanged.
  destruct (negb force && Server.option_Z_eqb (envMtimeMs w) (lastEnvMtimeMs st)); simpl; auto.
Qed.





End BatchGate.

Section LargeBatch.
Import Tools.
Variable P : Platform.




End LargeBatch.

(** ** Hot reload of base URLs *)

Section HotReload.
Import Server.
Variable P : Platform.

Lemma sameButBaseUrl_refl (t : GeneratedTool) : sameButBaseUrl t t.
Proof. repeat split. Qed.

Lemma write_own_at (url : string) (ownTools : list nat) (heap : nat -> GeneratedTool)
    (l : nat) :
  fold_left (writeBaseUrl url) ownTools heap l
  = if existsb (Nat.eqb l) ownTools then withBaseUrl url (heap l) else heap l.
Proof.
  revert heap. induction ownTools as [|a rest IH]; intros heap; simpl; [reflexivity|].
  rewrite IH. unfold writeBaseUrl.
  destruct (Nat.eqb l a); simpl; destruct (existsb (Nat.eqb l) rest); reflexivity.
Qed.

Lemma write_entries_at (api url : string) (registry : list ToolRegistryEntry)
    (heap : nat -> GeneratedTool) (l : nat) :
  fold_left
    (fun h entry =>
       if String.eqb (apiName (entry_spec entry)) api
       then writeBaseUrl url h (entry_tool entry) else h)
    registry heap l
  = if existsb (fun e => String.eqb (apiName (entry_spec e)) api && Nat.eqb l (entry_tool e))
         registry
    then withBaseUrl url (heap l) else heap l.
Proof.
  revert heap. induction registry as [|e rest IH]; intros heap; simpl; [reflexivity|].
  rewrite IH.
  destruct (String.eqb (apiName (entry_spec e)) api); simpl; [|reflexivity].
  unfold writeBaseUrl.
  destruct (Nat.eqb l (entry_tool e)); simpl; destruct (existsb _ rest); reflexivity.
Qed.

Lemma pushBaseUrl_at (api url : string) (ownTools : list nat)
    (registry : list ToolRegistryEntry) (heap : nat -> GeneratedTool) (l : nat) :
  pushBaseUrl api url ownTools registry heap l
  = if touches api ownTools registry l then withBaseUrl url (heap l) else heap l.
Proof.
  unfold pushBaseUrl, touches. rewrite write_entries_at, write_own_at.
  destruct (existsb (Nat.eqb l) ownTools); simpl; destruct (existsb _ registry); reflexivity.
Qed.

Lemma updateSpec_at (env : list (string * option string))
    (registry : list ToolRegistryEntry) (heap : nat -> GeneratedTool) (parsed : ParsedSpec)
    (l : nat) :
  updateSpec P env registry heap parsed l
  = match Parser.resolveServerUrl (apiName parsed) env with
    | Some newBaseUrl =>
        if touches (apiName parsed) (tools parsed) registry l
        then withBaseUrl (resolveToolBaseUrl P parsed newBaseUrl) (heap l) else heap l
    | None => heap l
    end.
Proof.
  unfold updateSpec. destruct (Parser.resolveServerUrl (apiName parsed) env); [|reflexivity].
  apply pushBaseUrl_at.
Qed.

Lemma update_fold (env : list (string * option string)) (registry : list ToolRegistryEntry)
    (specs : list ParsedSpec) (heap : nat -> GeneratedTool) (l : nat) :
  let heap' := fold_left (updateSpec P env registry) specs heap in
  sameButBaseUrl (heap l) (heap' l)
  /\ (existsb (written env registry l) specs = false -> heap' l = heap l)
  /\ (existsb (written env registry l) specs = true ->
      exists parsed newBaseUrl,
        In parsed specs
        /\ Parser.resolveServerUrl (apiName parsed) env = Some newBaseUrl
        /\ touches (apiName parsed) (tools parsed) registry l = true
        /\ baseUrl (heap' l) = resolveToolBaseUrl P parsed newBaseUrl).
Proof.
  revert heap. induction specs as [|parsed rest IH]; intros heap; simpl.
  - split; [apply sameButBaseUrl_refl|]. split; [reflexivity | discriminate].
  - destruct (IH (updateSpec P env registry heap parsed)) as (Hsame & Hkeep & Hset).
    pose proof (updateSpec_at env registry heap parsed l) as Hat.
    unfold written at 1 3.
    destruct (Parser.resolveServerUrl (apiName parsed) env) as [newBaseUrl|] eqn:Hurl.
    + destruct (touches (apiName parsed) (tools parsed) registry l) eqn:Htouch; simpl.
      * split.
        { rewrite Hat in Hsame. exact Hsame. }
        split; [discriminate|]. intros _.
        destruct (existsb (written env registry l) rest) eqn:Hrest.
        -- destruct (Hset eq_refl) as (p & u & Hin & Hu & Ht & Hb).
           exists p, u. auto.
        -- exists parsed, newBaseUrl. rewrite (Hkeep eq_refl), Hat. auto.
      * rewrite Hat in Hsame, Hkeep. split; [exact Hsame|].
        split; [exact Hkeep|]. intros Hrest.
        destruct (Hset Hrest) as (p & u & Hin & Hu & Ht & Hb). exists p, u. auto.
    + simpl. rewrite Hat in Hsame, Hkeep. split; [exact Hsame|].
      split; [exact Hkeep|]. intros Hrest.
      destruct (Hset Hrest) as (p & u & Hin & Hu & Ht & Hb). exists p, u. auto.
Qed.

Lemma registryEntries_In (st : State) (entry : ToolRegistryEntry) :
  In entry (registryEntries st) <-> exists key, toolRegistry st !! key = Some entry.
Proof.
  unfold registryEntries. rewrite in_map_iff. split.
  - intros ([key e] & <- & Hin). exists key.
    apply elem_of_map_to_list. apply list_elem_of_In. exact Hin.
  - intros (key & Hkey). exists (key, entry). split; [reflexivity|].
    apply list_elem_of_In. apply elem_of_map_to_list. exact Hkey.
Qed.

Lemma touches_belongs (st : State) (file : string) (parsed : ParsedSpec) (l : nat) :
  In (file, parsed) (parsedSpecs st) ->
  (touches (apiName parsed) (tools parsed) (registryEntries st) l = true
   <-> (In l (tools parsed)
        \/ exists key entry,
             toolRegistry st !! key = Some entry
             /\ apiName (entry_spec entry) = apiName parsed /\ entry_tool entry = l)).
Proof.
  intros Hloaded. unfold touches. rewrite orb_true_iff, !existsb_exists. split.
  - intros [(a & Hin & Heq) | (e & Hin & Heq)].
    + apply Nat.eqb_eq in Heq. subst a. left. exact Hin.
    + apply andb_true_iff in Heq as [Hapi Hl].
      apply String.eqb_eq in Hapi. apply Nat.eqb_eq in Hl.
      apply registryEntries_In in Hin as (key & Hkey). right. exists key, e. auto.
  - intros [Hin | (key & e & Hkey & Hapi & Hl)].
    + left. exists l. split; [exact Hin | apply Nat.eqb_refl].
    + right. exists e. split; [apply registryEntries_In; eauto|].
      rewrite Hapi, String.eqb_refl, Hl, Nat.eqb_refl. reflexivity.
Qed.

Lemma update_heap (env : list (string * option string)) (st : State) (l : nat) :
  let heap' := updateToolBaseUrlsFromEnv P env st in
  sameButBaseUrl (toolHeap st l) (heap' l)
  /\ ((forall api, belongsTo st api l -> Parser.resolveServerUrl api env = None) ->
      heap' l = toolHeap st l)
  /\ (forall file parsed newBaseUrl,
        In (file, parsed) (parsedSpecs st) ->
        Parser.resolveServerUrl (apiName parsed) env = Some newBaseUrl ->
        belongsTo st (apiName parsed) l ->
        exists file' parsed' newBaseUrl',
          In (file', parsed') (parsedSpecs st)
          /\ Parser.resolveServerUrl (apiName parsed') env = Some newBaseUrl'
          /\ baseUrl (heap' l) = resolveToolBaseUrl P parsed' newBaseUrl').
Proof.
  unfold updateToolBaseUrlsFromEnv. fold (registryEntries st).
  destruct (update_fold env (registryEntries st) (map snd (parsedSpecs st)) (toolHeap st) l)
    as (Hsame & Hkeep & Hset).
  split; [exact Hsame|]. split.
  - intros Hunset. apply Hkeep.
    destruct (existsb (written env (registryEntries st) l) (map snd (parsedSpecs st)))
      eqn:E; [|reflexivity].
    apply existsb_exists in E as (parsed & Hin & Hw).
    apply in_map_iff in Hin as ([file p] & Hp & Hin). simpl in Hp. subst p.
    unfold written in Hw.
    destruct (Parser.resolveServerUrl (apiName parsed) env) eqn:Hurl; [|discriminate].
    apply (touches_belongs st file parsed l Hin) in Hw.
    assert (belongsTo st (apiName parsed) l) as Hbel.
    { destruct Hw as [Hown | Hentry]; [left; exists file, parsed; auto | right; exact Hentry]. }
    rewrite (Hunset _ Hbel) in Hurl. discriminate.
  - intros file parsed newBaseUrl Hin Hurl Hbel.
    assert (existsb (written env (registryEntries st) l) (map snd (parsedSpecs st)) = true)
      as Hwritten.
    { apply existsb_exists.
      destruct Hbel as [(file2 & parsed2 & Hin2 & Hapi2 & Hown) | Hentry].
      - exists parsed2. split; [apply in_map_iff; exists (file2, parsed2); auto|].
        rewrite <- Hapi2 in Hurl. unfold written. rewrite Hurl.
        apply (touches_belongs st file2 parsed2 l Hin2). left. exact Hown.
      - exists parsed. split; [apply in_map_iff; exists (file, parsed); auto|].
        unfold written. rewrite Hurl.
        apply (touches_belongs st file parsed l Hin). right. exact Hentry. }
    destruct (Hset Hwritten) as (parsed' & newBaseUrl' & Hin' & Hurl' & _ & Hbase).
    apply in_map_iff in Hin' as ([file' p] & Hp & Hin'). simpl in Hp. subst p.
    exists file', parsed', newBaseUrl'. auto.
Qed.

(** C9. A refresh leaves the loaded documents and the registry as they are
    (the same addresses) and changes nothing of any Tool Definition but its
    base URL.  A definition that belongs only to APIs without a server URL in
    the environment is unchanged entirely.  When the refresh runs, every
    definition of an API with a server URL, held by a loaded document or by a
    registry entry, has as base URL the one recomputed from the environment
    for a loaded document. *)
Theorem hot_reload_frame (w : World) (force : bool) (st : State) :
  let st' := refreshEnvConfigIfChanged P w force st in
  parsedSpecs st' = parsedSpecs st
  /\ toolRegistry st' = toolRegistry st
  /\ (forall l, sameButBaseUrl (toolHeap st l) (toolHeap st' l))
  /\ (forall l,
        (forall api, belongsTo st api l -> Parser.resolveServerUrl api (env w) = None) ->
        toolHeap st' l = toolHeap st l)
  /\ (force = true \/ option_Z_eqb (envMtimeMs w) (lastEnvMtimeMs st) = false ->
      forall file parsed newBaseUrl l,
        In (file, parsed) (parsedSpecs st) ->
        Parser.resolveServerUrl (apiName parsed) (env w) = Some newBaseUrl ->
        belongsTo st (apiName parsed) l ->
        exists file' parsed' newBaseUrl',
          In (file', parsed') (parsedSpecs st)
          /\ Parser.resolveServerUrl (apiName parsed') (env w) = Some newBaseUrl'
          /\ baseUrl (toolHeap st' l) = resolveToolBaseUrl P parsed' newBaseUrl').
Proof.
  unfold refreshEnvConfigIfChanged.
  destruct (negb force && option_Z_eqb (envMtimeMs w) (lastEnvMtimeMs st)) eqn:Hskip; simpl.
  - split; [reflexivity|]. split; [reflexivity|].
    split; [intros l; apply sameButBaseUrl_refl|]. split; [reflexivity|].
    intros [-> | Hchanged]; [discriminate|].
    rewrite Hchanged, andb_false_r in Hskip. discriminate.
  - split; [reflexivity|]. split; [reflexivity|].
    split; [intros l; apply (update_heap (env w) st l)|].
    split; [intros l; apply (update_heap (env w) st l)|].
    intros _ file parsed newBaseUrl l. apply (update_heap (env w) st l).
Qed.

End HotReload.

(** ** Schema synthesis *)

Section SchemaSynthesis.
Import Tools.

(** Fragments the synthesizer cannot interpret become accept-anything: an
    absent or falsy fragment, a fragment that is not an object, and an object
    whose [type] is none of the six it knows. *)
Lemma openAPISchemaToZod_any (depth : nat) (schema : option Json) :
  negb (truthy schema) || negb (typeof_object schema) = true
  \/ (is_str (get_opt schema "type") "string" = false
      /\ is_str (get_opt schema "type") "number" = false
      /\ is_str (get_opt schema "type") "integer" = false
      /\ is_str (get_opt schema "type") "boolean" = false
      /\ is_str (get_opt schema "type") "array" = false
      /\ is_str (get_opt schema "type") "object" = false) ->
  openAPISchemaToZod (S depth) schema = Returned ZAny.
Proof.
  intros [Hnone | (H1 & H2 & H3 & H4 & H5 & H6)]; simpl.
  - rewrite Hnone. reflexivity.
  - destruct (negb (truthy schema) || negb (typeof_object schema)); [reflexivity|].
    rewrite H1, H2, H3, H4, H5, H6. reflexivity.
Qed.

Example openAPISchemaToZod_nested :
  openAPISchemaToZod 3
    (Some (JObj [("type", JStr "object");
                 ("properties",
                  JObj [("tags", JObj [("type", JStr "array");
                                       ("items", JObj [("type", JStr "string")])]);
                        ("extra", JObj [("type", JStr "tuple")])]);
                 ("required", JArr [JStr "tags"]);
                 ("additionalProperties", JBool false)]))
  = Returned (ZObject [("tags", ZArray ZString); ("extra", ZOptional ZAny)] Strict None).
Proof. vm_compute. reflexivity. Qed.

Lemma openAPISchemaToZod_step (depth : nat) (schema : option Json) :
  openAPISchemaToZod (S depth) schema
  = if negb (truthy schema) || negb (typeof_object schema) then Returned ZAny
    else
      let ty := get_opt schema "type" in
      if is_str ty "string" then Returned ZString
      else if is_str ty "number" then Returned ZNumber
      else if is_str ty "integer" then Returned ZInt
      else if is_str ty "boolean" then Returned ZBoolean
      else if is_str ty "array" then
        bind (openAPISchemaToZod depth (Some (js_or (get_opt schema "items") (JObj []))))
          (fun element => Returned (ZArray element))
      else if is_str ty "object" then
        bind (newSet (js_or (get_opt schema "required") (JArr [])))
          (fun required =>
             bind (buildShape (fun value => openAPISchemaToZod depth (Some value)) required
                     (Object_entries (js_or (get_opt schema "properties") (JObj []))) [])
               (fun shape =>
                  match get_opt schema "additionalProperties" with
                  | Some (JBool false) => Returned (ZObject shape Strict None)
                  | Some (JBool true) | None => Returned (ZObject shape Loose None)
                  | Some additional =>
                      if typeof_object (Some additional) then
                        bind (openAPISchemaToZod depth (Some additional))
                          (fun extra => Returned (ZObject shape Strip (Some extra)))
                      else Returned (ZObject shape Strip None)
                  end))
      else Returned ZAny.
Proof. reflexivity. Qed.

Lemma field_height (fields : list (string * Json)) (k : string) (c : Json) :
  In (k, c) fields ->
  (height c < height (JObj fields))%nat
  /\ (forallb (fun kv => requiredIterable (snd kv)) fields = true ->
      requiredIterable c = true).
Proof.
  induction fields as [|[k' c'] rest IH]; [contradiction|].
  intros [[= -> ->] | Hin]; simpl in *.
  - split; [lia|]. intros H. apply andb_true_iff in H as [H _]. exact H.
  - destruct (IH Hin) as [Hh Hw]. split; [lia|].
    intros H. apply andb_true_iff in H as [_ H]. exact (Hw H).
Qed.

Lemma assoc_In {A : Type} (k : string) (fields : list (string * A)) (c : A) :
  assoc k fields = Some c -> In (k, c) fields.
Proof.
  induction fields as [|[k' c'] rest IH]; simpl; [discriminate|].
  destruct (String.eqb k' k) eqn:E.
  - apply String.eqb_eq in E. intros [= ->]. left. congruence.
  - intros H. right. exact (IH H).
Qed.

Lemma element_height (items : list Json) (x : Json) :
  In x items ->
  (height x < height (JArr items))%nat
  /\ (requiredIterable (JArr items) = true -> requiredIterable x = true).
Proof.
  induction items as [|y rest IH]; [contradiction|].
  intros [-> | Hin]; simpl in *.
  - split; [lia|]. intros H. apply andb_true_iff in H as [H _]. exact H.
  - destruct (IH Hin) as [Hh Hw]. split; [lia|].
    intros H. apply andb_true_iff in H as [_ H]. exact (Hw H).
Qed.

Lemma imap_snd_In {A : Type} (f : nat -> string) (g : A -> Json) (l : list A)
    (k : string) (x : Json) (start : nat) :
  In (k, x) (imap (fun i a => (f (start + i)%nat, g a)) l) -> exists a, In a l /\ x = g a.
Proof.
  revert start. induction l as [|a rest IH]; intros start; simpl; [contradiction|].
  intros [[= _ <-] | Hin]; [exists a; auto|].
  assert (In (k, x) (imap (fun i a => (f (S start + i)%nat, g a)) rest)) as Hin'.
  { erewrite imap_ext; [exact Hin|]. intros i a' _. simpl.
    replace (start + S i)%nat with (S (start + i)) by lia. reflexivity. }
  destruct (IH (S start) Hin') as (a' & Ha & ->). exists a'. auto.
Qed.

(** The values [Object.entries] yields sit strictly inside the value. *)
Lemma entry_height (p : Json) (k : string) (x : Json) :
  In (k, x) (Object_entries p) ->
  (height x <= Nat.pred (height p))%nat
  /\ (requiredIterable p = true -> requiredIterable x = true).
Proof.
  destruct p as [| | |s|items|fields]; simpl; try contradiction.
  - intros Hin.
    apply (imap_snd_In (fun i => pretty (Z.of_nat i))
             (fun c => JStr (String c EmptyString)) _ k x 0) in Hin as (c & _ & ->).
    split; [simpl; lia | reflexivity].
  - intros Hin.
    apply (imap_snd_In (fun i => pretty (Z.of_nat i)) (fun a => a) _ k x 0)
      in Hin as (a & Ha & ->).
    destruct (element_height items a Ha) as [Hh Hw]. simpl in Hh. split; [lia | exact Hw].
  - intros Hin. destruct (field_height fields k x Hin) as [Hh Hw]. simpl in Hh.
    split; [lia|]. intros H. apply andb_true_iff in H as [_ H]. exact (Hw H).
Qed.

Lemma buildShape_returns (convert : Json -> Completion ZodType) (required : list Json)
    (entries : Obj) (shape : list (string * ZodType)) :
  (forall k x, In (k, x) entries -> exists z, convert x = Returned z) ->
  exists shape', buildShape convert required entries shape = Returned shape'.
Proof.
  revert shape. induction entries as [|[k x] rest IH]; intros shape Hall; simpl.
  - eauto.
  - destruct (Hall k x (or_introl eq_refl)) as [z ->]. simpl.
    apply IH. intros k' x' Hin. apply (Hall k' x'). right. exact Hin.
Qed.

Lemma newSet_returns (v : option Json) :
  iterableOrFalsy v = true -> exists elements, newSet (js_or v (JArr [])) = Returned elements.
Proof.
  destruct v as [[|b|n|s|items|fields]|]; simpl; intros H.
  - eauto.
  - apply negb_true_iff in H. rewrite H. simpl. eauto.
  - apply negb_true_iff in H. rewrite H. simpl. eauto.
  - destruct (String.eqb s EmptyString); simpl; eauto.
  - eauto.
  - discriminate.
  - eauto.
Qed.

(** On a fragment whose [required] entries are all iterable or falsy the
    synthesizer returns a validator as soon as the stack allows two frames
    more than the fragment is deep. *)
Lemma openAPISchemaToZod_returns (depth : nat) (v : Json) :
  (height v + 2 <= depth)%nat -> requiredIterable v = true ->
  exists z, openAPISchemaToZod depth (Some v) = Returned z.
Proof.
  revert v. induction depth as [|depth IH]; intros v Hdepth Hreq; [lia|].
  rewrite openAPISchemaToZod_step.
  destruct (negb (truthy (Some v)) || negb (typeof_object (Some v))) eqn:Hobj; [eauto|].
  destruct v as [| | | |items|fields];
    try (simpl in Hobj; rewrite ?orb_true_r in Hobj; discriminate Hobj).
  { cbn [get_opt get]. simpl. eauto. }
  cbn [get_opt get]. cbv zeta.
  destruct (is_str (assoc "type" fields) "string"); [eauto|].
  destruct (is_str (assoc "type" fields) "number"); [eauto|].
  destruct (is_str (assoc "type" fields) "integer"); [eauto|].
  destruct (is_str (assoc "type" fields) "boolean"); [eauto|].
  assert (forall k c, In (k, c) fields ->
            exists z, openAPISchemaToZod depth (Some c) = Returned z) as Hchild.
  { intros k c Hin. destruct (field_height fields k c Hin) as [Hh Hw].
    simpl in Hreq. apply andb_true_iff in Hreq as [_ Hreq].
    apply IH; [lia | exact (Hw Hreq)]. }
  assert (exists z, openAPISchemaToZod depth (Some (JObj [])) = Returned z) as Hempty.
  { destruct depth as [|d]; [simpl in Hdepth; lia|]. exists ZAny. reflexivity. }
  destruct (is_str (assoc "type" fields) "array").
  { assert (exists z, openAPISchemaToZod depth
                        (Some (js_or (assoc "items" fields) (JObj []))) = Returned z)
      as [z ->].
    { unfold js_or. destruct (assoc "items" fields) as [c|] eqn:Hitems; [|exact Hempty].
      destruct (truthy_val c); [|exact Hempty].
      apply (Hchild "items" c). apply assoc_In. exact Hitems. }
    simpl. eauto. }
  destruct (is_str (assoc "type" fields) "object"); [|eauto].
  assert (iterableOrFalsy (assoc "required" fields) = true) as Hset.
  { simpl in Hreq. apply andb_true_iff in Hreq as [Hreq _]. exact Hreq. }
  destruct (newSet_returns _ Hset) as [elements ->]. simpl.
  assert (exists shape,
            buildShape (fun value => openAPISchemaToZod depth (Some value)) elements
              (Object_entries (js_or (assoc "properties" fields) (JObj []))) []
            = Returned shape) as [shape ->].
  { apply buildShape_returns. intros k x Hin.
    unfold js_or in Hin.
    destruct (assoc "properties" fields) as [p|] eqn:Hprops; [|contradiction].
    destruct (truthy_val p); [|contradiction].
    destruct (field_height fields "properties" p (assoc_In _ _ _ Hprops)) as [Hp Hwp].
    simpl in Hreq. apply andb_true_iff in Hreq as [_ Hreq].
    destruct (entry_height p k x Hin) as [Hx Hwx].
    apply IH; [lia | exact (Hwx (Hwp Hreq))]. }
  simpl.
  destruct (assoc "additionalProperties" fields) as [additional|] eqn:Hadd; [|eauto].
  destruct (Hchild "additionalProperties" additional (assoc_In _ _ _ Hadd)) as [extra Hextra].
  destruct additional as [|[|]| | | |]; simpl; try rewrite Hextra; simpl; eauto.
Qed.

(** C8 fails on the code.  On an object schema whose [required] is neither
    absent, falsy, an array nor a string, building the set of required names
    throws, at every stack depth: the synthesizer returns no validator, and
    neither does the construction of the validator of a tool with such a
    parameter. *)
Theorem openAPISchemaToZod_required_not_iterable (depth : nat) :
  openAPISchemaToZod (S depth) (Some requiredTrueSchema)
  = Threw "TypeError: value is not iterable"
  /\ (forall z, openAPISchemaToZod depth (Some requiredTrueSchema) <> Returned z)
  /\ (forall z, buildZodSchema depth (addCarTool None [filterParam]) <> Returned z).
Proof.
  split; [reflexivity|]. split.
  - intros z. destruct depth; discriminate.
  - intros z. destruct depth; discriminate.
Qed.

End SchemaSynthesis.


Lemma isLargeBatchConfirmed_spec_witness :
  fst (Tools.isLargeBatchConfirmed laterWorld true (uuid sampleWorld) "cars_addCar" 201
         pendingState) = true
  /\ largeBatchConfirmations
       (snd (Tools.isLargeBatchConfirmed laterWorld true (uuid sampleWorld) "cars_addCar" 201
               pendingState)) !! uuid sampleWorld = None.
Proof.
  pose proof (isLargeBatchConfirmed_spec samplePlatform laterWorld true (uuid sampleWorld)
                "cars_addCar" 201 pendingState) as [Hiff Hdel].
  assert (fst (Tools.isLargeBatchConfirmed laterWorld true (uuid sampleWorld) "cars_addCar"
                 201 pendingState) = true) as Hacc.
  { apply Hiff. split; [reflexivity|]. split; [discriminate|].
    exists pendingToken. repeat split. }
  split; [exact Hacc|]. apply (Hdel Hacc).
Defined.

Lemma hot_reload_frame_witness :
  toolHeap (Server.refreshEnvConfigIfChanged samplePlatform sampleWorld false sampleState)
    1%nat = listPetsTool
  /\ exists file parsed newBaseUrl,
       In (file, parsed) (parsedSpecs sampleState)
       /\ Parser.resolveServerUrl (apiName parsed) (env sampleWorld) = Some newBaseUrl
       /\ baseUrl (toolHeap (Server.refreshEnvConfigIfChanged samplePlatform sampleWorld
                               false sampleState) 0%nat)
          = Server.resolveToolBaseUrl samplePlatform parsed newBaseUrl.
Proof.
  pose proof (hot_reload_frame samplePlatform sampleWorld false sampleState)
    as (_ & _ & _ & Hkeep & Hpush).
  split.
  - apply (Hkeep 1%nat). intros api [(file & parsed & Hin & Hapi & Hown) | Hentry].
    + destruct Hin as [[= <- <-] | [[= <- <-] | []]]; simpl in *.
      * destruct Hown as [[=] | []].
      * subst api. vm_compute. reflexivity.
    + destruct Hentry as (key & entry & Hkey & Hapi & Htool).
      unfold sampleState in Hkey. simpl in Hkey.
      apply lookup_insert_Some in Hkey as [[_ <-] | [_ Hkey]].
      * subst api. vm_compute. reflexivity.
      * apply lookup_singleton_Some in Hkey as [_ <-]. simpl in Htool. discriminate.
  - apply (Hpush ltac:(right; vm_compute; reflexivity) "/specs/cars.json" carsSpec
             "https://cars.example" 0%nat).
    + left. reflexivity.
    + vm_compute. reflexivity.
    + left. exists "/specs/cars.json", carsSpec. simpl. auto.
Defined.

Example hot_reload_example :
  baseUrl (toolHeap (Server.refreshEnvConfigIfChanged samplePlatform sampleWorld false
                       sampleState) 0%nat) = "https://cars.example"
  /\ Auth.loadAuthConfig (env sampleWorld) = ∅.
Proof. split; vm_compute; reflexivity. Qed.

(** * Further properties *)

(** ** Strings, continued *)

Lemma app_cons (x : ascii) (a b : string) : String x a +:+ b = String x (a +:+ b).
Proof. reflexivity. Qed.

Lemma app_nil (b : string) : EmptyString +:+ b = b.
Proof. reflexivity. Qed.

Ltac app_norm := rewrite ?app_cons, ?app_nil in *; simpl.

Lemma string_app_assoc (a b c : string) : (a +:+ b) +:+ c = a +:+ (b +:+ c).
Proof. induction a as [|x a IH]; app_norm; [reflexivity|]. f_equal. exact IH. Qed.

Lemma string_app_nil_r (a : string) : a +:+ EmptyString = a.
Proof. induction a as [|x a IH]; app_norm; [reflexivity|]. f_equal. exact IH. Qed.

Lemma string_length_app (a b : string) :
  String.length (a +:+ b) = (String.length a + String.length b)%nat.
Proof. induction a as [|x a IH]; app_norm; [reflexivity|]. f_equal. exact IH. Qed.

Lemma drop_string_app (a b : string) : drop_string (String.length a) (a +:+ b) = b.
Proof. induction a as [|x a IH]; app_norm; [reflexivity|exact IH]. Qed.

Lemma take_string_app (a b : string) : take_string (String.length a) (a +:+ b) = a.
Proof.
  induction a as [|x a IH]; app_norm.
  - destruct b; reflexivity.
  - f_equal. exact IH.
Qed.

Lemma drop_string_app_l (n : nat) (a b : string) :
  (n <= String.length a)%nat -> drop_string n (a +:+ b) = drop_string n a +:+ b.
Proof.
  revert a. induction n as [|n IH]; intros a Hn; [reflexivity|].
  destruct a as [|x a]; simpl in Hn; app_norm; [lia|]. apply IH. lia.
Qed.

Lemma endsWith_app (a b : string) : endsWith (a +:+ b) b = true.
Proof.
  unfold endsWith. rewrite string_length_app.
  replace (String.length a + String.length b - String.length b)%nat
    with (String.length a) by lia.
  rewrite drop_string_app, String.eqb_refl.
  apply andb_true_iff. split; [apply Nat.leb_le; lia|reflexivity].
Qed.

(** Whether [a +:+ b] ends with a suffix no longer than [b] only depends
    on [b]. *)
Lemma endsWith_app_r (a b suf : string) :
  (String.length suf <= String.length b)%nat ->
  endsWith (a +:+ b) suf = endsWith b suf.
Proof.
  intros Hlen. unfold endsWith. rewrite string_length_app.
  replace (String.length a + String.length b - String.length suf)%nat
    with (String.length a + (String.length b - String.length suf))%nat by lia.
  assert (Hdrop : forall n, drop_string (String.length a + n) (a +:+ b) = drop_string n b).
  { intros n. induction a as [|x a IH]; app_norm; [reflexivity|exact IH]. }
  rewrite Hdrop.
  replace (String.length suf <=? String.length a + String.length b)%nat with true
    by (symmetry; apply Nat.leb_le; lia).
  replace (String.length suf <=? String.length b)%nat with true
    by (symmetry; apply Nat.leb_le; lia).
  reflexivity.
Qed.

Lemma forall_string_app (p : ascii -> bool) (a b : string) :
  forall_string p (a +:+ b) = forall_string p a && forall_string p b.
Proof.
  induction a as [|x a IH]; app_norm; [reflexivity|].
  rewrite IH. apply andb_assoc.
Qed.

Lemma forall_string_impl (p q : ascii -> bool) (s : string) :
  (forall c, p c = true -> q c = true) ->
  forall_string p s = true -> forall_string q s = true.
Proof.
  intros Hpq. induction s as [|c s IH]; simpl; [reflexivity|].
  intros H. apply andb_true_iff in H as [Hc Hs].
  apply andb_true_iff. split; [apply Hpq, Hc|apply IH, Hs].
Qed.

Lemma forall_string_map (p : ascii -> bool) (f : ascii -> ascii) (s : string) :
  forall_string p (map_string f s) = forall_string (fun c => p (f c)) s.
Proof. induction s as [|c s IH]; simpl; [reflexivity|]. rewrite IH. reflexivity. Qed.

Lemma map_string_length (f : ascii -> ascii) (s : string) :
  String.length (map_string f s) = String.length s.
Proof. induction s as [|c s IH]; simpl; [reflexivity|]. f_equal. exact IH. Qed.

Lemma map_string_nonempty (f : ascii -> ascii) (s : string) :
  nonempty (map_string f s) = nonempty s.
Proof. destruct s; reflexivity. Qed.

Lemma lower_upper_char (c : ascii) : is_upper c = false -> lower_char (upper_char c) = c.
Proof.
  destruct c as [[] [] [] [] [] [] [] []]; vm_compute; intros H;
    first [reflexivity | discriminate H].
Qed.

Lemma toLowerCase_toUpperCase (s : string) :
  forall_string (fun c => negb (is_upper c)) s = true -> toLowerCase (toUpperCase s) = s.
Proof.
  unfold toLowerCase, toUpperCase.
  induction s as [|c s IH]; simpl; [reflexivity|].
  intros H. apply andb_true_iff in H as [Hc Hs].
  rewrite lower_upper_char by (apply negb_true_iff, Hc).
  f_equal. apply IH, Hs.
Qed.

Lemma includes_cons (c : ascii) (s sub : string) :
  includes (String c s) sub = String.prefix sub (String c s) || includes s sub.
Proof. reflexivity. Qed.

Lemma includes_app_r (pre t sub : string) :
  includes t sub = true -> includes (pre +:+ t) sub = true.
Proof.
  intros H. induction pre as [|c pre IH]; [exact H|].
  rewrite app_cons, includes_cons, IH. apply orb_true_r.
Qed.

Lemma prefix_app (sub a t : string) :
  String.prefix sub a = true -> String.prefix sub (a +:+ t) = true.
Proof.
  revert a. induction sub as [|c sub IH]; intros a H;
    [destruct (a +:+ t); reflexivity|].
  destruct a as [|x a]; simpl in H; app_norm; [discriminate|].
  destruct (ascii_dec c x); [apply IH, H|discriminate].
Qed.

Lemma includes_app_l (a t sub : string) :
  includes a sub = true -> includes (a +:+ t) sub = true.
Proof.
  induction a as [|c a IH].
  - simpl. rewrite orb_false_r. intros H. destruct sub; [|discriminate H].
    destruct t; reflexivity.
  - intros H. rewrite includes_cons in H. apply orb_true_iff in H as [H|H].
    + rewrite app_cons, includes_cons. apply orb_true_iff. left. rewrite <- app_cons.
      exact (prefix_app sub (String c a) t H).
    + rewrite app_cons, includes_cons. apply orb_true_iff. right. apply IH, H.
Qed.

Lemma stripStart_suffix (p : ascii -> bool) (s : string) :
  exists pre, s = pre +:+ stripStart p s.
Proof.
  induction s as [|c s [pre IH]]; simpl.
  - exists EmptyString. reflexivity.
  - destruct (p c).
    + exists (String c pre). rewrite app_cons. f_equal. exact IH.
    + exists EmptyString. reflexivity.
Qed.

Lemma stripStart_head (p : ascii -> bool) (s : string) (c : ascii) (rest : string) :
  stripStart p s = String c rest -> p c = false.
Proof.
  induction s as [|x s IH]; simpl; [discriminate|].
  destruct (p x) eqn:Hx; [exact IH|].
  intros H. injection H as -> _. exact Hx.
Qed.

Lemma stripEnd_prefix (p : ascii -> bool) (s : string) :
  exists suf, s = stripEnd p s +:+ suf.
Proof.
  induction s as [|c s [suf IH]]; simpl.
  - exists EmptyString. reflexivity.
  - destruct (stripEnd p s) as [|k kept] eqn:Hk.
    + destruct (p c).
      * exists (String c s). reflexivity.
      * exists s. reflexivity.
    + exists suf. rewrite app_cons. f_equal. exact IH.
Qed.

Lemma stripEnd_head (p : ascii -> bool) (s : string) (c : ascii) (rest : string) :
  stripEnd p s = String c rest -> exists rest', s = String c rest'.
Proof.
  destruct s as [|x s]; simpl; [discriminate|].
  destruct (stripEnd p s) as [|k kept].
  - destruct (p x); [discriminate|]. intros H. injection H as -> _. eauto.
  - intros H. injection H as -> _. eauto.
Qed.

Lemma prefix_nil (s : string) : String.prefix EmptyString s = true.
Proof. destruct s; reflexivity. Qed.

Lemma prefix_cons (c x : ascii) (sub s : string) :
  String.prefix (String c sub) (String x s) = Ascii.eqb c x && String.prefix sub s.
Proof.
  simpl. destruct (ascii_dec c x) as [->|Hne].
  - rewrite Ascii.eqb_refl. reflexivity.
  - apply Ascii.eqb_neq in Hne. rewrite Hne. reflexivity.
Qed.

Lemma endsWith_cons (x k c : ascii) (r : string) :
  endsWith (String x (String k r)) (String c EmptyString)
  = endsWith (String k r) (String c EmptyString).
Proof. unfold endsWith. simpl. rewrite Nat.sub_0_r. reflexivity. Qed.

(** What [stripEnd] returns does not end with a character it strips. *)
Lemma stripEnd_last (p : ascii -> bool) (s : string) (c : ascii) :
  endsWith (stripEnd p s) (String c EmptyString) = true -> p c = false.
Proof.
  induction s as [|x s IH]; simpl; [discriminate|].
  destruct (stripEnd p s) as [|k kept] eqn:Hk.
  - destruct (p x) eqn:Hx; [discriminate|].
    unfold endsWith. simpl. intros H.
    destruct (Ascii.eqb x c) eqn:Hxc; [|discriminate H].
    apply Ascii.eqb_eq in Hxc. subst c. exact Hx.
  - rewrite endsWith_cons. exact IH.
Qed.

(** ** API names *)

Section ApiNames.
Import Auth.

Lemma slugChar_not_underscore (c : ascii) :
  is_lower c || is_digit c = true -> Ascii.eqb "_" c = false.
Proof.
  destruct (Ascii.eqb "_" c) eqn:Hc; [|reflexivity].
  apply Ascii.eqb_eq in Hc. subst c. vm_compute. intros H. discriminate H.
Qed.

Lemma collapseRuns_chars (inRun : bool) (s : string) :
  forall_string slugChar (collapseRuns inRun s) = true.
Proof.
  revert inRun. induction s as [|c s IH]; intros inRun; simpl; [reflexivity|].
  destruct (is_lower c || is_digit c) eqn:Hc.
  - simpl. unfold slugChar at 1. rewrite Hc. simpl. apply IH.
  - destruct inRun; [apply IH|]. simpl. apply IH.
Qed.

Lemma collapseRuns_single (s : string) (inRun : bool) :
  includes (collapseRuns inRun s) "__" = false
  /\ (inRun = true -> startsWith (collapseRuns inRun s) "_" = false).
Proof.
  revert inRun. induction s as [|c s IH]; intros inRun.
  - split; reflexivity.
  - cbn [collapseRuns]. destruct (is_lower c || is_digit c) eqn:Hc.
    + destruct (IH false) as [Hinc _]. unfold startsWith.
      rewrite includes_cons, !prefix_cons, Hinc, (slugChar_not_underscore c Hc).
      split; reflexivity.
    + destruct inRun; [exact (IH true)|].
      destruct (IH true) as [Hinc Hstart]. specialize (Hstart eq_refl).
      unfold startsWith in Hstart.
      rewrite includes_cons, prefix_cons, Hstart, Hinc. split; [reflexivity|discriminate].
Qed.

(** What [stripEnd (stripStart s)] keeps of a string that is made of slug
    characters and has no doubled underscore is a slug. *)
Lemma strip_slug (s : string) :
  forall_string slugChar s = true -> includes s "__" = false ->
  isSlug (stripEnd is_underscore (stripStart is_underscore s)) = true.
Proof.
  intros Hchars Hinc.
  destruct (stripStart_suffix is_underscore s) as [pre Hpre].
  destruct (stripEnd_prefix is_underscore (stripStart is_underscore s)) as [suf Hsuf].
  set (s1 := stripStart is_underscore s) in *.
  set (s2 := stripEnd is_underscore s1) in *.
  unfold isSlug. repeat (apply andb_true_iff; split).
  - rewrite Hpre, forall_string_app in Hchars. apply andb_true_iff in Hchars as [_ H1].
    rewrite Hsuf, forall_string_app in H1. apply andb_true_iff in H1 as [H2 _]. exact H2.
  - apply negb_true_iff. unfold startsWith.
    destruct s2 as [|c r] eqn:H2; [reflexivity|].
    destruct (stripEnd_head _ _ _ _ H2) as [rest' H1].
    apply stripStart_head in H1. unfold is_underscore in H1.
    rewrite prefix_cons, Ascii.eqb_sym, H1. reflexivity.
  - apply negb_true_iff. destruct (endsWith s2 "_") eqn:He; [|reflexivity].
    apply stripEnd_last in He. discriminate He.
  - apply negb_true_iff. destruct (includes s2 "__") eqn:H2; [|reflexivity].
    apply (includes_app_l s2 suf) in H2. rewrite <- Hsuf in H2.
    apply (includes_app_r pre s1) in H2. rewrite <- Hpre in H2. congruence.
Qed.

(** X1. The API name derived from a file name is a slug: lower-case letters,
    digits and underscores only, no underscore at either end, and no two
    underscores in a row (the empty name included). *)
Theorem getApiNameFromFile_slug (filePath : string) :
  isSlug (getApiNameFromFile filePath) = true.
Proof.
  unfold getApiNameFromFile. apply strip_slug.
  - apply collapseRuns_chars.
  - apply collapseRuns_single.
Qed.

End ApiNames.

(** ** Credentials of a document file *)

Section FileCredentials.
Import Auth.

Lemma slugChar_upper (c : ascii) :
  slugChar c = true -> negb (is_line_terminator (upper_char c)) = true.
Proof.
  destruct c as [[] [] [] [] [] [] [] []]; vm_compute; intros H;
    first [reflexivity | discriminate H].
Qed.

Lemma slugChar_not_upper (c : ascii) : slugChar c = true -> negb (is_upper c) = true.
Proof.
  destruct c as [[] [] [] [] [] [] [] []]; vm_compute; intros H;
    first [reflexivity | discriminate H].
Qed.

Lemma matchSuffix_app (group suffix : string) :
  nonempty group = true ->
  forall_string (fun c => negb (is_line_terminator c)) group = true ->
  matchSuffix (group +:+ suffix) suffix = Some group.
Proof.
  intros Hne Hline. unfold matchSuffix. rewrite endsWith_app, string_length_app.
  replace (String.length group + String.length suffix - String.length suffix)%nat
    with (String.length group) by lia.
  rewrite take_string_app, Hne, Hline. reflexivity.
Qed.

Lemma matchSuffix_other (group suffix other : string) :
  (String.length other <= String.length suffix)%nat ->
  endsWith suffix other = false ->
  matchSuffix (group +:+ suffix) other = None.
Proof.
  intros Hlen Hends. unfold matchSuffix. rewrite endsWith_app_r by exact Hlen.
  rewrite Hends. reflexivity.
Qed.

Lemma slug_prefix (api : string) :
  isSlug api = true -> nonempty api = true ->
  nonempty (toUpperCase api) = true
  /\ forall_string (fun c => negb (is_line_terminator c)) (toUpperCase api) = true
  /\ toLowerCase (toUpperCase api) = api.
Proof.
  intros Hslug Hne. unfold isSlug in Hslug.
  apply andb_true_iff in Hslug as [Hslug _]. apply andb_true_iff in Hslug as [Hslug _].
  apply andb_true_iff in Hslug as [Hchars _].
  split; [|split].
  - unfold toUpperCase. rewrite map_string_nonempty. exact Hne.
  - unfold toUpperCase. rewrite forall_string_map.
    exact (forall_string_impl _ _ _ slugChar_upper Hchars).
  - apply toLowerCase_toUpperCase.
    exact (forall_string_impl _ _ _ slugChar_not_upper Hchars).
Qed.

Lemma classify_api_key_of (api : string) :
  isSlug api = true -> nonempty api = true ->
  classify (toUpperCase api +:+ "_API_KEY") = Some (api, apiKey, key_token).
Proof.
  intros Hslug Hne. destruct (slug_prefix api Hslug Hne) as (Hup & Hline & Hround).
  unfold classify. rewrite (matchSuffix_app _ "_API_KEY" Hup Hline).
  cbn [fmap option_fmap option_map orElse]. rewrite Hround. reflexivity.
Qed.

Lemma classify_bearer_token_of (api : string) :
  isSlug api = true -> nonempty api = true ->
  classify (toUpperCase api +:+ "_BEARER_TOKEN") = Some (api, bearer, key_token).
Proof.
  intros Hslug Hne. destruct (slug_prefix api Hslug Hne) as (Hup & Hline & Hround).
  unfold classify. rewrite (matchSuffix_app _ "_BEARER_TOKEN" Hup Hline).
  rewrite (matchSuffix_other _ "_BEARER_TOKEN" "_API_KEY")
    by (vm_compute; first [reflexivity | lia]).
  cbn [fmap option_fmap option_map orElse]. rewrite Hround. reflexivity.
Qed.

Lemma scan_classified (api key value : string) (authType : AuthType)
    (configKey : ConfigKey) (authConfig : gmap string AuthRecord) :
  classify key = Some (api, authType, configKey) ->
  nonempty api = true -> nonempty value = true ->
  scanEntry authConfig (key, Some value) !! api
  = Some (updateRecord authType configKey value (authConfig !! api)).
Proof.
  intros Hc Hapi Hv. unfold scanEntry. simpl. rewrite Hv, Hc. simpl. rewrite Hapi.
  apply lookup_insert_eq.
Qed.

Lemma load_one (api key value : string) (authType : AuthType) (configKey : ConfigKey)
    (before after : list (string * option string)) :
  forallb (fun e => negb (concerns api e)) before = true ->
  forallb (fun e => negb (concerns api e)) after = true ->
  classify key = Some (api, authType, configKey) ->
  nonempty api = true -> nonempty value = true ->
  loadAuthConfig (before ++ (key, Some value) :: after) !! api
  = Some (updateRecord authType configKey value None).
Proof.
  intros Hb Ha Hc Hapi Hv. unfold loadAuthConfig.
  rewrite fold_left_app. cbn [fold_left]. rewrite scan_frame by exact Ha.
  rewrite (scan_classified _ _ _ _ _ _ Hc Hapi Hv). rewrite scan_frame by exact Hb.
  rewrite lookup_empty. reflexivity.
Qed.

Lemma forallb_apart (api : string) (entries : list (string * option string)) :
  forallb (apart api) entries = true ->
  forallb (fun e => negb (concerns api e)) entries = true.
Proof.
  induction entries as [|e rest IH]; [reflexivity|].
  cbn [forallb]. unfold apart at 1. intros H.
  apply andb_true_iff in H as [H Hrest]. apply andb_true_iff in H as [-> _].
  exact (IH Hrest).
Qed.

(** X2. The variables documented for a document file reach the tools of that
    file: with [api] the API name derived from the file name (the key under
    which its tools look up their credentials), a non-empty value under
    [API]_BEARER_TOKEN, the placeholder SpecRun writes, gives that API
    bearer authentication with this token, and one under [API]_API_KEY gives
    it API-key authentication in the X-API-Key header, among any variables
    that concern other APIs.  The table is a plain object, so this holds for
    an API name that is not one every object inherits (a file named
    constructor.json finds the inherited member in place of a record), and
    among variables none of which is classified under such a name. *)
Theorem file_credentials_reach_api (specFile value : string)
    (before after : list (string * option string)) :
  let api := getApiNameFromFile specFile in
  nonempty api = true -> inheritedMember api = false -> nonempty value = true ->
  forallb (apart api) before = true ->
  forallb (apart api) after = true ->
  In (toUpperCase api +:+ "_BEARER_TOKEN") (missingKeys [] [specFile])
  /\ loadAuthConfig (before ++ (toUpperCase api +:+ "_BEARER_TOKEN", Some value) :: after)
     !! api = Some (bearerRecord value)
  /\ loadAuthConfig (before ++ (toUpperCase api +:+ "_API_KEY", Some value) :: after)
     !! api = Some (apiKeyRecord value).
Proof.
  intros api Hapi _ Hv Hb Ha.
  apply forallb_apart in Hb. apply forallb_apart in Ha.
  assert (Hslug : isSlug api = true)
    by (apply strip_slug; [apply collapseRuns_chars|apply collapseRuns_single]).
  split; [|split].
  - unfold missingKeys. cbn [flat_map]. fold api. rewrite Hapi. simpl.
    right. left. reflexivity.
  - rewrite (load_one api _ value bearer key_token before after Hb Ha
               (classify_bearer_token_of api Hslug Hapi) Hapi Hv).
    reflexivity.
  - rewrite (load_one api _ value apiKey key_token before after Hb Ha
               (classify_api_key_of api Hslug Hapi) Hapi Hv).
    reflexivity.
Qed.

End FileCredentials.

Lemma file_credentials_reach_api_witness :
  Auth.loadAuthConfig
    ([("HOME", Some "/root")]
     ++ ("GITHUB_API_BEARER_TOKEN", Some "ghp") :: [("CARS_API_KEY", Some "abc")])
  !! "github_api" = Some (bearerRecord "ghp").
Proof.
  refine (proj1 (proj2 (file_credentials_reach_api "specs/GitHub-API.openapi.yaml" "ghp"
                          [("HOME", Some "/root")] [("CARS_API_KEY", Some "abc")]
                          _ _ _ _ _)));
    vm_compute; reflexivity.
Defined.

(** ** Property lists *)

Lemma assoc_set_field_eq {A : Type} (key : string) (v : A) (fields : list (string * A)) :
  assoc key (set_field key v fields) = Some v.
Proof.
  unfold set_field. destruct (bool_decide (is_Some (assoc key fields))) eqn:Hd.
  - apply bool_decide_eq_true in Hd. induction fields as [|[k x] rest IH]; simpl in *.
    + destruct Hd as [? Hd]. discriminate Hd.
    + destruct (String.eqb k key) eqn:Hk; simpl; rewrite Hk; [reflexivity|].
      apply IH, Hd.
  - apply bool_decide_eq_false in Hd.
    assert (Hnone : assoc key fields = None).
    { destruct (assoc key fields) eqn:Ha; [|reflexivity]. exfalso. apply Hd. eauto. }
    clear Hd. induction fields as [|[k x] rest IH]; simpl in *.
    + rewrite String.eqb_refl. reflexivity.
    + destruct (String.eqb k key); [discriminate Hnone|]. apply IH, Hnone.
Qed.

Lemma assoc_set_field_ne {A : Type} (key other : string) (v : A)
    (fields : list (string * A)) :
  other <> key -> assoc other (set_field key v fields) = assoc other fields.
Proof.
  intros Hne. apply String.eqb_neq in Hne.
  unfold set_field. destruct (bool_decide (is_Some (assoc key fields))).
  - induction fields as [|[k x] rest IH]; simpl; [reflexivity|].
    destruct (String.eqb k key) eqn:Hk; simpl.
    + apply String.eqb_eq in Hk. subst k. rewrite String.eqb_sym, Hne. exact IH.
    + rewrite IH. reflexivity.
  - induction fields as [|[k x] rest IH]; simpl.
    + rewrite String.eqb_sym, Hne. reflexivity.
    + rewrite IH. reflexivity.
Qed.

(** ** Credentials: what every loaded record satisfies *)

Section LoadedRecords.
Import Auth.

Lemma lower_char_idem (c : ascii) : lower_char (lower_char c) = lower_char c.
Proof. destruct c as [[] [] [] [] [] [] [] []]; reflexivity. Qed.

Lemma toLowerCase_idem (s : string) : toLowerCase (toLowerCase s) = toLowerCase s.
Proof.
  unfold toLowerCase. induction s as [|c s IH]; simpl; [reflexivity|].
  rewrite lower_char_idem, IH. reflexivity.
Qed.

(** The four classifications, each of a lower-cased name. *)
Lemma classify_kinds (key api : string) (authType : AuthType) (configKey : ConfigKey) :
  classify key = Some (api, authType, configKey) ->
  toLowerCase api = api
  /\ ((authType, configKey) = (apiKey, key_token)
      \/ (authType, configKey) = (bearer, key_token)
      \/ (authType, configKey) = (basic, key_username)
      \/ (authType, configKey) = (basic, key_password)).
Proof.
  unfold classify.
  destruct (matchSuffix key "_API_KEY") as [g1|]; cbn [fmap option_fmap option_map orElse].
  { intros H. injection H as <- <- <-. split; [apply toLowerCase_idem|auto]. }
  destruct (matchSuffix key "_BEARER_TOKEN") as [g2|];
    cbn [fmap option_fmap option_map orElse].
  { intros H. injection H as <- <- <-. split; [apply toLowerCase_idem|auto]. }
  destruct (negb (includes key "BEARER"));
    destruct (matchSuffix key "_TOKEN") as [g3|];
    cbn [fmap option_fmap option_map orElse];
    try (intros H; injection H as <- <- <-; split; [apply toLowerCase_idem|auto]; fail);
    (destruct (matchSuffix key "_USERNAME") as [g4|];
     cbn [fmap option_fmap option_map orElse];
     [intros H; injection H as <- <- <-; split; [apply toLowerCase_idem|auto 6]|]);
    (destruct (matchSuffix key "_PASSWORD") as [g5|];
     cbn [fmap option_fmap option_map orElse];
     [intros H; injection H as <- <- <-; split; [apply toLowerCase_idem|auto 6]
     |discriminate]).
Qed.

Lemma updateRecord_wellFormed (authType : AuthType) (configKey : ConfigKey)
    (value : string) (existing : option AuthRecord) :
  nonempty value = true ->
  (authType, configKey) = (apiKey, key_token)
  \/ (authType, configKey) = (bearer, key_token)
  \/ (authType, configKey) = (basic, key_username)
  \/ (authType, configKey) = (basic, key_password) ->
  match existing with
  | Some r => wellFormed r = true
  | None => True
  end ->
  wellFormed (updateRecord authType configKey value existing) = true.
Proof.
  intros Hv Hkind Hex.
  destruct existing as [[ty tok user pass header]|].
  - unfold wellFormed in Hex. simpl in Hex.
    destruct Hkind as [H|[H|[H|H]]]; injection H as -> ->;
      destruct ty, header as [h|]; unfold wellFormed, updateRecord; simpl in *;
      rewrite ?Hv; simpl;
      try (destruct (nonempty h) eqn:Hh; simpl; rewrite ?Hv, ?Hh; simpl);
      try (apply andb_true_iff in Hex as [Hex1 Hex2]; rewrite ?Hex1, ?Hex2);
      rewrite ?andb_true_r, ?orb_true_r; try reflexivity; try assumption;
      try (apply String.eqb_eq in Hex1; subst h; discriminate Hh);
      try (apply andb_true_iff in Hex2 as [Hex2 Hex3]; rewrite ?Hex2, ?Hex3);
      try reflexivity; try discriminate.
  - destruct Hkind as [H|[H|[H|H]]]; injection H as -> ->;
      unfold wellFormed, updateRecord; simpl; rewrite Hv; reflexivity.
Qed.

Lemma scanEntry_recordsOk (authConfig : gmap string AuthRecord)
    (entry : string * option string) :
  recordsOk authConfig -> recordsOk (scanEntry authConfig entry).
Proof.
  intros Hok. destruct entry as [key value]. unfold scanEntry.
  destruct (negb (str_truthy value)) eqn:Hv; [exact Hok|].
  destruct value as [v|]; [|exact Hok].
  destruct (classify key) as [[[apiName authType] configKey]|] eqn:Hc; [|exact Hok].
  destruct (nonempty apiName) eqn:Hne; [|exact Hok].
  apply negb_false_iff in Hv. simpl in Hv.
  destruct (classify_kinds _ _ _ _ Hc) as [Hlow Hkind].
  intros api r Hlook. apply lookup_insert_Some in Hlook as [[<- <-]|[_ Hlook]].
  - split; [exact Hne|]. split; [exact Hlow|].
    apply updateRecord_wellFormed; [exact Hv|exact Hkind|].
    destruct (authConfig !! apiName) as [r0|] eqn:H0; [|exact I].
    exact (proj2 (proj2 (Hok _ _ H0))).
  - exact (Hok _ _ Hlook).
Qed.

Lemma scan_recordsOk (entries : list (string * option string))
    (authConfig : gmap string AuthRecord) :
  recordsOk authConfig -> recordsOk (fold_left scanEntry entries authConfig).
Proof.
  revert authConfig. induction entries as [|e rest IH]; intros authConfig Hok; simpl.
  - exact Hok.
  - apply IH, scanEntry_recordsOk, Hok.
Qed.

Lemma loadAuthConfig_recordsOk (env : list (string * option string)) :
  recordsOk (loadAuthConfig env).
Proof.
  apply scan_recordsOk. intros api r H. rewrite lookup_empty in H. discriminate H.
Qed.

(** X3. Every record the environment scan produces is usable as it stands:
    its API name is non-empty and lower-case; a bearer record makes the
    executor send [Authorization: Bearer <token>] with a non-empty token; an
    API-key record makes it send the non-empty token in the X-API-Key header;
    a basic record holds a user name or a password. *)
Theorem loadAuthConfig_records_usable (env : list (string * option string))
    (api : string) (r : AuthRecord) :
  loadAuthConfig env !! api = Some r ->
  nonempty api = true /\ toLowerCase api = api
  /\ match type r with
     | bearer =>
         exists t, token r = Some t /\ nonempty t = true
           /\ forall base64 headers,
                assoc "Authorization" (applyAuthentication base64 headers (Some r))
                = Some ("Bearer " +:+ t)
     | apiKey =>
         exists t, token r = Some t /\ nonempty t = true
           /\ forall base64 headers,
                assoc "X-API-Key" (applyAuthentication base64 headers (Some r)) = Some t
     | basic => str_truthy (username r) || str_truthy (password r) = true
     end.
Proof.
  intros Hlook. destruct (loadAuthConfig_recordsOk env api r Hlook) as (Hne & Hlow & Hwf).
  split; [exact Hne|]. split; [exact Hlow|].
  unfold wellFormed in Hwf. apply andb_true_iff in Hwf as [Hheader Hkind].
  destruct r as [ty tok user pass header]. simpl in *. destruct ty.
  - destruct tok as [t|]; [|discriminate Hkind]. simpl in Hkind.
    exists t. split; [reflexivity|]. split; [exact Hkind|].
    intros base64 headers. unfold applyAuthentication. simpl. rewrite Hkind.
    apply assoc_set_field_eq.
  - apply andb_true_iff in Hkind as [Htok Hh].
    destruct tok as [t|]; [|discriminate Htok]. simpl in Htok.
    destruct header as [h|]; [|discriminate Hh]. simpl in Hh.
    apply String.eqb_eq in Hheader. subst h.
    exists t. split; [reflexivity|]. split; [exact Htok|].
    intros base64 headers. unfold applyAuthentication. simpl. rewrite Htok.
    apply assoc_set_field_eq.
  - exact Hkind.
Qed.

End LoadedRecords.

Lemma loadAuthConfig_records_usable_witness :
  exists t, Auth.token (bearerRecord "xyz") = Some t /\ nonempty t = true
    /\ forall base64 headers,
         assoc "Authorization"
           (Auth.applyAuthentication base64 headers (Some (bearerRecord "xyz")))
         = Some ("Bearer " +:+ t).
Proof.
  exact (proj2 (proj2 (loadAuthConfig_records_usable
                         [("HOME", Some "/root"); ("CARS_TOKEN", Some "xyz")] "cars"
                         (bearerRecord "xyz") ltac:(vm_compute; reflexivity)))).
Defined.

(** ** Basic authentication *)

Section BasicAuth.
Import Auth.

Lemma load_two (api key1 value1 key2 value2 : string) (type1 type2 : AuthType)
    (field1 field2 : ConfigKey) (before between after : list (string * option string)) :
  forallb (fun e => negb (concerns api e)) before = true ->
  forallb (fun e => negb (concerns api e)) between = true ->
  forallb (fun e => negb (concerns api e)) after = true ->
  classify key1 = Some (api, type1, field1) -> nonempty value1 = true ->
  classify key2 = Some (api, type2, field2) -> nonempty value2 = true ->
  nonempty api = true ->
  loadAuthConfig (before ++ (key1, Some value1) :: between ++ (key2, Some value2) :: after)
  !! api
  = Some (updateRecord type2 field2 value2
            (Some (updateRecord type1 field1 value1 None))).
Proof.
  intros Hb Hm Ha Hc1 Hv1 Hc2 Hv2 Hapi. unfold loadAuthConfig.
  rewrite fold_left_app. cbn [fold_left]. rewrite fold_left_app. cbn [fold_left].
  rewrite scan_frame by exact Ha.
  rewrite (scan_classified _ _ _ _ _ _ Hc2 Hapi Hv2). rewrite scan_frame by exact Hm.
  rewrite (scan_classified _ _ _ _ _ _ Hc1 Hapi Hv1). rewrite scan_frame by exact Hb.
  rewrite lookup_empty. reflexivity.
Qed.

(** X4. A user name and a password classified for the same API give it basic
    authentication whichever is scanned first, and the executor then sends
    [Authorization: Basic base64(user:password)].  The table is a plain
    object, so this holds for an API name that is not one every object
    inherits (for CONSTRUCTOR_USERNAME the code finds the inherited member
    and creates no record), and among variables none of which is classified
    under such a name. *)
Theorem basic_auth_either_order (api userKey passKey user pass : string)
    (before between after : list (string * option string)) :
  classify userKey = Some (api, basic, key_username) ->
  classify passKey = Some (api, basic, key_password) ->
  nonempty api = true -> inheritedMember api = false ->
  nonempty user = true -> nonempty pass = true ->
  forallb (apart api) before = true ->
  forallb (apart api) between = true ->
  forallb (apart api) after = true ->
  loadAuthConfig (before ++ (userKey, Some user) :: between ++ (passKey, Some pass) :: after)
  !! api = Some (basicRecord user pass)
  /\ loadAuthConfig (before ++ (passKey, Some pass) :: between ++ (userKey, Some user) :: after)
     !! api = Some (basicRecord user pass)
  /\ forall base64 headers,
       assoc "Authorization"
         (applyAuthentication base64 headers (loadAuthConfig
            (before ++ (userKey, Some user) :: between ++ (passKey, Some pass) :: after)
          !! api))
       = Some ("Basic " +:+ base64 (user +:+ ":" +:+ pass)).
Proof.
  intros Hu Hp Hapi _ Huser Hpass Hb Hm Ha.
  apply forallb_apart in Hb. apply forallb_apart in Hm. apply forallb_apart in Ha.
  assert (H1 : loadAuthConfig
                 (before ++ (userKey, Some user) :: between ++ (passKey, Some pass) :: after)
               !! api = Some (basicRecord user pass)).
  { rewrite (load_two api _ user _ pass _ _ _ _ before between after
               Hb Hm Ha Hu Huser Hp Hpass Hapi). reflexivity. }
  split; [exact H1|]. split.
  - rewrite (load_two api _ pass _ user _ _ _ _ before between after
               Hb Hm Ha Hp Hpass Hu Huser Hapi). reflexivity.
  - intros base64 headers. rewrite H1. unfold applyAuthentication. simpl.
    rewrite Huser, Hpass. apply assoc_set_field_eq.
Qed.

End BasicAuth.

Lemma basic_auth_either_order_witness :
  Auth.loadAuthConfig
    ([("HOME", Some "/root")] ++ ("CARS_PASSWORD", Some "secret")
       :: [("PETS_API_KEY", Some "abc")] ++ ("CARS_USERNAME", Some "ann") :: [])
  !! "cars" = Some (basicRecord "ann" "secret").
Proof.
  exact (proj1 (proj2 (basic_auth_either_order "cars" "CARS_USERNAME" "CARS_PASSWORD"
                         "ann" "secret" [("HOME", Some "/root")]
                         [("PETS_API_KEY", Some "abc")] []
                         ltac:(vm_compute; reflexivity) ltac:(vm_compute; reflexivity)
                         ltac:(reflexivity) ltac:(reflexivity)
                         ltac:(reflexivity) ltac:(reflexivity)
                         ltac:(vm_compute; reflexivity) ltac:(vm_compute; reflexivity)
                         ltac:(reflexivity)))).
Defined.

(** ** The debug log *)

Section DebugLog.
Import Auth Debug.

Lemma redactHeaders_assoc (headers : list (string * string)) (k : string) :
  assoc k (redactHeaders headers)
  = (fun v => if existsb (String.eqb (toLowerCase k)) redactKeys
              then "[redacted]" else v) <$> assoc k headers.
Proof.
  unfold redactHeaders. induction headers as [|[k0 v0] rest IH]; [reflexivity|].
  cbn [map fst]. destruct (String.eqb k0 k) eqn:Hk.
  - apply String.eqb_eq in Hk. subst k0.
    destruct (existsb (String.eqb (toLowerCase k)) redactKeys);
      cbn [assoc]; rewrite String.eqb_refl; reflexivity.
  - destruct (existsb (String.eqb (toLowerCase k0)) redactKeys);
      cbn [assoc]; rewrite Hk; exact IH.
Qed.

(** Authentication writes at most one header: [Authorization], or the header
    the record names. *)
Lemma applyAuthentication_frame (base64 : string -> string)
    (headers : list (string * string)) (r : AuthRecord) (k : string) :
  k <> "Authorization" -> headerName r <> Some k ->
  assoc k (applyAuthentication base64 headers (Some r)) = assoc k headers.
Proof.
  intros Hauth Hname. unfold applyAuthentication.
  destruct (type r).
  - destruct (token r) as [t|]; [|reflexivity].
    destruct (nonempty t); [|reflexivity]. apply assoc_set_field_ne, Hauth.
  - destruct (token r) as [t|]; [|reflexivity].
    destruct (headerName r) as [h|]; [|reflexivity].
    destruct (nonempty t && nonempty h); [|reflexivity].
    apply assoc_set_field_ne. intros ->. apply Hname. reflexivity.
  - destruct (username r) as [u|]; [|reflexivity].
    destruct (password r) as [p|]; [|reflexivity].
    destruct (nonempty u && nonempty p); [|reflexivity].
    apply assoc_set_field_ne, Hauth.
Qed.

(** X5. The debug log never shows a credential that authentication added:
    for a record loaded from the environment, every header of the redacted
    request either reads [[redacted]] or was among the headers, with the same
    value, before authentication. *)
Theorem redactHeaders_hides_credentials (env : list (string * option string))
    (api : string) (r : AuthRecord) (base64 : string -> string)
    (headers : list (string * string)) (k v : string) :
  loadAuthConfig env !! api = Some r ->
  assoc k (redactHeaders (applyAuthentication base64 headers (Some r))) = Some v ->
  v = "[redacted]" \/ assoc k headers = Some v.
Proof.
  intros Hlook. destruct (loadAuthConfig_recordsOk env api r Hlook) as (_ & _ & Hwf).
  unfold wellFormed in Hwf. apply andb_true_iff in Hwf as [Hheader _].
  rewrite redactHeaders_assoc.
  destruct (existsb (String.eqb (toLowerCase k)) redactKeys) eqn:Hred.
  - destruct (assoc k _); simpl; [|discriminate]. intros H. injection H as <-. auto.
  - assert (Hk1 : k <> "Authorization") by (intros ->; discriminate Hred).
    assert (Hk2 : headerName r <> Some k).
    { intros Hh. rewrite Hh in Hheader. apply String.eqb_eq in Hheader. subst k.
      discriminate Hred. }
    rewrite (applyAuthentication_frame base64 headers r k Hk1 Hk2).
    destruct (assoc k headers); simpl; [|discriminate]. intros H. injection H as <-. auto.
Qed.

End DebugLog.

Lemma redactHeaders_hides_credentials_witness :
  "[redacted]" = "[redacted]" \/ assoc "X-API-Key" [("Accept", "application/json")]
                                 = Some "[redacted]".
Proof.
  exact (redactHeaders_hides_credentials [("CARS_API_KEY", Some "abc")] "cars"
           (apiKeyRecord "abc") (fun s => s) [("Accept", "application/json")]
           "X-API-Key" "[redacted]"
           ltac:(vm_compute; reflexivity) ltac:(vm_compute; reflexivity)).
Defined.

(** ** Request construction *)

Section RequestConstruction.
Import Http.
Variable P : Platform.

Lemma buildQueryParameters_assoc (params : list ToolParameter) (args : Json) (acc : Obj)
    (k : string) :
  assoc k (buildQueryParameters params args acc)
  = match (if declares "query" k params then get args k else None) with
    | Some v => Some v
    | None => assoc k acc
    end.
Proof.
  revert acc. induction params as [|p rest IH]; intros acc; [reflexivity|].
  cbn [buildQueryParameters declares existsb]. fold (declares "query" k rest).
  destruct (String.eqb (name p) k) eqn:Hk.
  - apply String.eqb_eq in Hk. subst k.
    destruct (get args (name p)) as [v|] eqn:Hv.
    + destruct (String.eqb (in_ p) "query"); cbn [andb orb].
      * rewrite IH. destruct (declares "query" (name p) rest);
          [reflexivity|apply assoc_set_field_eq].
      * rewrite IH. reflexivity.
    + rewrite IH.
      repeat match goal with
             | |- context [if ?c then _ else _] => destruct c
             end; reflexivity.
  - cbn [andb orb]. destruct (get args (name p)) as [v|]; [|apply IH].
    destruct (String.eqb (in_ p) "query"); rewrite IH; [|reflexivity].
    destruct (if declares "query" k rest then get args k else None); [reflexivity|].
    apply assoc_set_field_ne. intros ->. rewrite String.eqb_refl in Hk. discriminate Hk.
Qed.

Lemma addHeaderParameters_assoc (params : list ToolParameter) (args : Json)
    (headers : list (string * string)) (k : string) :
  assoc k (addHeaderParameters params args headers)
  = match (if declares "header" k params then get args k else None) with
    | Some v => Some (js_String v)
    | None => assoc k headers
    end.
Proof.
  revert headers. induction params as [|p rest IH]; intros headers; [reflexivity|].
  cbn [addHeaderParameters declares existsb]. fold (declares "header" k rest).
  destruct (String.eqb (name p) k) eqn:Hk.
  - apply String.eqb_eq in Hk. subst k.
    destruct (get args (name p)) as [v|] eqn:Hv.
    + destruct (String.eqb (in_ p) "header"); cbn [andb orb].
      * rewrite IH. destruct (declares "header" (name p) rest);
          [reflexivity|apply assoc_set_field_eq].
      * rewrite IH. reflexivity.
    + rewrite IH.
      repeat match goal with
             | |- context [if ?c then _ else _] => destruct c
             end; reflexivity.
  - cbn [andb orb]. destruct (get args (name p)) as [v|]; [|apply IH].
    destruct (String.eqb (in_ p) "header"); rewrite IH; [|reflexivity].
    destruct (if declares "header" k rest then get args k else None); [reflexivity|].
    apply assoc_set_field_ne. intros ->. rewrite String.eqb_refl in Hk. discriminate Hk.
Qed.

(** X6. The query string of a request holds exactly the supplied arguments
    that the tool declares as query parameters, each with the value supplied:
    an argument that is not declared in the query, or not supplied, is not
    sent there.  This is for every name [k] that is not one every object
    inherits: for those the read of an argument that is not supplied answers
    the inherited member, and an assignment to [__proto__] adds no entry. *)
Theorem query_parameters_exact (tool : GeneratedTool) (auth : option Auth.AuthRecord)
    (args : Json) (config : RequestConfig) (k : string) :
  buildRequestConfig P tool auth args = Returned config ->
  inheritedMember k = false ->
  from_option (assoc k) None (cfg_params config)
  = if declares "query" k (parameters tool) then get args k else None.
Proof.
  unfold buildRequestConfig. destruct (buildUrl P tool args) as [url|message];
    [|discriminate]. cbn [bind]. intros H _. injection H as <-. cbn [cfg_params].
  pose proof (buildQueryParameters_assoc (parameters tool) args [] k) as Hq.
  destruct (buildQueryParameters (parameters tool) args []) as [|kv rest] eqn:Hb.
  - cbn [length Nat.ltb Nat.leb from_option]. simpl in Hq.
    destruct (if declares "query" k (parameters tool) then get args k else None);
      [discriminate Hq|reflexivity].
  - cbn [length Nat.ltb Nat.leb from_option]. rewrite Hq.
    destruct (if declares "query" k (parameters tool) then get args k else None);
      reflexivity.
Qed.

(** X7. A supplied argument that the tool declares as a header parameter is
    sent as that header, in its string form; it replaces a header of the same
    name that authentication wrote, the credential included.  The name is
    not [__proto__], whose assignment adds no header. *)
Theorem header_parameter_wins (tool : GeneratedTool) (auth : option Auth.AuthRecord)
    (args : Json) (config : RequestConfig) (k : string) (v : Json) :
  buildRequestConfig P tool auth args = Returned config ->
  declares "header" k (parameters tool) = true -> get args k = Some v ->
  k <> "Content-Type" -> k <> "__proto__" ->
  assoc k (cfg_headers config) = Some (js_String v).
Proof.
  unfold buildRequestConfig. destruct (buildUrl P tool args) as [url|message];
    [|discriminate]. cbn [bind]. intros H Hdecl Hv Hk _. injection H as <-.
  cbn [cfg_headers].
  match goal with
  | |- assoc k (if ?c then _ else _) = _ => destruct c
  end.
  - rewrite assoc_set_field_ne by exact Hk.
    rewrite addHeaderParameters_assoc, Hdecl, Hv. reflexivity.
  - rewrite addHeaderParameters_assoc, Hdecl, Hv. reflexivity.
Qed.

Lemma buildRequestConfig_data (tool : GeneratedTool) (auth : option Auth.AuthRecord)
    (args : Json) (config : RequestConfig) :
  buildRequestConfig P tool auth args = Returned config ->
  orNull (cfg_data config) = buildRequestBody tool args.
Proof.
  unfold buildRequestConfig. destruct (buildUrl P tool args) as [url|message];
    [|discriminate]. cbn [bind]. intros H. injection H as <-. cbn [cfg_data].
  destruct (buildRequestBody tool args); reflexivity.
Qed.

(** X8. A request carries a body exactly when [buildRequestBody] finds one,
    and a request with a body always carries a non-empty Content-Type
    header: the one a header parameter supplied, else application/json. *)
Theorem body_has_content_type (tool : GeneratedTool) (auth : option Auth.AuthRecord)
    (args : Json) (config : RequestConfig) :
  buildRequestConfig P tool auth args = Returned config ->
  orNull (cfg_data config) = buildRequestBody tool args
  /\ (cfg_data config = None <-> buildRequestBody tool args = JNull)
  /\ (cfg_data config <> None ->
      Auth.str_truthy (assoc "Content-Type" (cfg_headers config)) = true).
Proof.
  unfold buildRequestConfig. destruct (buildUrl P tool args) as [url|message];
    [|discriminate]. cbn [bind]. intros H. injection H as <-.
  cbn [cfg_data cfg_headers].
  destruct (buildRequestBody tool args) eqn:Hbody; cbn [is_null negb andb orNull];
    (split; [reflexivity|split; [split; intros H; first [reflexivity|discriminate H]|]]);
    intros Hsome; try (exfalso; apply Hsome; reflexivity);
    (match goal with
     | |- Auth.str_truthy (assoc _ (if ?c then _ else _)) = true =>
         destruct c eqn:Hc
     end;
     [rewrite assoc_set_field_eq; reflexivity
     |apply negb_false_iff in Hc; exact Hc]).
Qed.

(** X9. The result of a call reports the body that was sent: whenever the
    URL can be built, the result's request body is the one [buildRequestBody]
    computes, whatever the transport answers; when it cannot, the result has
    an empty URL, no request body and the status [Error], whatever the
    transport would have answered. *)
Theorem result_reports_request (axios : RequestConfig -> AxiosOutcome)
    (tool : GeneratedTool) (auth : option Auth.AuthRecord) (args : Json) :
  match buildUrl P tool args with
  | Returned url =>
      exists result,
        executeRequest P axios tool auth args = Returned result
        /\ result_requestBody result = buildRequestBody tool args
  | Threw message =>
      executeRequest P axios tool auth args
      = Returned {| requestUrl := EmptyString;
                    result_requestBody := JNull;
                    response_status := StatusText "Error";
                    response_body := JObj [("error", JStr message)] |}
  end.
Proof.
  destruct (buildUrl P tool args) as [url|message] eqn:Hurl.
  - destruct (buildRequestConfig P tool auth args) as [config|message] eqn:Hcfg.
    + pose proof (buildRequestConfig_data tool auth args config Hcfg) as Hbody.
      unfold executeRequest. rewrite Hcfg.
      destruct (axios config) as [response|error].
      * eexists. split; [reflexivity|]. exact Hbody.
      * eexists. split; [reflexivity|].
        destruct error; cbn [failureResult result_requestBody]; exact Hbody.
    + unfold buildRequestConfig in Hcfg. rewrite Hurl in Hcfg. discriminate Hcfg.
  - unfold executeRequest, buildRequestConfig. rewrite Hurl. reflexivity.
Qed.

End RequestConstruction.

Lemma query_parameters_exact_witness :
  from_option (assoc "verbose") None (cfg_params getCarConfig)
  = if declares "query" "verbose" (parameters getCarTool)
    then get getCarArgs "verbose" else None.
Proof.
  exact (query_parameters_exact samplePlatform getCarTool (Some (apiKeyRecord "abc"))
           getCarArgs getCarConfig "verbose" ltac:(vm_compute; reflexivity)
           ltac:(reflexivity)).
Defined.

Lemma header_parameter_wins_witness :
  assoc "X-API-Key" (cfg_headers getCarConfig) = Some (js_String (JStr "mine")).
Proof.
  exact (header_parameter_wins samplePlatform getCarTool (Some (apiKeyRecord "abc"))
           getCarArgs getCarConfig "X-API-Key" (JStr "mine")
           ltac:(vm_compute; reflexivity) ltac:(reflexivity) ltac:(reflexivity)
           ltac:(discriminate) ltac:(discriminate)).
Defined.

Lemma body_has_content_type_witness :
  Auth.str_truthy (assoc "Content-Type" (cfg_headers addCarConfig)) = true.
Proof.
  exact (proj2 (proj2 (body_has_content_type samplePlatform
                         (addCarTool (Some carBodySchema) []) (Some (bearerRecord "xyz"))
                         civic addCarConfig ltac:(vm_compute; reflexivity)))
           ltac:(discriminate)).
Defined.

(** ** Batch dispatcher: errors *)

Section BatchErrors.
Import Tools.
Variable P : Platform.

(** X10. A batch for a tool that is not registered does nothing: it sends no
    request, stores no confirmation token and leaves the registry alone,
    however many items it has, and reports the name as given and as
    normalized. *)
Theorem batch_unknown_tool (w : World) (args : Json) (st0 : State) :
  toolRegistry st0 !! normalizeToolName (argRawToolName args) = None ->
  fst (batchExecute P w args st0)
  = UnknownTool (argRawToolName args) (normalizeToolName (argRawToolName args))
  /\ issued (snd (batchExecute P w args st0)) = issued st0
  /\ largeBatchConfirmations (snd (batchExecute P w args st0))
     = largeBatchConfirmations st0
  /\ toolRegistry (snd (batchExecute P w args st0)) = toolRegistry st0.
Proof.
  intros Hnone. unfold batchExecute.
  destruct (refresh_frame P w false st0) as (Hreg & Hconf & Hissued).
  cbv zeta in Hreg, Hconf, Hissued. rewrite Hreg, Hnone. cbn [fst snd].
  auto.
Qed.

(** X11. With fail-fast on, the item loop stops at the first item that fails
    validation: the items before it are executed in order and yield results,
    the failing item yields the last outcome, an error with its index, and no
    request is issued for it or for any item after it. *)
Theorem fail_fast_stops (w : World) (entry : ToolRegistryEntry)
    (valid rest : list Json) (bad : Json) (message : string) (index : nat) (st : State) :
  allValid P entry valid = true ->
  safeParse P (entry_schema entry) bad = ParseFailure message ->
  let run := runItems P w entry true index (valid ++ bad :: rest) st in
  (exists results,
     fst run = results ++ [ItemError (index + length valid) message]
     /\ map outcomeIndex results = seq index (length valid)
     /\ forallb isResult results = true)
  /\ issued (snd run)
     = issued st ++ validCalls P (tool_name (toolHeap st (entry_tool entry))) entry valid.
Proof.
  intros Hvalid Hbad. revert index st Hvalid.
  induction valid as [|itemArgs more IH]; intros index st Hvalid.
  - cbn [app runItems]. rewrite Hbad. cbn [fst snd length validCalls].
    split; [|rewrite app_nil_r; reflexivity].
    exists []. rewrite Nat.add_0_r. repeat split.
  - cbn [app runItems validCalls]. cbn [allValid forallb] in Hvalid.
    destruct (safeParse P (entry_schema entry) itemArgs) as [data|failure] eqn:Hparse;
      [|discriminate Hvalid].
    cbn [andb] in Hvalid.
    destruct (executeRequest_returns P (axios w (length (issued st)))
                (toolHeap st (entry_tool entry))
                (authConfig st !! apiName (entry_spec entry)) data) as [output ->].
    specialize (IH (S index)
                  (recordCall (tool_name (toolHeap st (entry_tool entry))) data st) Hvalid).
    cbv zeta in IH.
    destruct (runItems P w entry true (S index) (more ++ bad :: rest) _) as [results st'].
    cbn [fst snd] in *. destruct IH as [(before & -> & Hidx & Hres) ->].
    split.
    + exists (ItemResult index output :: before). cbn [length].
      replace (index + S (length more))%nat with (S index + length more)%nat by lia.
      repeat split.
      * cbn [map outcomeIndex seq]. rewrite Hidx. reflexivity.
      * cbn [forallb isResult andb]. exact Hres.
    + cbn [recordCall issued toolHeap]. rewrite <- app_assoc. reflexivity.
Qed.

End BatchErrors.

Lemma batch_unknown_tool_witness :
  issued (snd (Tools.batchExecute samplePlatform sampleWorld
                 (JObj [("toolName", JStr "mcp_specrun_cars_dropCar");
                        ("items", JArr (repeat civic 201))])
                 sampleState))
  = issued sampleState.
Proof.
  exact (proj1 (proj2 (batch_unknown_tool samplePlatform sampleWorld
                         (JObj [("toolName", JStr "mcp_specrun_cars_dropCar");
                                ("items", JArr (repeat civic 201))])
                         sampleState ltac:(vm_compute; reflexivity)))).
Defined.

Lemma fail_fast_stops_witness :
  issued (snd (Tools.runItems samplePlatform sampleWorld carsEntry true 0
                 ([civic; civic] ++ JStr "Civic" :: [civic]) sampleState))
  = issued sampleState
    ++ validCalls samplePlatform
         (tool_name (toolHeap sampleState (entry_tool carsEntry))) carsEntry [civic; civic].
Proof.
  exact (proj2 (fail_fast_stops samplePlatform sampleWorld carsEntry [civic; civic] [civic]
                  (JStr "Civic") "Invalid input: expected object" 0 sampleState
                  ltac:(reflexivity) ltac:(reflexivity))).
Defined.

(** ** Batch dispatcher: refused tokens *)

Section RefusedTokens.
Import Tools.

(** X12. What a refused confirmation token leaves behind.  A token presented
    at or after its expiry is refused and removed, the other tokens staying.
    A token presented in time for another tool or another item count is
    refused and nothing changes: presented again before its expiry for its
    own batch, it is accepted. *)
Theorem refused_token_effects (w w' : World) (tok toolName : string) (count : nat)
    (record : Confirmation) (st : State) :
  nonempty tok = true ->
  largeBatchConfirmations st !! tok = Some record ->
  let check := isLargeBatchConfirmed w true tok toolName count st in
  (expiresAt record <= now_confirm w ->
   fst check = false
   /\ largeBatchConfirmations (snd check) !! tok = None
   /\ forall other, other <> tok ->
        largeBatchConfirmations (snd check) !! other
        = largeBatchConfirmations st !! other)
  /\ (now_confirm w < expiresAt record ->
      conf_toolName record <> toolName \/ conf_count record <> count ->
      fst check = false /\ snd check = st
      /\ (now_confirm w' < expiresAt record ->
          fst (isLargeBatchConfirmed w' true tok (conf_toolName record)
                 (conf_count record) (snd check)) = true)).
Proof.
  intros Htok Hrec check. subst check. unfold isLargeBatchConfirmed.
  rewrite Htok, Hrec. cbn [negb orb]. split.
  - intros Hexp. apply Z.leb_le in Hexp. rewrite Hexp. cbn [fst snd].
    split; [reflexivity|]. split.
    + cbn [setConfirmations largeBatchConfirmations]. apply lookup_delete_eq.
    + intros other Hother. cbn [setConfirmations largeBatchConfirmations].
      apply lookup_delete_ne. congruence.
  - intros Hlive Hmis.
    assert (Hleb : (expiresAt record <=? now_confirm w) = false) by (apply Z.leb_gt; lia).
    rewrite Hleb.
    assert (Hneq : negb (String.eqb (conf_toolName record) toolName)
                   || negb (Nat.eqb (conf_count record) count) = true).
    { destruct Hmis as [Hname|Hcount].
      - apply String.eqb_neq in Hname. rewrite Hname. reflexivity.
      - apply Nat.eqb_neq in Hcount. rewrite Hcount. apply orb_true_r. }
    rewrite Hneq. cbn [fst snd]. split; [reflexivity|]. split; [reflexivity|].
    intros Hlive'. rewrite Hrec.
    assert (Hleb' : (expiresAt record <=? now_confirm w') = false) by (apply Z.leb_gt; lia).
    rewrite Hleb', String.eqb_refl, Nat.eqb_refl. reflexivity.
Qed.

End RefusedTokens.

Lemma refused_token_effects_witness :
  fst (Tools.isLargeBatchConfirmed laterWorld true (uuid sampleWorld) "cars_addCar" 500
         pendingState) = false
  /\ snd (Tools.isLargeBatchConfirmed laterWorld true (uuid sampleWorld) "cars_addCar" 500
            pendingState) = pendingState
  /\ (now_confirm laterWorld < expiresAt pendingToken ->
      fst (Tools.isLargeBatchConfirmed laterWorld true (uuid sampleWorld)
             (conf_toolName pendingToken) (conf_count pendingToken)
             (snd (Tools.isLargeBatchConfirmed laterWorld true (uuid sampleWorld)
                     "cars_addCar" 500 pendingState))) = true).
Proof.
  refine (proj2 (refused_token_effects laterWorld laterWorld (uuid sampleWorld)
                   "cars_addCar" 500 pendingToken pendingState _ _) _ _).
  - reflexivity.
  - vm_compute. reflexivity.
  - vm_compute. reflexivity.
  - right. vm_compute. discriminate.
Defined.

(** ** Input schemas *)

Section InputSchemas.
Import Tools.

Lemma find_snoc {A : Type} (f : A -> bool) (l : list A) (x : A) :
  List.find f (l ++ [x])
  = match List.find f l with
    | Some y => Some y
    | None => if f x then Some x else None
    end.
Proof.
  induction l as [|y l IH]; simpl; [reflexivity|].
  destruct (f y); [reflexivity|exact IH].
Qed.

Lemma buildFields_assoc (depth : nat) (params : list ToolParameter)
    (acc fields : list (string * ZodType)) (k : string) :
  buildFields depth params acc = Returned fields ->
  match lastNamed k params with
  | Some p =>
      exists converted,
        openAPISchemaToZod depth (Some (schema p)) = Returned converted
        /\ assoc k fields = Some (fieldOf p converted)
  | None => assoc k fields = assoc k acc
  end.
Proof.
  revert acc. induction params as [|p rest IH]; intros acc.
  - simpl. intros H. injection H as <-. reflexivity.
  - cbn [buildFields].
    destruct (openAPISchemaToZod depth (Some (schema p))) as [converted|message] eqn:Hconv;
      [|discriminate].
    cbn [bind]. intros H. specialize (IH _ H).
    unfold lastNamed in *. cbn [rev]. rewrite find_snoc.
    destruct (List.find (fun p0 => String.eqb (name p0) k) (rev rest)) as [q|];
      [exact IH|].
    destruct (String.eqb (name p) k) eqn:Hk.
    + apply String.eqb_eq in Hk. subst k. exists converted. split; [exact Hconv|].
      rewrite IH. apply assoc_set_field_eq.
    + rewrite IH. apply assoc_set_field_ne. intros ->.
      rewrite String.eqb_refl in Hk. discriminate Hk.
Qed.

(** X13. The input schema of a tool none of whose parameters is named
    [__proto__] (the assignment of that field adds none and replaces the
    prototype of the field table), field by field.  A tool with a declared
    body accepts unknown keys and has an optional accept-anything [body]
    field; a tool without one strips unknown keys.  Every other key is a
    field exactly when a parameter is declared under that name, and the field
    is that of the last such parameter: mandatory when that parameter is
    required, optional otherwise. *)
Theorem buildZodSchema_fields (depth : nat) (tool : GeneratedTool) (z : ZodType) :
  buildZodSchema depth tool = Returned z ->
  forallb (fun p => negb (String.eqb (name p) "__proto__")) (parameters tool) = true ->
  exists shape,
    z = ZObject shape (if truthy (requestBody tool) then Loose else Strip) None
    /\ (truthy (requestBody tool) = true ->
        assoc "body" shape = Some (ZDescribe (ZOptional ZAny) "Request body data"))
    /\ forall k, truthy (requestBody tool) = false \/ k <> "body" ->
         match lastNamed k (parameters tool) with
         | Some p =>
             exists converted,
               openAPISchemaToZod depth (Some (schema p)) = Returned converted
               /\ assoc k shape = Some (fieldOf p converted)
         | None => assoc k shape = None
         end.
Proof.
  unfold buildZodSchema.
  destruct (buildFields depth (parameters tool) []) as [fields|message] eqn:Hfields;
    [|discriminate].
  cbn [bind].
  destruct (truthy (requestBody tool)) eqn:Hbody; intros H _; injection H as <-.
  - eexists. split; [reflexivity|]. split; [intros _; apply assoc_set_field_eq|].
    intros k [Hk|Hk]; [discriminate Hk|].
    pose proof (buildFields_assoc depth _ _ _ k Hfields) as Hk'.
    destruct (lastNamed k (parameters tool)) as [p|].
    + destruct Hk' as (converted & Hconv & Hassoc). exists converted.
      split; [exact Hconv|]. rewrite assoc_set_field_ne by exact Hk. exact Hassoc.
    + rewrite assoc_set_field_ne by exact Hk. exact Hk'.
  - eexists. split; [reflexivity|]. split; [discriminate|].
    intros k _. exact (buildFields_assoc depth _ _ _ k Hfields).
Qed.

Lemma buildFields_returns (depth : nat) (params : list ToolParameter)
    (acc : list (string * ZodType)) :
  (forall p, In p params ->
     (height (schema p) + 2 <= depth)%nat /\ requiredIterable (schema p) = true) ->
  exists fields, buildFields depth params acc = Returned fields.
Proof.
  revert acc. induction params as [|p rest IH]; intros acc Hok.
  - eexists. reflexivity.
  - cbn [buildFields].
    destruct (Hok p (or_introl eq_refl)) as [Hheight Hreq].
    destruct (openAPISchemaToZod_returns depth (schema p) Hheight Hreq) as [converted ->].
    cbn [bind]. apply IH. intros q Hq. apply Hok. right. exact Hq.
Qed.

Lemma buildZodSchema_returns (depth : nat) (tool : GeneratedTool) :
  schemasOk depth tool -> exists z, buildZodSchema depth tool = Returned z.
Proof.
  intros Hok. unfold buildZodSchema.
  destruct (buildFields_returns depth (parameters tool) [] Hok) as [fields ->].
  cbn [bind]. destruct (truthy (requestBody tool)); eauto.
Qed.

End InputSchemas.

Lemma buildZodSchema_fields_witness :
  exists shape,
    getCarSchema = ZObject shape (if truthy (requestBody getCarTool) then Loose else Strip) None
    /\ (truthy (requestBody getCarTool) = true ->
        assoc "body" shape = Some (ZDescribe (ZOptional ZAny) "Request body data"))
    /\ forall k, truthy (requestBody getCarTool) = false \/ k <> "body" ->
         match lastNamed k (parameters getCarTool) with
         | Some p =>
             exists converted,
               Tools.openAPISchemaToZod 5 (Some (schema p)) = Returned converted
               /\ assoc k shape = Some (fieldOf p converted)
         | None => assoc k shape = None
         end.
Proof.
  exact (buildZodSchema_fields 5 getCarTool getCarSchema ltac:(reflexivity)
           ltac:(reflexivity)).
Defined.

(** ** Registration *)

Section Registration.
Import Tools Registrar.

Lemma registerTool_returns (depth : nat) (parsed : ParsedSpec) (tool : nat) (st : State) :
  schemasOk depth (toolHeap st tool) ->
  exists z,
    buildZodSchema depth (toolHeap st tool) = Returned z
    /\ registerTool depth parsed tool st
       = Returned
           (setRegistry
              (<[tool_name (toolHeap st tool) :=
                   {| entry_spec := parsed; entry_tool := tool; entry_schema := z |}]>
                 (toolRegistry st)) st).
Proof.
  intros Hok. destruct (buildZodSchema_returns depth _ Hok) as [z Hz].
  exists z. split; [exact Hz|]. unfold registerTool. rewrite Hz. reflexivity.
Qed.

(** X14. Registering a document whose parameter schemas the synthesizer can
    convert completes, and afterwards every tool name of the document is
    registered: the entry found under the name of any of its tools belongs to
    the document and holds a tool of the document with that name and the
    schema synthesized for it (when two tools share a name, one of them);
    keys that are no tool name of the document keep the entry they had, and
    the Tool Definitions themselves are not modified. *)
Theorem registerToolsFromSpec_registers (depth : nat) (parsed : ParsedSpec) (st : State) :
  (forall a, In a (tools parsed) -> schemasOk depth (toolHeap st a)) ->
  exists st',
    registerToolsFromSpec depth parsed st = Completed st'
    /\ toolHeap st' = toolHeap st
    /\ (forall a, In a (tools parsed) ->
          exists e,
            toolRegistry st' !! tool_name (toolHeap st a) = Some e
            /\ entry_spec e = parsed
            /\ In (entry_tool e) (tools parsed)
            /\ tool_name (toolHeap st (entry_tool e)) = tool_name (toolHeap st a)
            /\ buildZodSchema depth (toolHeap st (entry_tool e))
               = Returned (entry_schema e))
    /\ (forall k, (forall a, In a (tools parsed) -> tool_name (toolHeap st a) <> k) ->
          toolRegistry st' !! k = toolRegistry st !! k).
Proof.
  unfold registerToolsFromSpec. generalize (tools parsed) as pending. intros pending.
  revert st. induction pending as [|a rest IH]; intros st Hok.
  - exists st. split; [reflexivity|]. split; [reflexivity|].
    split; [intros a []|]. reflexivity.
  - cbn [registerEach].
    destruct (registerTool_returns depth parsed a st (Hok a (or_introl eq_refl)))
      as (z & Hz & ->).
    set (st1 := setRegistry _ st).
    destruct (IH st1) as (st' & Hrun & Hheap & Hall & Hframe).
    { intros b Hb. apply Hok. right. exact Hb. }
    exists st'. split; [exact Hrun|]. split; [exact Hheap|]. split.
    + intros b Hb.
      destruct (existsb (fun c => String.eqb (tool_name (toolHeap st c))
                                    (tool_name (toolHeap st b))) rest) eqn:Hlater.
      * apply existsb_exists in Hlater as (c & Hc & Hname).
        apply String.eqb_eq in Hname.
        destruct (Hall c Hc) as (e & Hlook & Hspec & Hin & Hsame & Hschema).
        exists e. cbn [st1 setRegistry toolHeap] in *.
        rewrite <- Hname. repeat split; auto. right. exact Hin.
      * destruct Hb as [<-|Hb].
        -- exists {| entry_spec := parsed; entry_tool := a; entry_schema := z |}.
           rewrite Hframe.
           ++ cbn [st1 setRegistry toolRegistry entry_spec entry_tool entry_schema].
              rewrite lookup_insert_eq. repeat split; auto. left. reflexivity.
           ++ intros c Hc Hname. cbn [st1 setRegistry toolHeap] in Hname.
              assert (Hex : existsb (fun c0 => String.eqb (tool_name (toolHeap st c0))
                                                 (tool_name (toolHeap st a))) rest = true).
              { apply existsb_exists. exists c. split; [exact Hc|].
                apply String.eqb_eq. exact Hname. }
              congruence.
        -- assert (Hex : existsb (fun c0 => String.eqb (tool_name (toolHeap st c0))
                                              (tool_name (toolHeap st b))) rest = true).
           { apply existsb_exists. exists b. split; [exact Hb|]. apply String.eqb_refl. }
           congruence.
    + intros k Hk. rewrite Hframe.
      * cbn [st1 setRegistry toolRegistry]. apply lookup_insert_ne.
        apply Hk. left. reflexivity.
      * intros c Hc. cbn [st1 setRegistry toolHeap]. apply Hk. right. exact Hc.
Qed.

(** X15. A tool whose input schema cannot be synthesized aborts the
    registration of its document with the synthesizer's exception: the tools
    listed before it stay registered, the tool itself and those listed after
    it are not processed. *)
Theorem registration_aborts (depth : nat) (parsed : ParsedSpec) (st : State)
    (before after : list nat) (bad : nat) (message : string) :
  tools parsed = before ++ bad :: after ->
  (forall a, In a before -> schemasOk depth (toolHeap st a)) ->
  buildZodSchema depth (toolHeap st bad) = Threw message ->
  exists st',
    registerEach depth parsed before st = Completed st'
    /\ registerToolsFromSpec depth parsed st = Raised message st'.
Proof.
  intros Htools Hok Hbad. unfold registerToolsFromSpec. rewrite Htools. clear Htools.
  revert st Hok Hbad. induction before as [|a rest IH]; intros st Hok Hbad.
  - exists st. split; [reflexivity|]. cbn [app registerEach]. unfold registerTool.
    rewrite Hbad. reflexivity.
  - cbn [app registerEach].
    destruct (registerTool_returns depth parsed a st (Hok a (or_introl eq_refl)))
      as (z & Hz & ->).
    apply IH.
    + intros b Hb. apply Hok. right. exact Hb.
    + exact Hbad.
Qed.

End Registration.

Lemma registerToolsFromSpec_registers_witness :
  exists st',
    Registrar.registerToolsFromSpec 5 (carsDocument [0; 1]%nat) freshState
    = Registrar.Completed st'
    /\ toolHeap st' = toolHeap freshState
    /\ (forall a, In a (tools (carsDocument [0; 1]%nat)) ->
          exists e,
            toolRegistry st' !! tool_name (toolHeap freshState a) = Some e
            /\ entry_spec e = carsDocument [0; 1]%nat
            /\ In (entry_tool e) (tools (carsDocument [0; 1]%nat))
            /\ tool_name (toolHeap freshState (entry_tool e))
               = tool_name (toolHeap freshState a)
            /\ Tools.buildZodSchema 5 (toolHeap freshState (entry_tool e))
               = Returned (entry_schema e))
    /\ (forall k,
          (forall a, In a (tools (carsDocument [0; 1]%nat)) ->
             tool_name (toolHeap freshState a) <> k) ->
          toolRegistry st' !! k = toolRegistry freshState !! k).
Proof.
  apply (registerToolsFromSpec_registers 5 (carsDocument [0; 1]%nat) freshState).
  intros a [<-|[<-|[]]] p [<-|[<-|[<-|[]]]]; vm_compute; split; first [lia | reflexivity].
Defined.

Lemma registration_aborts_witness :
  exists st',
    Registrar.registerEach 5 (carsDocument [0; 2; 1]%nat) [0%nat] freshState
    = Registrar.Completed st'
    /\ Registrar.registerToolsFromSpec 5 (carsDocument [0; 2; 1]%nat) freshState
       = Registrar.Raised "TypeError: value is not iterable" st'.
Proof.
  apply (registration_aborts 5 (carsDocument [0; 2; 1]%nat) freshState [0%nat] [1%nat]
           2%nat "TypeError: value is not iterable").
  - reflexivity.
  - intros a [<-|[]] p [<-|[<-|[<-|[]]]]; vm_compute; split; first [lia | reflexivity].
  - reflexivity.
Defined.

(** ** Refreshing from the environment *)

Section Refresh.
Import Server.
Variable P : Platform.

Lemma option_Z_eqb_refl (a : option Z) : option_Z_eqb a a = true.
Proof. destruct a as [x|]; simpl; [apply Z.eqb_refl|reflexivity]. Qed.

(** X16. A refresh records the modification time it acted on: once any
    refresh has run, forced by the file watcher or not, the refresh that the
    next request triggers does nothing as long as the configuration file
    keeps that modification time. *)
Theorem refresh_settles (w w' : World) (force : bool) (st : State) :
  envMtimeMs w' = envMtimeMs w ->
  (force = true \/ envMtimeMs w <> lastEnvMtimeMs st) ->
  lastEnvMtimeMs (refreshEnvConfigIfChanged P w force st) = envMtimeMs w
  /\ authConfig (refreshEnvConfigIfChanged P w force st) = Auth.loadAuthConfig (env w)
  /\ refreshEnvConfigIfChanged P w' false (refreshEnvConfigIfChanged P w force st)
     = refreshEnvConfigIfChanged P w force st.
Proof.
  intros Hsame Hruns.
  assert (Hrun : negb force && option_Z_eqb (envMtimeMs w) (lastEnvMtimeMs st) = false).
  { destruct Hruns as [->|Hne]; [reflexivity|].
    apply andb_false_iff. right.
    destruct (envMtimeMs w) as [x|], (lastEnvMtimeMs st) as [y|]; simpl;
      try reflexivity; [|congruence].
    apply Z.eqb_neq. congruence. }
  unfold refreshEnvConfigIfChanged at 1 2 4. rewrite Hrun. cbn [lastEnvMtimeMs authConfig].
  split; [reflexivity|]. split; [reflexivity|].
  unfold refreshEnvConfigIfChanged at 1. cbn [lastEnvMtimeMs negb andb].
  rewrite Hsame, option_Z_eqb_refl. unfold refreshEnvConfigIfChanged. rewrite Hrun.
  reflexivity.
Qed.

(** X17. The server URL taken from the environment becomes the base URL of
    the tools verbatim when it cannot be parsed, when it already has a path,
    or when the document has no base path; a base path is only ever appended
    to a URL that parses and has no path. *)
Theorem resolveToolBaseUrl_verbatim (parsed : ParsedSpec) (newBaseUrl : string) :
  parseUrl P newBaseUrl = None
  \/ (exists url, parseUrl P newBaseUrl = Some url /\ hasPath url = true)
  \/ getOpenApiBasePath (spec parsed) = None ->
  resolveToolBaseUrl P parsed newBaseUrl = newBaseUrl.
Proof.
  intros Hcase.
  assert (Happend : appendOpenApiBasePath P newBaseUrl (spec parsed) = newBaseUrl).
  { unfold appendOpenApiBasePath.
    destruct (getOpenApiBasePath (spec parsed)) as [basePath|] eqn:Hbase; [|reflexivity].
    destruct Hcase as [->|[(url & -> & ->)|Hnone]]; [reflexivity|reflexivity|discriminate]. }
  assert (Hplain : openApiOrPlain P (spec parsed) newBaseUrl = newBaseUrl).
  { unfold openApiOrPlain. destruct (_ && _); [exact Happend|reflexivity]. }
  unfold resolveToolBaseUrl.
  destruct (truthy_val (spec parsed) && is_str (get (spec parsed) "swagger") "2.0");
    [|exact Hplain].
  destruct (parseUrl P newBaseUrl) as [url|] eqn:Hparse; [|reflexivity].
  destruct (negb (hasPath url) && typeof_string (get (spec parsed) "basePath")) eqn:Hcond;
    [|exact Hplain].
  destruct (nonempty (trim (as_string (get (spec parsed) "basePath")))) eqn:Hne;
    [|exact Hplain].
  apply andb_true_iff in Hcond as [Hpath Hstr]. apply negb_true_iff in Hpath.
  destruct Hcase as [Hnone|[(url' & Hsome & Hhas)|Hnone]].
  - discriminate Hnone.
  - injection Hsome as <-. congruence.
  - unfold getOpenApiBasePath in Hnone. rewrite Hstr, Hne in Hnone. discriminate Hnone.
Qed.

End Refresh.

Lemma refresh_settles_witness :
  Server.refreshEnvConfigIfChanged samplePlatform laterWorld false
    (Server.refreshEnvConfigIfChanged samplePlatform sampleWorld true sampleState)
  = Server.refreshEnvConfigIfChanged samplePlatform sampleWorld true sampleState.
Proof.
  exact (proj2 (proj2 (refresh_settles samplePlatform sampleWorld laterWorld true
                         sampleState ltac:(reflexivity) ltac:(left; reflexivity)))).
Defined.

Lemma resolveToolBaseUrl_verbatim_witness :
  Server.resolveToolBaseUrl samplePlatform carsSpec "https://cars.example"
  = "https://cars.example".
Proof.
  exact (resolveToolBaseUrl_verbatim samplePlatform carsSpec "https://cars.example"
           ltac:(right; right; reflexivity)).
Defined.

(** ** Server variables *)

Section ServerVariables.
Import Compiler.

Lemma replaceVariables_verbatim (callback : string -> string) (s : string)
    (inside : option string) :
  (forall varName, nonempty varName = true -> callback varName = "{" +:+ varName +:+ "}") ->
  replaceVariables callback inside s
  = match inside with
    | Some content => "{" +:+ content
    | None => EmptyString
    end +:+ s.
Proof.
  intros Hcb. revert inside. induction s as [|c s IH]; intros inside.
  - destruct inside as [content|]; cbn [replaceVariables];
      [rewrite string_app_nil_r|]; reflexivity.
  - destruct inside as [content|]; cbn [replaceVariables].
    + destruct (Ascii.eqb c "}") eqn:Hc.
      * apply Ascii.eqb_eq in Hc. subst c.
        destruct (nonempty content) eqn:Hne.
        -- rewrite IH, (Hcb content Hne), app_nil, !string_app_assoc. reflexivity.
        -- destruct content; [|discriminate Hne]. rewrite IH. reflexivity.
      * rewrite IH, !string_app_assoc. reflexivity.
    + destruct (Ascii.eqb c "{") eqn:Hc.
      * apply Ascii.eqb_eq in Hc. subst c. rewrite IH. reflexivity.
      * rewrite IH. reflexivity.
Qed.

Lemma replaceVariables_plain (callback : string -> string) (s rest : string) :
  lacks "{" s = true ->
  replaceVariables callback None (s +:+ rest) = s +:+ replaceVariables callback None rest.
Proof.
  induction s as [|c s IH]; [reflexivity|].
  cbn [lacks forall_string]. intros H. apply andb_true_iff in H as [Hc Hs].
  apply negb_true_iff in Hc. rewrite !app_cons. cbn [replaceVariables].
  rewrite Hc. f_equal. apply IH, Hs.
Qed.

Lemma replaceVariables_inside (callback : string -> string) (content name rest : string) :
  lacks "}" name = true -> nonempty (content +:+ name) = true ->
  replaceVariables callback (Some content) (name +:+ "}" +:+ rest)
  = callback (content +:+ name) +:+ replaceVariables callback None rest.
Proof.
  revert content. induction name as [|c name IH]; intros content.
  - intros _ Hne. rewrite string_app_nil_r in *. rewrite app_nil, app_cons.
    cbn [replaceVariables]. rewrite Ascii.eqb_refl, Hne. reflexivity.
  - cbn [lacks forall_string]. intros H Hne. apply andb_true_iff in H as [Hc Hs].
    apply negb_true_iff in Hc. rewrite app_cons. cbn [replaceVariables]. rewrite Hc.
    replace (content +:+ String c name) with ((content +:+ String c EmptyString) +:+ name)
      in * by (rewrite string_app_assoc; reflexivity).
    apply IH; [exact Hs|exact Hne].
Qed.

(** X18. Server variables.  A variable reference [{name}] in the URL of a
    server object is replaced by the default the object declares for it when
    that default is a string, and left as written otherwise; the text before
    the first opening brace is kept as it is, and a URL none of whose
    variables has a string default is returned unchanged. *)
Theorem server_variables (server : Json) (url : string) :
  truthy_val server = true -> typeof_object (Some server) = true ->
  get server "url" = Some (JStr url) -> nonempty url = true ->
  ((forall varName, variableDefault server varName = None) ->
   resolveOpenApi3ServerUrl (Some server) = url)
  /\ forall variables before name after,
       get server "variables" = Some variables ->
       truthy_val variables = true -> typeof_object (Some variables) = true ->
       url = before +:+ "{" +:+ name +:+ "}" +:+ after ->
       lacks "{" before = true -> lacks "}" name = true -> nonempty name = true ->
       exists rest,
         resolveOpenApi3ServerUrl (Some server)
         = before +:+ match variableDefault server name with
                      | Some value => value
                      | None => "{" +:+ name +:+ "}"
                      end +:+ rest.
Proof.
  intros Htruthy Hobj Hurl Hne.
  unfold resolveOpenApi3ServerUrl. cbn [truthy]. rewrite Htruthy, Hobj.
  cbn [negb orb get_opt]. rewrite Hurl. cbn [typeof_string as_string]. rewrite Hne.
  cbn [negb]. split.
  - intros Hnone. destruct (get server "variables") as [variables|] eqn:Hvars;
      [|reflexivity].
    destruct (negb (truthy_val variables) || negb (typeof_object (Some variables)));
      [reflexivity|].
    rewrite (replaceVariables_verbatim _ url None); [reflexivity|].
    intros varName _. specialize (Hnone varName). unfold variableDefault in Hnone.
    rewrite Hvars in Hnone.
    destruct (truthy (Parser.member variables varName)
              && typeof_string (get_opt (Parser.member variables varName) "default"));
      [discriminate Hnone|reflexivity].
  - intros variables before name after Hvars Hvt Hvo -> Hbefore Hname Hnonempty.
    rewrite Hvars, Hvt, Hvo. cbn [negb orb].
    rewrite replaceVariables_plain by exact Hbefore.
    rewrite app_cons, app_nil. cbn [replaceVariables]. rewrite Ascii.eqb_refl.
    rewrite (replaceVariables_inside _ EmptyString name after Hname)
      by (rewrite app_nil; exact Hnonempty).
    rewrite app_nil. eexists. unfold variableDefault. rewrite Hvars.
    destruct (truthy (Parser.member variables name)
              && typeof_string (get_opt (Parser.member variables name) "default"));
      reflexivity.
Qed.

End ServerVariables.

Lemma server_variables_witness :
  exists rest,
    Compiler.resolveOpenApi3ServerUrl (Some stagingServer)
    = "https://" +:+ match variableDefault stagingServer "env" with
                     | Some value => value
                     | None => "{" +:+ "env" +:+ "}"
                     end +:+ rest.
Proof.
  exact (proj2 (server_variables stagingServer "https://{env}.cars.example/{version}"
                  ltac:(reflexivity) ltac:(reflexivity) ltac:(reflexivity)
                  ltac:(reflexivity))
           (JObj [("env", JObj [("default", JStr "staging")]);
                  ("version", JObj [("enum", JArr [JStr "v1"])])])
           "https://" "env" ".cars.example/{version}"
           ltac:(reflexivity) ltac:(reflexivity) ltac:(reflexivity) ltac:(reflexivity)
           ltac:(reflexivity) ltac:(reflexivity) ltac:(reflexivity)).
Defined.

Example server_variables_example :
  Compiler.resolveOpenApi3ServerUrl (Some stagingServer)
  = "https://staging.cars.example/{version}".
Proof. reflexivity. Qed.

(** ** Writing the server URL into a document *)

Section ServerUrlInDocument.
Import Compiler.

Lemma assoc_remove_field_eq (key : string) (fields : Obj) :
  assoc key (remove_field key fields) = None.
Proof.
  unfold remove_field. induction fields as [|[k v] rest IH]; [reflexivity|].
  cbn [List.filter fst]. destruct (String.eqb k key) eqn:Hk; cbn [negb]; [exact IH|].
  cbn [assoc]. rewrite Hk. exact IH.
Qed.

Lemma assoc_remove_field_ne (key other : string) (fields : Obj) :
  other <> key -> assoc other (remove_field key fields) = assoc other fields.
Proof.
  intros Hne. unfold remove_field. induction fields as [|[k v] rest IH]; [reflexivity|].
  cbn [List.filter fst]. destruct (String.eqb k key) eqn:Hk; cbn [negb assoc].
  - apply String.eqb_eq in Hk. subst k.
    apply String.eqb_neq in Hne. rewrite String.eqb_sym, Hne. exact IH.
  - rewrite IH. reflexivity.
Qed.

(** What [applyOpenApi3ServerUrl] leaves in the document: the first server
    is an object with the new URL, and no other property changed. *)
Lemma applyOpenApi3ServerUrl_fields (fields : Obj) (newUrl : string) :
  let fields' := fst (applyOpenApi3ServerUrl fields newUrl) in
  (exists server others,
     assoc "servers" fields' = Some (JArr (JObj server :: others))
     /\ assoc "url" server = Some (JStr newUrl)
     /\ forall k, k <> "url" ->
          assoc k server
          = match assoc "servers" fields with
            | Some (JArr (first :: _)) =>
                if truthy_val first then assoc k (Object_entries first) else None
            | _ => None
            end)
  /\ forall k, k <> "servers" -> assoc k fields' = assoc k fields.
Proof.
  unfold applyOpenApi3ServerUrl.
  destruct (assoc "servers" fields) as [[| | | |[|server others]|]|] eqn:Hservers;
    cbn [fst];
    try (split; [exists [("url", JStr newUrl)], [];
                 split; [apply assoc_set_field_eq|];
                 split; [reflexivity|];
                 intros k Hk; apply String.eqb_neq in Hk; cbn [assoc];
                 rewrite String.eqb_sym, Hk; reflexivity
                |intros k Hk; apply assoc_set_field_ne, Hk]).
  destruct (negb (truthy_val server) || negb (typeof_object (Some server))
            || negb (is_str (get server "url") newUrl)) eqn:Hcond; cbn [fst].
  - split; [|intros k Hk; apply assoc_set_field_ne, Hk].
    eexists _, others. split; [apply assoc_set_field_eq|].
    split; [apply assoc_set_field_eq|].
    intros k Hk. rewrite assoc_set_field_ne by exact Hk.
    destruct (truthy_val server); reflexivity.
  - split; [|reflexivity].
    apply orb_false_iff in Hcond as [Hcond Hurl].
    apply orb_false_iff in Hcond as [Htruthy _].
    apply negb_false_iff in Hurl, Htruthy.
    destruct server as [| | | | |s]; try discriminate Hurl.
    cbn [get] in Hurl. destruct (assoc "url" s) as [[| | |u| |]|] eqn:Hu;
      try discriminate Hurl.
    cbn [is_str] in Hurl. apply String.eqb_eq in Hurl. subst u.
    exists s, others. split; [exact Hservers|]. split; [exact Hu|].
    intros k _. reflexivity.
Qed.

Lemma applyOpenApi3ServerUrl_settles (fields : Obj) (newUrl : string) :
  applyOpenApi3ServerUrl (fst (applyOpenApi3ServerUrl fields newUrl)) newUrl
  = (fst (applyOpenApi3ServerUrl fields newUrl), false).
Proof.
  destruct (applyOpenApi3ServerUrl_fields fields newUrl)
    as [(server & others & Hservers & Hurl & _) _].
  cbv zeta in Hservers.
  unfold applyOpenApi3ServerUrl at 1. rewrite Hservers.
  cbn [truthy_val typeof_object negb orb get is_str]. rewrite Hurl.
  cbn [is_str]. rewrite String.eqb_refl. reflexivity.
Qed.

Section WithUrlParser.
Variable safeParseUrl : string -> option UrlParts.

Lemma assoc_setIf_ne (c : bool) (key other : string) (v : Json) (st : Obj * bool) :
  other <> key -> assoc other (fst (setIf c key v st)) = assoc other (fst st).
Proof.
  intros Hne. unfold setIf. destruct c; [|reflexivity]. apply assoc_set_field_ne, Hne.
Qed.

Lemma assoc_setIf_eq (c : bool) (key : string) (v : Json) (st : Obj * bool) :
  assoc key (fst (setIf c key v st)) = if c then Some v else assoc key (fst st).
Proof. unfold setIf. destruct c; [apply assoc_set_field_eq|reflexivity]. Qed.

Lemma setIf_false (key : string) (v : Json) (st : Obj * bool) : setIf false key v st = st.
Proof. reflexivity. Qed.

(** Once a property has been brought to the wanted value, the test that
    guards its assignment fails. *)
Lemma settle_str (b : bool) (x : option Json) (v : string) :
  b && negb (is_str (if b && negb (is_str x v) then Some (JStr v) else x) v) = false.
Proof.
  destruct b; [|reflexivity]. destruct (is_str x v) eqn:Hx; cbn [andb negb].
  - rewrite Hx. reflexivity.
  - cbn [is_str]. rewrite String.eqb_refl. reflexivity.
Qed.

Lemma settle_first (b : bool) (x : option Json) (v : string) :
  b && negb (firstIs (if b && negb (firstIs x v) then Some (JArr [JStr v]) else x) v)
  = false.
Proof.
  destruct b; [|reflexivity]. destruct (firstIs x v) eqn:Hx; cbn [andb negb].
  - rewrite Hx. reflexivity.
  - cbn [firstIs head is_str]. rewrite String.eqb_refl. reflexivity.
Qed.

Ltac lookups :=
  repeat first
    [ rewrite assoc_setIf_eq
    | rewrite assoc_remove_field_eq
    | rewrite assoc_setIf_ne by discriminate
    | rewrite assoc_remove_field_ne by discriminate ];
  cbn [fst].

Lemma applySwagger2ServerUrl_settles (fields : Obj) (newUrl : string) :
  applySwagger2ServerUrl safeParseUrl
    (fst (applySwagger2ServerUrl safeParseUrl fields newUrl)) newUrl
  = (fst (applySwagger2ServerUrl safeParseUrl fields newUrl), false).
Proof.
  unfold applySwagger2ServerUrl.
  destruct (safeParseUrl newUrl) as [parsedUrl|].
  - cbv zeta. lookups.
    destruct (truthy (assoc "servers" fields)) eqn:Hs; cbn [fst]; lookups;
      rewrite settle_first, !settle_str, !setIf_false; cbn [fst truthy]; rewrite ?Hs;
      reflexivity.
  - cbn [fst]. destruct (truthy (assoc "servers" fields)) eqn:Hs; cbn [fst].
    + rewrite assoc_remove_field_eq. reflexivity.
    + rewrite Hs. reflexivity.
Qed.

Lemma applySwagger2ServerUrl_frame (fields : Obj) (newUrl : string) (k : string) :
  k <> "schemes" -> k <> "host" -> k <> "basePath" -> k <> "servers" ->
  assoc k (fst (applySwagger2ServerUrl safeParseUrl fields newUrl)) = assoc k fields.
Proof.
  intros H1 H2 H3 H4. unfold applySwagger2ServerUrl.
  destruct (safeParseUrl newUrl) as [parsedUrl|]; cbv zeta;
    match goal with
    | |- context [if ?c then _ else _] => destruct c
    end; cbn [fst];
    rewrite ?assoc_remove_field_ne by exact H4;
    rewrite ?assoc_setIf_ne by assumption; reflexivity.
Qed.

(** X19. Writing a server URL into a document is idempotent: applied to its
    own result it changes nothing and reports that nothing changed, for a
    Swagger 2 document, an OpenAPI 3 document and anything else, so that the
    document file is rewritten at most once for a given URL. *)
Theorem applyServerUrlToSpec_settles (spec : Json) (newUrl : string) :
  applyServerUrlToSpec safeParseUrl (fst (applyServerUrlToSpec safeParseUrl spec newUrl))
    newUrl
  = (fst (applyServerUrlToSpec safeParseUrl spec newUrl), false).
Proof.
  destruct spec as [| | | | |fields]; try reflexivity.
  unfold applyServerUrlToSpec at 2 3.
  destruct (isSwagger2Spec (JObj fields)) eqn:Hsw.
  - pose proof (applySwagger2ServerUrl_settles fields newUrl) as Hset.
    pose proof (applySwagger2ServerUrl_frame fields newUrl "swagger") as Hframe.
    destruct (applySwagger2ServerUrl safeParseUrl fields newUrl) as [fields' updated].
    cbn [fst] in *. unfold applyServerUrlToSpec.
    assert (Hsw' : isSwagger2Spec (JObj fields') = true).
    { unfold isSwagger2Spec in *. cbn [get] in *.
      rewrite Hframe by discriminate. exact Hsw. }
    rewrite Hsw', Hset. reflexivity.
  - destruct (isOpenApi3Spec (JObj fields)) eqn:Ho3;
      [|cbn [fst]; unfold applyServerUrlToSpec; rewrite Hsw, Ho3; reflexivity].
    pose proof (applyOpenApi3ServerUrl_settles fields newUrl) as Hset.
    destruct (applyOpenApi3ServerUrl_fields fields newUrl) as [_ Hframe].
    destruct (applyOpenApi3ServerUrl fields newUrl) as [fields' updated].
    cbn [fst] in *. unfold applyServerUrlToSpec.
    assert (Hsw' : isSwagger2Spec (JObj fields') = false).
    { unfold isSwagger2Spec in *. cbn [get] in *.
      rewrite Hframe by discriminate. exact Hsw. }
    assert (Ho3' : isOpenApi3Spec (JObj fields') = true).
    { unfold isOpenApi3Spec in *. cbn [get] in *.
      rewrite Hframe by discriminate. exact Ho3. }
    rewrite Hsw', Ho3', Hset. reflexivity.
Qed.

Variable P : Platform.

(** X20. The server URL written into an OpenAPI 3 document is the base URL
    the compiler then derives from it: for a document without an
    [x-base-url] override and without a base path, and a non-empty URL free
    of opening braces, [getBaseUrl] of the updated document is that URL,
    whatever servers the document listed before. *)
Theorem server_url_round_trip (fields : Obj) (newUrl : string) :
  isSwagger2Spec (JObj fields) = false -> isOpenApi3Spec (JObj fields) = true ->
  typeof_string (assoc "x-base-url" fields) = false ->
  getOpenApiBasePath (JObj fields) = None ->
  nonempty newUrl = true -> lacks "{" newUrl = true ->
  getBaseUrl P (fst (applyServerUrlToSpec safeParseUrl (JObj fields) newUrl)) = newUrl.
Proof.
  intros Hsw Ho3 Hoverride Hbase Hne Hplain.
  unfold applyServerUrlToSpec. rewrite Hsw, Ho3.
  destruct (applyOpenApi3ServerUrl_fields fields newUrl)
    as [(server & others & Hservers & Hurl & _) Hframe].
  destruct (applyOpenApi3ServerUrl fields newUrl) as [fields' updated].
  cbn [fst] in *.
  assert (Ho3' : isOpenApi3Spec (JObj fields') = true).
  { unfold isOpenApi3Spec in *. cbn [get] in *. rewrite Hframe by discriminate. exact Ho3. }
  assert (Hresolve : resolveOpenApi3ServerUrl (Some (JObj server)) = newUrl).
  { assert (Hsame : forall callback, replaceVariables callback None newUrl = newUrl).
    { intros callback. rewrite <- (string_app_nil_r newUrl) at 1.
      rewrite replaceVariables_plain by exact Hplain. apply string_app_nil_r. }
    unfold resolveOpenApi3ServerUrl. cbn [truthy truthy_val typeof_object negb orb get_opt get].
    rewrite Hurl. cbn [typeof_string as_string]. rewrite Hne. cbn [negb].
    destruct (assoc "variables" server) as [variables|]; [|reflexivity].
    match goal with
    | |- (if ?c then _ else _) = _ => destruct c; [reflexivity|apply Hsame]
    end. }
  unfold getBaseUrl. rewrite Ho3'. cbn [get]. rewrite (Hframe "x-base-url") by discriminate.
  rewrite Hoverride, Hservers.
  cbn [andb nonempty truthy truthy_val from_option lengthPositive length Nat.ltb Nat.leb
       mbind option_bind first head].
  rewrite Hresolve. unfold appendBasePathIfNeeded.
  assert (Hbase' : getOpenApiBasePath (JObj fields') = None).
  { unfold getOpenApiBasePath in *. cbn [get] in *.
    rewrite (Hframe "basePath") by discriminate. exact Hbase. }
  rewrite Hbase'. reflexivity.
Qed.

End WithUrlParser.
End ServerUrlInDocument.

Lemma server_url_round_trip_witness :
  Compiler.getBaseUrl samplePlatform
    (fst (Compiler.applyServerUrlToSpec (fun _ => None)
            (JObj [("openapi", JStr "3.0.3"); ("servers", JArr [stagingServer])])
            "https://cars.example/v1"))
  = "https://cars.example/v1".
Proof.
  exact (server_url_round_trip (fun _ => None) samplePlatform
           [("openapi", JStr "3.0.3"); ("servers", JArr [stagingServer])]
           "https://cars.example/v1"
           ltac:(reflexivity) ltac:(reflexivity) ltac:(reflexivity) ltac:(reflexivity)
           ltac:(reflexivity) ltac:(reflexivity)).
Defined.

(** ** Tools generated from a document *)

Section GeneratedTools.
Import Compiler.
Variable P : Platform.

Lemma prefix_app_self (a b : string) : String.prefix a (a +:+ b) = true.
Proof.
  induction a as [|c a IH]; [apply prefix_nil|].
  rewrite app_cons, prefix_cons, Ascii.eqb_refl. exact IH.
Qed.

Lemma generateToolName_prefix (apiName pathTemplate verb : string) (operation : Json) :
  startsWith (Parser.generateToolName apiName operation pathTemplate verb)
    (apiName +:+ "_") = true.
Proof.
  unfold Parser.generateToolName, startsWith.
  destruct (truthy (get operation "operationId"));
    rewrite <- (string_app_assoc apiName "_"); apply prefix_app_self.
Qed.

Lemma spread_returns (v : option Json) :
  iterableOrFalsy v = true <-> exists items, spread (Tools.js_or v (JArr [])) = Returned items.
Proof.
  unfold Tools.js_or, iterableOrFalsy.
  destruct v as [[|[]|n|s|items|fields]|]; cbn [truthy_val spread negb]; split;
    try (intros _; eauto; fail); try (intros H; discriminate H);
    try (intros [items' H]; discriminate H); try reflexivity.
  - destruct (negb (n =? 0)) eqn:Hn; cbn [spread negb]; [discriminate|eauto].
  - destruct (negb (n =? 0)) eqn:Hn; cbn [spread negb]; [intros [? H]; discriminate H|].
    reflexivity.
  - destruct (negb (String.eqb s EmptyString)); cbn [spread]; eauto.
Qed.

(** The tool an operation yields, when it yields one. *)
Lemma createToolFromOperation_some (apiName pathTemplate verb : string)
    (operation : Json) (url : string) (pathLevelParams : option Json) (spec : Json) :
  match createToolFromOperation apiName pathTemplate verb operation url pathLevelParams spec with
  | Some t =>
      iterableOrFalsy pathLevelParams = true
      /\ iterableOrFalsy (get operation "parameters") = true
      /\ tool_name t = Parser.generateToolName apiName operation pathTemplate verb
      /\ method t = toUpperCase verb /\ path t = pathTemplate /\ baseUrl t = url
  | None =>
      iterableOrFalsy pathLevelParams = false
      \/ iterableOrFalsy (get operation "parameters") = false
  end.
Proof.
  unfold createToolFromOperation.
  destruct (spread (Tools.js_or pathLevelParams (JArr []))) as [pathLevel|m1] eqn:H1.
  - destruct (spread (Tools.js_or (get operation "parameters") (JArr []))) as [own|m2] eqn:H2.
    + cbn [tool_name method path baseUrl]. repeat split.
      * apply spread_returns. eauto.
      * apply spread_returns. eauto.
    + right. destruct (iterableOrFalsy (get operation "parameters")) eqn:Hi; [|reflexivity].
      apply spread_returns in Hi as [items Hi]. congruence.
  - left. destruct (iterableOrFalsy pathLevelParams) eqn:Hi; [|reflexivity].
    apply spread_returns in Hi as [items Hi]. congruence.
Qed.

Lemma omap_length_le {A B : Type} (f : A -> option B) (l : list A) :
  (length (omap f l) <= length l)%nat.
Proof.
  induction l as [|x l IH]; [reflexivity|].
  cbn [omap list_omap]. destruct (f x); simpl; lia.
Qed.

Lemma toolsOfPath_length (apiName : string) (spec : Json) (url : string)
    (entry : string * Json) :
  (length (toolsOfPath apiName spec url entry) <= 7)%nat.
Proof.
  destruct entry as [pathTemplate pathItem]. unfold toolsOfPath.
  destruct (negb (truthy_val pathItem) || negb (typeof_object (Some pathItem)));
    [simpl; lia|].
  etransitivity; [apply omap_length_le|]. reflexivity.
Qed.

(** X21. The tools compiled from a document.  Every tool comes from an
    operation of the document under one of the seven verbs: it is named by
    [generateToolName] for that operation, so its name starts with the API
    name and an underscore, its method is the upper-cased verb, its path the
    path template, and all tools share the base URL derived from the
    document.  Conversely every such operation whose parameter lists, its own
    and the path item's, are absent, falsy, arrays or strings yields a tool;
    an operation with another parameter list is skipped, the rest of the
    document being compiled all the same.  A path yields at most seven
    tools. *)
Theorem generateToolsFromSpec_tools (spec : Json) (apiName : string)
    (generated : list GeneratedTool) :
  generateToolsFromSpec P spec apiName = Returned generated ->
  (forall t, In t generated ->
     exists pathTemplate pathItem verb operation,
       operationAt spec pathTemplate pathItem verb operation
       /\ iterableOrFalsy (get pathItem "parameters") = true
       /\ iterableOrFalsy (get operation "parameters") = true
       /\ tool_name t = Parser.generateToolName apiName operation pathTemplate verb
       /\ startsWith (tool_name t) (apiName +:+ "_") = true
       /\ method t = toUpperCase verb /\ path t = pathTemplate
       /\ baseUrl t = getBaseUrl P spec)
  /\ (forall pathTemplate pathItem verb operation,
        operationAt spec pathTemplate pathItem verb operation ->
        iterableOrFalsy (get pathItem "parameters") = true ->
        iterableOrFalsy (get operation "parameters") = true ->
        exists t,
          In t generated
          /\ tool_name t = Parser.generateToolName apiName operation pathTemplate verb
          /\ method t = toUpperCase verb /\ path t = pathTemplate)
  /\ (length generated
      <= 7 * length (from_option Object_entries [] (get spec "paths")))%nat.
Proof.
  unfold generateToolsFromSpec. intros Hgen.
  assert (Hspec : spec <> JNull) by (intros ->; discriminate Hgen).
  assert (Hgen' :
    Returned generated
    = match get spec "paths" with
      | Some paths =>
          if truthy_val paths
          then Returned (flat_map (toolsOfPath apiName spec (getBaseUrl P spec))
                           (Object_entries paths))
          else Returned []
      | None => Returned []
      end).
  { destruct spec; first [congruence | symmetry; exact Hgen]. }
  clear Hgen. split; [|split].
  - intros t Ht.
    destruct (get spec "paths") as [paths|] eqn:Hpaths;
      [|injection Hgen' as ->; destruct Ht].
    destruct (truthy_val paths) eqn:Htruthy; injection Hgen' as ->; [|destruct Ht].
    apply in_flat_map in Ht as ([pathTemplate pathItem] & Hentry & Ht).
    unfold toolsOfPath in Ht.
    destruct (negb (truthy_val pathItem) || negb (typeof_object (Some pathItem))) eqn:Hitem;
      [destruct Ht|].
    apply orb_false_iff in Hitem as [Hit Hio]. apply negb_false_iff in Hit, Hio.
    apply list_elem_of_In, list_elem_of_omap in Ht as (verb & Hverb & Hsome).
    apply list_elem_of_In in Hverb.
    destruct (get pathItem verb) as [operation|] eqn:Hop; [|discriminate Hsome].
    destruct (truthy_val operation) eqn:Hot; [|discriminate Hsome].
    pose proof (createToolFromOperation_some apiName pathTemplate verb operation
                  (getBaseUrl P spec) (get pathItem "parameters") spec) as Hcreate.
    rewrite Hsome in Hcreate. destruct Hcreate as (Hi1 & Hi2 & Hname & Hm & Hp & Hb).
    exists pathTemplate, pathItem, verb, operation.
    split; [exists paths; repeat split; assumption|].
    repeat split; try assumption.
    rewrite Hname. apply generateToolName_prefix.
  - intros pathTemplate pathItem verb operation
      (paths & Hpaths & Htruthy & Hentry & Hit & Hio & Hverb & Hop & Hot) Hi1 Hi2.
    rewrite Hpaths, Htruthy in Hgen'. injection Hgen' as ->.
    pose proof (createToolFromOperation_some apiName pathTemplate verb operation
                  (getBaseUrl P spec) (get pathItem "parameters") spec) as Hcreate.
    destruct (createToolFromOperation apiName pathTemplate verb operation
                (getBaseUrl P spec) (get pathItem "parameters") spec) as [t|] eqn:Hsome.
    + destruct Hcreate as (_ & _ & Hname & Hm & Hp & _).
      exists t. split; [|auto].
      apply in_flat_map. exists (pathTemplate, pathItem). split; [exact Hentry|].
      unfold toolsOfPath. rewrite Hit, Hio. cbn [negb orb].
      apply list_elem_of_In, list_elem_of_omap. exists verb.
      split; [apply list_elem_of_In, Hverb|]. rewrite Hop, Hot. exact Hsome.
    + destruct Hcreate; congruence.
  - destruct (get spec "paths") as [paths|]; [|injection Hgen' as ->; simpl; lia].
    destruct (truthy_val paths); injection Hgen' as ->; [|simpl; lia].
    cbn [from_option]. induction (Object_entries paths) as [|entry rest IH];
      [simpl; lia|].
    cbn [flat_map length]. rewrite length_app.
    pose proof (toolsOfPath_length apiName spec (getBaseUrl P spec) entry). lia.
Qed.

End GeneratedTools.

Lemma generateToolsFromSpec_tools_witness :
  exists t,
    In t petsTools
    /\ tool_name t
       = Parser.generateToolName "pets" (JObj [("summary", JStr "Remove a pet")])
           "/pets/{petId}" "delete"
    /\ method t = toUpperCase "delete" /\ path t = "/pets/{petId}".
Proof.
  refine (proj1 (proj2 (generateToolsFromSpec_tools samplePlatform petsDocument "pets"
                          petsTools ltac:(vm_compute; reflexivity)))
            "/pets/{petId}"
            (JObj [("parameters", JArr [petIdParam]);
                   ("delete", JObj [("summary", JStr "Remove a pet")])])
            "delete" (JObj [("summary", JStr "Remove a pet")]) _ _ _).
  - eexists. split; [reflexivity|]. split; [reflexivity|].
    split; [right; left; reflexivity|]. split; [reflexivity|]. split; [reflexivity|].
    split; [vm_compute; tauto|]. split; reflexivity.
  - reflexivity.
  - reflexivity.
Defined.

Example petsTools_names :
  map tool_name petsTools = ["pets_listPets"; "pets_delete_pets"]
  /\ map baseUrl petsTools = ["https://pets.example/v2"; "https://pets.example/v2"]
  /\ map (fun t => map name (parameters t)) petsTools = [[]; ["petId"]].
Proof. vm_compute. repeat split. Qed.

(** ** Parameter references *)

Section ParameterReferences.
Import Parser.

Lemma split_lacks (sep : ascii) (s : string) : lacks sep s = true -> split sep s = [s].
Proof.
  induction s as [|c s IH]; [reflexivity|].
  cbn [lacks forall_string]. intros H. apply andb_true_iff in H as [Hc Hs].
  apply negb_true_iff in Hc. cbn [split]. rewrite Hc, (IH Hs). reflexivity.
Qed.

Lemma replace_pair_cons (c1 c2 by_ a b : ascii) (rest : string) :
  replace_pair c1 c2 by_ (String a (String b rest))
  = if Ascii.eqb a c1 && Ascii.eqb b c2 then String by_ (replace_pair c1 c2 by_ rest)
    else String a (replace_pair c1 c2 by_ (String b rest)).
Proof. reflexivity. Qed.

Lemma replace_pair_lacks (c1 c2 by_ : ascii) (s : string) :
  lacks c1 s = true -> replace_pair c1 c2 by_ s = s.
Proof.
  assert (Hgen : forall n s, (String.length s <= n)%nat -> lacks c1 s = true ->
                             replace_pair c1 c2 by_ s = s).
  { clear s. induction n as [|n IH]; intros s Hlen Hs.
    - destruct s; [reflexivity|simpl in Hlen; lia].
    - destruct s as [|a [|b rest]]; [reflexivity|reflexivity|].
      cbn [lacks forall_string] in Hs. apply andb_true_iff in Hs as [Ha Hs].
      apply negb_true_iff in Ha. rewrite replace_pair_cons, Ha. cbn [andb].
      f_equal. apply IH; [simpl in *; lia|exact Hs]. }
  exact (Hgen (String.length s) s (le_n _)).
Qed.

(** X22. Parameter references.  A parameter given as a reference to
    [#/components/parameters/<key>] is extracted exactly like the parameter
    object stored there, for a key free of slashes and tildes; a reference
    that does not start with [#/], such as one into another file, yields no
    parameter. *)
Theorem referenced_parameter (root components params param : Obj) (key : string) :
  assoc "components" root = Some (JObj components) ->
  assoc "parameters" components = Some (JObj params) ->
  assoc key params = Some (JObj param) ->
  assoc "$ref" param = None ->
  lacks "/" key = true -> lacks "~" key = true ->
  extractParameters [JObj [("$ref", JStr ("#/components/parameters/" +:+ key))]]
    (Some (JObj root))
  = extractParameters [JObj param] (Some (JObj root))
  /\ forall ref spec,
       startsWith ref "#/" = false ->
       extractParameters [JObj [("$ref", JStr ref)]] spec = [].
Proof.
  intros Hc Hp Hk Hnoref Hslash Htilde. split.
  2: { intros ref spec Hext. cbn [extractParameters]. unfold resolveParameterRef.
       cbn [truthy_val typeof_object negb orb member assoc].
       change (String.eqb "$ref" "$ref") with true. cbv iota.
       destruct spec as [root'|]; [|reflexivity].
       destruct ref as [|c ref']; [reflexivity|].
       cbn [truthy_val String.eqb negb js_String nonempty orb].
       destruct (truthy_val root'); [|reflexivity].
       unfold resolveJsonPointer. rewrite Hext. reflexivity. }
  assert (Hres : resolveParameterRef
                   (JObj [("$ref", JStr ("#/components/parameters/" +:+ key))])
                   (Some (JObj root)) = Some (JObj param)).
  { unfold resolveParameterRef. cbn [truthy_val typeof_object negb orb member assoc].
    change (String.eqb "$ref" "$ref") with true. cbv iota.
    change (truthy_val (JStr ("#/components/parameters/" +:+ key))) with true. cbv iota.
    cbn [js_String].
    change (nonempty ("#/components/parameters/" +:+ key)) with true.
    cbn [negb orb]. unfold resolveJsonPointer.
    change (startsWith ("#/components/parameters/" +:+ key) "#/") with true.
    cbn [negb].
    change (split "/" (drop_string 2 ("#/components/parameters/" +:+ key)))
      with ("components" :: "parameters" :: split "/" key).
    rewrite (split_lacks "/" key Hslash). cbn [map].
    change (unescapePointer "components") with "components".
    change (unescapePointer "parameters") with "parameters".
    unfold unescapePointer at 1.
    rewrite (replace_pair_lacks "~" "1" "/" key Htilde),
            (replace_pair_lacks "~" "0" "~" key Htilde).
    cbn [walk truthy_val typeof_object negb orb member]. rewrite Hc.
    cbn [walk truthy_val typeof_object negb orb member]. rewrite Hp.
    cbn [walk truthy_val typeof_object negb orb member]. rewrite Hk. reflexivity. }
  assert (Hinline : resolveParameterRef (JObj param) (Some (JObj root)) = Some (JObj param)).
  { unfold resolveParameterRef. cbn [truthy_val typeof_object negb orb member].
    rewrite Hnoref. reflexivity. }
  cbn [extractParameters]. rewrite Hres, Hinline. reflexivity.
Qed.

End ParameterReferences.

Lemma referenced_parameter_witness :
  Parser.extractParameters [JObj [("$ref", JStr ("#/components/parameters/" +:+ "limit"))]]
    (Some (JObj [("components", JObj [("parameters", JObj [("limit", limitParam)])])]))
  = Parser.extractParameters [limitParam]
      (Some (JObj [("components", JObj [("parameters", JObj [("limit", limitParam)])])])).
Proof.
  exact (proj1 (referenced_parameter
                  [("components", JObj [("parameters", JObj [("limit", limitParam)])])]
                  [("parameters", JObj [("limit", limitParam)])]
                  [("limit", limitParam)]
                  [("name", JStr "limit"); ("in", JStr "query");
                   ("schema", JObj [("type", JStr "integer")])]
                  "limit"
                  ltac:(reflexivity) ltac:(reflexivity) ltac:(reflexivity)
                  ltac:(reflexivity) ltac:(reflexivity) ltac:(reflexivity))).
Defined.

(** ** The configuration file *)

Section ConfigurationFile.
Import EnvFile.

Lemma splitLines_cons (c : ascii) (rest : string) :
  splitLines (String c rest)
  = if Ascii.eqb c "010" then EmptyString :: splitLines rest
    else match rest with
         | String d rest' =>
             if Ascii.eqb c "013" && Ascii.eqb d "010" then EmptyString :: splitLines rest'
             else match splitLines rest with
                  | line :: lines => String c line :: lines
                  | [] => [String c EmptyString]
                  end
         | EmptyString => [String c EmptyString]
         end.
Proof. reflexivity. Qed.

Lemma splitLines_not_nil (s : string) : splitLines s <> [].
Proof.
  destruct s as [|c rest]; [discriminate|]. rewrite splitLines_cons.
  destruct (Ascii.eqb c "010"); [discriminate|].
  destruct rest as [|d rest']; [discriminate|].
  destruct (Ascii.eqb c "013" && Ascii.eqb d "010"); [discriminate|].
  destruct (splitLines (String d rest')); discriminate.
Qed.

Lemma splitLines_single (d : ascii) (rest h : string) :
  splitLines (String d rest) = [h] -> h <> EmptyString.
Proof.
  rewrite splitLines_cons.
  destruct (Ascii.eqb d "010").
  - intros H. injection H as _ H. exfalso. exact (splitLines_not_nil _ H).
  - destruct rest as [|e rest']; [intros H; injection H as <-; discriminate|].
    destruct (Ascii.eqb d "013" && Ascii.eqb e "010").
    + intros H. injection H as _ H. exfalso. exact (splitLines_not_nil _ H).
    + destruct (splitLines (String e rest')); intros H; injection H as <-; discriminate.
Qed.

Lemma mapLast_cons {A : Type} (f : A -> A) (a : A) (l : list A) :
  l <> [] -> mapLast f (a :: l) = a :: mapLast f l.
Proof. destruct l; [congruence|reflexivity]. Qed.

Lemma chomp_cons (c : ascii) (h : string) :
  h <> EmptyString -> chomp (String c h) = String c (chomp h).
Proof. destruct h; [congruence|reflexivity]. Qed.

Lemma splitLines_app (x y : string) :
  splitLines (x +:+ newline +:+ y) = mapLast chomp (splitLines x) ++ splitLines y.
Proof.
  assert (Hgen : forall n x, (String.length x <= n)%nat ->
            splitLines (x +:+ newline +:+ y) = mapLast chomp (splitLines x) ++ splitLines y).
  { clear x. induction n as [|n IH]; intros x Hlen.
    - destruct x; [reflexivity|simpl in Hlen; lia].
    - destruct x as [|c x']; [reflexivity|].
      rewrite app_cons, (splitLines_cons c x'), (splitLines_cons c (x' +:+ newline +:+ y)).
      destruct (Ascii.eqb c "010") eqn:Hc.
      + rewrite IH by (simpl in Hlen; lia).
        rewrite mapLast_cons by apply splitLines_not_nil. reflexivity.
      + destruct x' as [|d x''].
        * rewrite app_nil. unfold newline. rewrite app_cons, app_nil.
          change (Ascii.eqb "010" "010") with true. rewrite andb_true_r.
          destruct (Ascii.eqb c "013") eqn:Hr.
          -- cbn [mapLast chomp]. rewrite Hr. reflexivity.
          -- rewrite splitLines_cons. change (Ascii.eqb "010" "010") with true.
             cbv iota. cbn [mapLast chomp]. rewrite Hr. reflexivity.
        * rewrite app_cons.
          destruct (Ascii.eqb c "013" && Ascii.eqb d "010") eqn:Hrn.
          -- rewrite IH by (simpl in Hlen; lia).
             rewrite mapLast_cons by apply splitLines_not_nil. reflexivity.
          -- change (String d (x'' +:+ newline +:+ y))
               with (String d x'' +:+ newline +:+ y).
             rewrite (IH (String d x'')) by (simpl in Hlen; simpl; lia).
             destruct (splitLines (String d x'')) as [|h [|h2 t]] eqn:HL.
             ++ exfalso. exact (splitLines_not_nil _ HL).
             ++ cbn [mapLast app]. rewrite chomp_cons by exact (splitLines_single _ _ _ HL).
                reflexivity.
             ++ reflexivity. }
  exact (Hgen (String.length x) x (le_n _)).
Qed.

Lemma chomp_spec (s : string) : chomp s = s \/ s = chomp s +:+ String "013" EmptyString.
Proof.
  induction s as [|c rest IH]; [left; reflexivity|].
  destruct rest as [|d rest'].
  - cbn [chomp]. destruct (Ascii.eqb c "013") eqn:Hc; [|left; reflexivity].
    apply Ascii.eqb_eq in Hc. subst c. right. reflexivity.
  - rewrite chomp_cons by discriminate. destruct IH as [IH|IH].
    + left. rewrite IH. reflexivity.
    + right. rewrite app_cons. f_equal. exact IH.
Qed.

Lemma stripEnd_snoc (p : ascii -> bool) (u : string) (c : ascii) :
  p c = true -> stripEnd p (u +:+ String c EmptyString) = stripEnd p u.
Proof.
  intros Hc. induction u as [|x u IH].
  - rewrite app_nil. cbn [stripEnd]. rewrite Hc. reflexivity.
  - rewrite app_cons. cbn [stripEnd]. rewrite IH. reflexivity.
Qed.

Lemma stripEnd_snoc_keep (p : ascii -> bool) (u : string) (c : ascii) :
  p c = false -> stripEnd p (u +:+ String c EmptyString) = u +:+ String c EmptyString.
Proof.
  intros Hc. induction u as [|x u IH].
  - rewrite app_nil. cbn [stripEnd]. rewrite Hc. reflexivity.
  - rewrite app_cons. cbn [stripEnd]. rewrite IH.
    destruct (u +:+ String c EmptyString) eqn:Hu; [|reflexivity].
    destruct u; discriminate Hu.
Qed.

Lemma stripStart_snoc (p : ascii -> bool) (t : string) (c : ascii) :
  p c = true ->
  stripStart p (t +:+ String c EmptyString)
  = match stripStart p t with
    | EmptyString => EmptyString
    | kept => kept +:+ String c EmptyString
    end.
Proof.
  intros Hc. induction t as [|x t IH].
  - rewrite app_nil. cbn [stripStart]. rewrite Hc. reflexivity.
  - rewrite app_cons. cbn [stripStart]. destruct (p x); [exact IH|reflexivity].
Qed.

Lemma trim_snoc_space (t : string) (c : ascii) :
  Ascii.is_space c = true -> trim (t +:+ String c EmptyString) = trim t.
Proof.
  intros Hc. unfold trim. rewrite stripStart_snoc by exact Hc.
  destruct (stripStart Ascii.is_space t) as [|k kept]; [reflexivity|].
  apply stripEnd_snoc, Hc.
Qed.

Lemma trim_chomp (s : string) : trim (chomp s) = trim s.
Proof.
  destruct (chomp_spec s) as [->|H]; [reflexivity|].
  rewrite H at 2. symmetry. apply trim_snoc_space. reflexivity.
Qed.

Lemma keyOfLine_chomp (s : string) : keyOfLine (chomp s) = keyOfLine s.
Proof. unfold keyOfLine. rewrite trim_chomp. reflexivity. Qed.

Lemma omap_mapLast (lines : list string) :
  omap keyOfLine (mapLast chomp lines) = omap keyOfLine lines.
Proof.
  induction lines as [|a [|b rest] IH]; [reflexivity| |].
  - cbn [mapLast omap list_omap]. rewrite keyOfLine_chomp. reflexivity.
  - change (mapLast chomp (a :: b :: rest)) with (a :: mapLast chomp (b :: rest)).
    cbn [omap list_omap] in *. rewrite IH. reflexivity.
Qed.

Lemma parseEnvKeys_app (x y : string) :
  parseEnvKeys (x +:+ newline +:+ y) = parseEnvKeys x ++ parseEnvKeys y.
Proof.
  unfold parseEnvKeys. rewrite splitLines_app, omap_app, omap_mapLast. reflexivity.
Qed.

Lemma splitLines_lacks (line : string) : lacks "010" line = true -> splitLines line = [line].
Proof.
  induction line as [|c rest IH]; [reflexivity|].
  cbn [lacks forall_string]. intros H. apply andb_true_iff in H as [Hc Hrest].
  apply negb_true_iff in Hc. rewrite splitLines_cons, Hc.
  destruct rest as [|d rest']; [reflexivity|].
  assert (Hd : Ascii.eqb d "010" = false).
  { cbn [forall_string] in Hrest. apply andb_true_iff in Hrest as [Hd _].
    apply negb_true_iff, Hd. }
  rewrite Hd, andb_false_r, (IH Hrest). reflexivity.
Qed.

Lemma parseEnvKeys_line (line : string) :
  lacks "010" line = true -> parseEnvKeys line = omap keyOfLine [line].
Proof. intros H. unfold parseEnvKeys. rewrite splitLines_lacks by exact H. reflexivity. Qed.

Lemma parseEnvKeys_block (line : string) (lines : list string) :
  forallb (lacks "010") (line :: lines) = true ->
  parseEnvKeys (join newline (line :: lines) +:+ newline)
  = omap keyOfLine (line :: lines).
Proof.
  revert line. induction lines as [|next rest IH]; intros line Hall.
  - cbn [join]. cbn [forallb] in Hall. apply andb_true_iff in Hall as [Hline _].
    rewrite <- (string_app_nil_r (line +:+ newline)), string_app_assoc, parseEnvKeys_app.
    rewrite parseEnvKeys_line by exact Hline. cbn [omap list_omap].
    destruct (keyOfLine line); reflexivity.
  - cbn [forallb] in Hall. apply andb_true_iff in Hall as [Hline Hrest].
    change (join newline (line :: next :: rest))
      with (line +:+ newline +:+ join newline (next :: rest)).
    rewrite !string_app_assoc, parseEnvKeys_app, (IH next Hrest).
    rewrite parseEnvKeys_line by exact Hline. cbn [omap list_omap].
    destruct (keyOfLine line); reflexivity.
Qed.

Lemma span_app (p : ascii -> bool) (key : string) (c : ascii) (rest : string) :
  forall_string p key = true -> p c = false ->
  span p (key +:+ String c rest) = (key, String c rest).
Proof.
  intros Hkey Hc. induction key as [|x key IH].
  - rewrite app_nil. cbn [span]. rewrite Hc. reflexivity.
  - cbn [forall_string] in Hkey. apply andb_true_iff in Hkey as [Hx Hkey].
    rewrite app_cons. cbn [span]. rewrite Hx, (IH Hkey). reflexivity.
Qed.

Lemma isKeyChar_not_space (c : ascii) :
  isKeyChar c = true -> Ascii.is_space c = false /\ Ascii.eqb "#" c = false.
Proof.
  destruct c as [[] [] [] [] [] [] [] []]; vm_compute; intros H;
    first [split; reflexivity | discriminate H].
Qed.

Lemma keyOfLine_assignment (key : string) :
  nonempty key = true -> forall_string isKeyChar key = true ->
  keyOfLine (key +:+ "=" +:+ Auth.getEnvPlaceholderValue key) = Some key.
Proof.
  intros Hne Hkey.
  assert (Hvalue : Auth.getEnvPlaceholderValue key = EmptyString).
  { unfold Auth.getEnvPlaceholderValue. destruct (endsWith key "_SERVER_URL");
      [reflexivity|]. destruct (endsWith key "_BEARER_TOKEN"); reflexivity. }
  rewrite Hvalue. change ("=" +:+ EmptyString) with "=".
  destruct key as [|k key']; [discriminate Hne|].
  assert (Hk : isKeyChar k = true).
  { cbn [forall_string] in Hkey. apply andb_true_iff in Hkey as [Hk _]. exact Hk. }
  destruct (isKeyChar_not_space k Hk) as [Hspace Hhash].
  assert (Htrim : trim (String k key' +:+ "=") = String k key' +:+ "=").
  { unfold trim. rewrite app_cons. cbn [stripStart]. rewrite Hspace.
    rewrite <- app_cons. apply stripEnd_snoc_keep. reflexivity. }
  unfold keyOfLine. rewrite Htrim.
  assert (Hstart : startsWith (String k key' +:+ "=") "#" = false).
  { unfold startsWith. rewrite app_cons, prefix_cons, Hhash. reflexivity. }
  rewrite Hstart. rewrite app_cons at 1. cbn [nonempty negb orb].
  unfold matchKey. rewrite (span_app isKeyChar (String k key') "=" EmptyString Hkey)
    by reflexivity.
  reflexivity.
Qed.

Lemma take_drop_string (n : nat) (s : string) : take_string n s +:+ drop_string n s = s.
Proof.
  revert s. induction n as [|n IH]; intros s; [destruct s; reflexivity|].
  destruct s as [|c s]; [reflexivity|]. cbn [take_string drop_string].
  rewrite app_cons, IH. reflexivity.
Qed.

Lemma endsWith_inv (s suffix : string) :
  endsWith s suffix = true -> exists a, s = a +:+ suffix.
Proof.
  unfold endsWith. intros H. apply andb_true_iff in H as [_ H].
  apply String.eqb_eq in H.
  exists (take_string (String.length s - String.length suffix) s).
  rewrite <- H at 2. symmetry. apply take_drop_string.
Qed.

Lemma existsb_eqb_In (k : string) (keys : list string) :
  existsb (String.eqb k) keys = true <-> In k keys.
Proof.
  rewrite existsb_exists. split.
  - intros (x & Hx & Heq). apply String.eqb_eq in Heq. subst x. exact Hx.
  - intros H. exists k. split; [exact H|apply String.eqb_refl].
Qed.

Lemma slugChar_keyChar (c : ascii) :
  slugChar c = true -> isKeyChar (upper_char c) = true.
Proof.
  destruct c as [[] [] [] [] [] [] [] []]; vm_compute; intros H;
    first [reflexivity | discriminate H].
Qed.

Lemma isKeyChar_not_newline (c : ascii) :
  isKeyChar c = true -> negb (Ascii.eqb c "010") = true.
Proof.
  destruct c as [[] [] [] [] [] [] [] []]; vm_compute; intros H;
    first [reflexivity | discriminate H].
Qed.

(** The keys [missingKeys] can return: well-formed, and absent from the
    keys it was given. *)
Lemma missingKeys_In (existingKeys specFiles : list string) (k : string) :
  In k (Auth.missingKeys existingKeys specFiles) ->
  In k (placeholderKeys specFiles)
  /\ existsb (String.eqb k) existingKeys = false
  /\ nonempty k = true /\ forall_string isKeyChar k = true.
Proof.
  unfold placeholderKeys, Auth.missingKeys. intros H.
  apply in_flat_map in H as (specFile & Hfile & H).
  set (api := Auth.getApiNameFromFile specFile) in *.
  assert (Hslug : isSlug api = true)
    by (apply strip_slug; [apply collapseRuns_chars|apply collapseRuns_single]).
  destruct (nonempty api) eqn:Hapi; cbn [negb] in H; [|destruct H].
  assert (Hprefix : forall_string isKeyChar (toUpperCase api) = true).
  { unfold isSlug in Hslug.
    apply andb_true_iff in Hslug as [Hslug _]. apply andb_true_iff in Hslug as [Hslug _].
    apply andb_true_iff in Hslug as [Hchars _].
    unfold toUpperCase. rewrite forall_string_map.
    exact (forall_string_impl _ _ _ slugChar_keyChar Hchars). }
  assert (Hvalid : forall suffix, nonempty suffix = true ->
            forall_string isKeyChar suffix = true ->
            nonempty (toUpperCase api +:+ suffix) = true
            /\ forall_string isKeyChar (toUpperCase api +:+ suffix) = true).
  { intros suffix Hne Hsuf. split.
    - destruct (toUpperCase api); [exact Hne|reflexivity].
    - rewrite forall_string_app, Hprefix, Hsuf. reflexivity. }
  apply in_app_iff in H as [H|H].
  - destruct (existsb (String.eqb (toUpperCase api +:+ "_SERVER_URL")) existingKeys) eqn:He;
      [destruct H|]. destruct H as [<-|[]].
    split; [|split; [exact He|apply Hvalid; reflexivity]].
    apply in_flat_map. exists specFile. split; [exact Hfile|]. fold api. rewrite Hapi.
    left. reflexivity.
  - destruct (existsb (String.eqb (toUpperCase api +:+ "_BEARER_TOKEN")) existingKeys) eqn:He;
      [destruct H|]. destruct H as [<-|[]].
    split; [|split; [exact He|apply Hvalid; reflexivity]].
    apply in_flat_map. exists specFile. split; [exact Hfile|]. fold api. rewrite Hapi.
    right. left. reflexivity.
Qed.

(** A wanted key is among the existing keys or among the missing ones. *)
Lemma placeholderKeys_split (existingKeys specFiles : list string) (k : string) :
  In k (placeholderKeys specFiles) ->
  In k existingKeys \/ In k (Auth.missingKeys existingKeys specFiles).
Proof.
  unfold placeholderKeys, Auth.missingKeys. intros H.
  apply in_flat_map in H as (specFile & Hfile & H).
  destruct (negb (nonempty (Auth.getApiNameFromFile specFile))) eqn:Hapi; [destruct H|].
  destruct (existsb (String.eqb k) existingKeys) eqn:He;
    [left; apply existsb_eqb_In, He|].
  right. apply in_flat_map. exists specFile. split; [exact Hfile|]. rewrite Hapi.
  cbn [existsb app] in H. destruct H as [<-|[<-|[]]].
  - rewrite He. left. reflexivity.
  - rewrite He. apply in_app_iff. right. left. reflexivity.
Qed.

Lemma missingKeys_nil (existingKeys specFiles : list string) :
  (forall k, In k (placeholderKeys specFiles) -> In k existingKeys) ->
  Auth.missingKeys existingKeys specFiles = [].
Proof.
  intros Hall. destruct (Auth.missingKeys existingKeys specFiles) as [|k rest] eqn:HM;
    [reflexivity|].
  destruct (missingKeys_In existingKeys specFiles k) as (Hwanted & Habsent & _).
  { rewrite HM. left. reflexivity. }
  apply Hall, existsb_eqb_In in Hwanted. congruence.
Qed.

Lemma additions_keys (existingKeys specFiles : list string) (marker : list string)
    (k : string) :
  In k (Auth.missingKeys existingKeys specFiles) ->
  In k (omap keyOfLine
          (marker ++ map (fun key => key +:+ "=" +:+ Auth.getEnvPlaceholderValue key)
                       (Auth.missingKeys existingKeys specFiles))).
Proof.
  intros Hk. rewrite omap_app. apply in_app_iff. right.
  apply list_elem_of_In, list_elem_of_omap.
  exists (k +:+ "=" +:+ Auth.getEnvPlaceholderValue k). split.
  - apply list_elem_of_In.
    exact (in_map (fun key => key +:+ "=" +:+ Auth.getEnvPlaceholderValue key) _ _ Hk).
  - destruct (missingKeys_In _ _ _ Hk) as (_ & _ & Hne & Hchars).
    apply keyOfLine_assignment; assumption.
Qed.

Lemma additions_lines (existingKeys specFiles : list string) (hasMarker : bool) :
  forallb (lacks "010")
    ((if hasMarker then [] else [ENV_PLACEHOLDER_COMMENT])
     ++ map (fun key => key +:+ "=" +:+ Auth.getEnvPlaceholderValue key)
          (Auth.missingKeys existingKeys specFiles)) = true.
Proof.
  rewrite forallb_app. apply andb_true_iff. split; [destruct hasMarker; reflexivity|].
  apply forallb_forall. intros line Hline. apply in_map_iff in Hline as (k & <- & Hk).
  destruct (missingKeys_In _ _ _ Hk) as (_ & _ & _ & Hchars).
  assert (Hvalue : Auth.getEnvPlaceholderValue k = EmptyString).
  { unfold Auth.getEnvPlaceholderValue. destruct (endsWith k "_SERVER_URL");
      [reflexivity|]. destruct (endsWith k "_BEARER_TOKEN"); reflexivity. }
  rewrite Hvalue. unfold lacks. rewrite forall_string_app.
  apply andb_true_iff. split; [|reflexivity].
  exact (forall_string_impl _ _ _ isKeyChar_not_newline Hchars).
Qed.

(** The keys of the content [ensureEnvKeysForSpecs] writes: the keys the
    file had, then those of the appended lines. *)
Lemma updated_keys (envContent : string) (first : string) (more : list string) :
  forallb (lacks "010") (first :: more) = true ->
  let needsNewline := nonempty envContent && negb (endsWith envContent newline) in
  let prefix := if nonempty envContent
                then (if needsNewline then newline else EmptyString)
                else EmptyString in
  parseEnvKeys (envContent +:+ prefix +:+ join newline (first :: more) +:+ newline)
  = parseEnvKeys envContent ++ omap keyOfLine (first :: more).
Proof.
  intros Hlines. cbv zeta.
  destruct envContent as [|c rest] eqn:Hcontent.
  - cbn [nonempty]. rewrite !app_nil. rewrite parseEnvKeys_block by exact Hlines.
    reflexivity.
  - rewrite <- Hcontent. replace (nonempty envContent) with true by (subst; reflexivity).
    cbn [andb]. destruct (endsWith envContent newline) eqn:Hends; cbn [negb].
    + apply endsWith_inv in Hends as [a Ha]. rewrite Ha at 1 2. rewrite app_nil.
      rewrite string_app_assoc, parseEnvKeys_app.
      rewrite parseEnvKeys_block by exact Hlines.
      rewrite <- (string_app_nil_r (a +:+ newline)), string_app_assoc, parseEnvKeys_app.
      change (parseEnvKeys EmptyString) with (@nil string). rewrite app_nil_r. reflexivity.
    + rewrite parseEnvKeys_app. rewrite parseEnvKeys_block by exact Hlines. reflexivity.
Qed.

(** X23. The configuration file after [ensureEnvKeysForSpecs].  When the
    function writes, the new content starts with the old one, defines every
    key the old one defined and the two placeholder keys of every document
    file, and a second run on it writes nothing; when it does not write, the
    file already defines all placeholder keys.  This holds for any content,
    with or without a final newline, with either kind of line ending. *)
Theorem ensureEnvKeysForSpecs_settles (envContent : string) (specFiles : list string) :
  match EnvFile.ensureEnvKeysForSpecs envContent specFiles with
  | Some updated =>
      startsWith updated envContent = true
      /\ (forall k, In k (parseEnvKeys envContent) -> In k (parseEnvKeys updated))
      /\ (forall k, In k (placeholderKeys specFiles) -> In k (parseEnvKeys updated))
      /\ EnvFile.ensureEnvKeysForSpecs updated specFiles = None
  | None =>
      forall k, In k (placeholderKeys specFiles) -> In k (parseEnvKeys envContent)
  end.
Proof.
  unfold EnvFile.ensureEnvKeysForSpecs, Auth.ensureEnvKeysForSpecs.
  destruct (Auth.missingKeys (parseEnvKeys envContent) specFiles) as [|m ms] eqn:HM.
  - intros k Hk. destruct (placeholderKeys_split (parseEnvKeys envContent) _ _ Hk) as [H|H];
      [exact H|]. rewrite HM in H. destruct H.
  - rewrite <- HM. change "# SpecRun placeholders" with ENV_PLACEHOLDER_COMMENT.
    pose proof (additions_lines (parseEnvKeys envContent) specFiles
                  (includes envContent ENV_PLACEHOLDER_COMMENT)) as Hlines.
    pose proof (fun marker k => additions_keys (parseEnvKeys envContent) specFiles marker k)
      as Hkeys.
    set (additions := (if includes envContent ENV_PLACEHOLDER_COMMENT then []
                       else [ENV_PLACEHOLDER_COMMENT]) ++ _) in *.
    destruct additions as [|first more] eqn:Hadd.
    { exfalso. subst additions. rewrite HM in Hadd.
      destruct (includes envContent ENV_PLACEHOLDER_COMMENT); discriminate Hadd. }
    pose proof (updated_keys envContent first more Hlines) as Hupdated.
    cbv zeta in Hupdated. cbv beta iota zeta.
    set (updated := envContent +:+ _) in *.
    assert (Hold : forall k, In k (parseEnvKeys envContent) -> In k (parseEnvKeys updated)).
    { intros k Hk. rewrite Hupdated. apply in_app_iff. left. exact Hk. }
    assert (Hnew : forall k, In k (placeholderKeys specFiles) ->
                             In k (parseEnvKeys updated)).
    { intros k Hk.
      destruct (placeholderKeys_split (parseEnvKeys envContent) _ _ Hk) as [H|H];
        [apply Hold, H|].
      rewrite Hupdated. apply in_app_iff. right. rewrite <- Hadd. apply Hkeys, H. }
    split; [apply prefix_app_self|]. split; [exact Hold|]. split; [exact Hnew|].
    rewrite (missingKeys_nil (parseEnvKeys updated) specFiles Hnew). reflexivity.
Qed.

End ConfigurationFile.

Example ensureEnvKeysForSpecs_example_file :
  EnvFile.ensureEnvKeysForSpecs
    ("CARS_SERVER_URL = https://cars.example" +:+ String "013" EnvFile.newline
     +:+ "# note")
    ["/specs/cars.json"; "/specs/pet-store.openapi.yaml"]
  = Some ("CARS_SERVER_URL = https://cars.example" +:+ String "013" EnvFile.newline
          +:+ "# note" +:+ EnvFile.newline
          +:+ "# SpecRun placeholders" +:+ EnvFile.newline
          +:+ "CARS_BEARER_TOKEN=" +:+ EnvFile.newline
          +:+ "PET_STORE_SERVER_URL=" +:+ EnvFile.newline
          +:+ "PET_STORE_BEARER_TOKEN=" +:+ EnvFile.newline).
Proof. vm_compute. reflexivity. Qed.

(** ** Prompt text *)

Section PromptText.
Import Prompts.

Lemma replaceFences_cons (a : ascii) (s : string) :
  replaceFences (String a s)
  = if fenceAhead (String a s) then "'''" +:+ replaceFences (drop_string 2 s)
    else String a (replaceFences s).
Proof.
  destruct s as [|b [|c rest]]; reflexivity.
Qed.

Lemma fenceAhead_prefix (s : string) : fenceAhead s = String.prefix "```" s.
Proof.
  destruct s as [|a [|b [|c rest]]].
  - reflexivity.
  - rewrite prefix_cons. change (String.prefix "``" EmptyString) with false.
    rewrite andb_false_r. reflexivity.
  - rewrite !prefix_cons. change (String.prefix "`" EmptyString) with false.
    rewrite !andb_false_r. reflexivity.
  - rewrite !prefix_cons, prefix_nil, andb_true_r. unfold fenceAhead, isBacktick.
    rewrite (Ascii.eqb_sym a), (Ascii.eqb_sym b), (Ascii.eqb_sym c), andb_assoc.
    reflexivity.
Qed.

Lemma replaceFences_one (s : string) :
  String.prefix "`" (replaceFences s) = true ->
  String.prefix "`" s = true /\ fenceAhead s = false.
Proof.
  destruct s as [|a s]; [discriminate|]. rewrite replaceFences_cons.
  destruct (fenceAhead (String a s)); [discriminate|].
  rewrite !prefix_cons, !prefix_nil. auto.
Qed.

Lemma replaceFences_two (s : string) :
  String.prefix "``" (replaceFences s) = true -> String.prefix "``" s = true.
Proof.
  destruct s as [|a s]; [discriminate|]. rewrite replaceFences_cons.
  destruct (fenceAhead (String a s)); [discriminate|].
  rewrite !prefix_cons. intros H. apply andb_true_iff in H as [Ha H].
  apply replaceFences_one in H as [H _]. rewrite Ha, H. reflexivity.
Qed.

Lemma replaceFences_three (s : string) : String.prefix "```" (replaceFences s) = false.
Proof.
  destruct s as [|a s]; [reflexivity|]. rewrite replaceFences_cons.
  destruct (fenceAhead (String a s)) eqn:Hf; [reflexivity|].
  rewrite prefix_cons. destruct (Ascii.eqb "`" a) eqn:Ha; [|reflexivity].
  destruct (String.prefix "``" (replaceFences s)) eqn:Hp; [|reflexivity].
  apply replaceFences_two in Hp. rewrite fenceAhead_prefix, prefix_cons, Ha, Hp in Hf.
  discriminate Hf.
Qed.

Lemma replaceFences_free (s : string) : includes (replaceFences s) "```" = false.
Proof.
  assert (Hgen : forall n s, (String.length s <= n)%nat ->
                             includes (replaceFences s) "```" = false).
  { clear s. induction n as [|n IH]; intros s Hlen.
    - destruct s; [reflexivity|simpl in Hlen; lia].
    - destruct s as [|a s]; [reflexivity|].
      pose proof (replaceFences_three (String a s)) as H3.
      rewrite replaceFences_cons in *.
      destruct (fenceAhead (String a s)) eqn:Hf.
      + destruct s as [|b [|c rest]]; try discriminate Hf.
        cbn [drop_string]. rewrite !app_cons, app_nil, !includes_cons, !prefix_cons.
        cbn [Ascii.eqb Bool.eqb andb orb].
        apply IH. simpl in Hlen. lia.
      + rewrite includes_cons, H3. cbn [orb]. apply IH. simpl in Hlen. lia. }
  exact (Hgen (String.length s) s (le_n _)).
Qed.

Lemma replaceFences_chars (q : ascii -> bool) (s : string) :
  q "'"%char = true -> forall_string q s = true -> forall_string q (replaceFences s) = true.
Proof.
  intros Hq.
  assert (Hgen : forall n s, (String.length s <= n)%nat -> forall_string q s = true ->
                             forall_string q (replaceFences s) = true).
  { clear s. induction n as [|n IH]; intros s Hlen Hs.
    - destruct s; [reflexivity|simpl in Hlen; lia].
    - destruct s as [|a s]; [reflexivity|]. rewrite replaceFences_cons.
      destruct (fenceAhead (String a s)) eqn:Hf.
      + destruct s as [|b [|c rest]]; try discriminate Hf.
        cbn [drop_string]. rewrite !app_cons, app_nil. cbn [forall_string].
        rewrite Hq. cbn [andb]. apply IH; [simpl in Hlen; lia|].
        cbn [forall_string] in Hs. apply andb_true_iff in Hs as [_ Hs].
        apply andb_true_iff in Hs as [_ Hs]. apply andb_true_iff in Hs as [_ Hs]. exact Hs.
      + cbn [forall_string] in *. apply andb_true_iff in Hs as [Ha Hs].
        rewrite Ha. apply IH; [simpl in Hlen; lia|exact Hs]. }
  exact (Hgen (String.length s) s (le_n _)).
Qed.

Lemma take_string_length (n : nat) (s : string) : (String.length (take_string n s) <= n)%nat.
Proof.
  revert s. induction n as [|n IH]; intros s; [destruct s; simpl; lia|].
  destruct s as [|c s]; simpl; [lia|]. specialize (IH s). lia.
Qed.

Lemma take_string_forall (p : ascii -> bool) (n : nat) (s : string) :
  forall_string p s = true -> forall_string p (take_string n s) = true.
Proof.
  revert s. induction n as [|n IH]; intros s Hs; [destruct s; reflexivity|].
  destruct s as [|c s]; [reflexivity|]. cbn [forall_string take_string] in *.
  apply andb_true_iff in Hs as [Hc Hs]. rewrite Hc. apply IH, Hs.
Qed.

(** X24. Text interpolated into a prompt is safe to embed: whatever the
    input, the sanitized text is at most [maxLength] characters long, holds
    no control character and no code fence (three backticks in a row). *)
Theorem sanitizePromptText_safe (value : string) (maxLength : nat) :
  let text := sanitizePromptText value maxLength in
  (String.length text <= maxLength)%nat
  /\ forall_string (fun c => negb (isControl c)) text = true
  /\ includes text "```" = false.
Proof.
  unfold sanitizePromptText. cbv zeta. split; [apply take_string_length|]. split.
  - apply take_string_forall, replaceFences_chars; [reflexivity|].
    apply filter_string_forall.
  - set (fenced := replaceFences _).
    destruct (includes (take_string maxLength fenced) "```") eqn:H; [|reflexivity].
    apply (includes_app_l _ (drop_string maxLength fenced)) in H.
    rewrite take_drop_string in H. unfold fenced in H. rewrite replaceFences_free in H.
    discriminate H.
Qed.

End PromptText.

(** ** Tool names given by clients *)

Section ClientToolNames.
Import Tools.

Lemma stripEnd_cons_keep (p : ascii -> bool) (c : ascii) (s : string) :
  p c = false -> stripEnd p (String c s) = String c (stripEnd p s).
Proof. intros Hc. cbn [stripEnd]. destruct (stripEnd p s); [rewrite Hc|]; reflexivity. Qed.

(** X25. A tool name of 7-bit characters that carries a client prefix is
    looked up without it: [normalizeToolName] drops a leading [mcp_specrun_]
    or [specrun_] and trailing white space, and drops one prefix only, so
    that a registered name that itself starts with [specrun_] stays reachable
    with the prefix repeated.  (Beyond 7 bits [trim] removes further white
    space, such as the no-break space.) *)
Theorem normalizeToolName_prefix (toolName : string) :
  forall_string isAscii toolName = true ->
  normalizeToolName ("mcp_specrun_" +:+ toolName) = stripEnd Ascii.is_space toolName
  /\ normalizeToolName ("specrun_" +:+ toolName) = stripEnd Ascii.is_space toolName.
Proof.
  intros _. unfold normalizeToolName, trim. split.
  - rewrite !app_cons, app_nil. cbn [stripStart Ascii.is_space].
    rewrite !stripEnd_cons_keep by reflexivity.
    set (kept := stripEnd Ascii.is_space toolName).
    assert (Hs : startsWith ("mcp_specrun_" +:+ kept) "mcp_specrun_" = true)
      by apply prefix_app_self.
    rewrite !app_cons, app_nil in Hs. rewrite Hs. reflexivity.
  - rewrite !app_cons, app_nil. cbn [stripStart Ascii.is_space].
    rewrite !stripEnd_cons_keep by reflexivity.
    set (kept := stripEnd Ascii.is_space toolName).
    assert (Hs : startsWith ("specrun_" +:+ kept) "specrun_" = true)
      by apply prefix_app_self.
    rewrite !app_cons, app_nil in Hs.
    change (startsWith (String "s" (String "p" (String "e" (String "c" (String "r"
              (String "u" (String "n" (String "_" kept)))))))) "mcp_specrun_") with false.
    cbv iota. rewrite Hs. reflexivity.
Qed.

End ClientToolNames.

Lemma normalizeToolName_prefix_witness :
  Tools.normalizeToolName "mcp_specrun_specrun_status " = "specrun_status"
  /\ Tools.normalizeToolName "specrun_specrun_status " = "specrun_status".
Proof.
  exact (normalizeToolName_prefix "specrun_status " ltac:(reflexivity)).
Defined.

(** ** Parameters of generated tools *)

Section InheritedParameters.
Import Compiler.
Variable P : Platform.

Lemma extractParameters_app (a b : list Json) (spec : option Json) :
  Parser.extractParameters (a ++ b) spec
  = Parser.extractParameters a spec ++ Parser.extractParameters b spec.
Proof.
  induction a as [|x a IH]; [reflexivity|].
  cbn [app Parser.extractParameters].
  destruct (Parser.resolveParameterRef x spec) as [param|]; [|exact IH].
  destruct (negb (truthy_val param)); [exact IH|].
  destruct (Parser.parameterDescriptor param); [|exact IH].
  rewrite IH. reflexivity.
Qed.

Lemma createToolFromOperation_parameters (apiName pathTemplate verb : string)
    (operation : Json) (url : string) (pathLevelParams : option Json) (spec : Json)
    (t : GeneratedTool) :
  createToolFromOperation apiName pathTemplate verb operation url pathLevelParams spec
  = Some t ->
  parameters t
  = Parser.extractParameters (elements pathLevelParams) (Some spec)
    ++ Parser.extractParameters (elements (get operation "parameters")) (Some spec)
  /\ requestBody t = get operation "requestBody".
Proof.
  unfold createToolFromOperation, elements.
  destruct (spread (Tools.js_or pathLevelParams (JArr []))) as [pathLevel|];
    [|discriminate].
  destruct (spread (Tools.js_or (get operation "parameters") (JArr []))) as [own|];
    [|discriminate].
  intros H. injection H as <-. cbn [parameters requestBody].
  split; [apply extractParameters_app|reflexivity].
Qed.

(** X26. Parameters declared on a path item are inherited by every tool of
    that path: the parameters of a generated tool are the descriptors
    extracted from the path item's list followed by those extracted from the
    operation's own list, so an operation-level parameter comes after a
    path-level one of the same name, and the tool's declared body is the
    operation's [requestBody]. *)
Theorem path_level_parameters_inherited (spec : Json) (apiName : string)
    (generated : list GeneratedTool) (t : GeneratedTool) :
  generateToolsFromSpec P spec apiName = Returned generated -> In t generated ->
  exists pathTemplate pathItem verb operation,
    operationAt spec pathTemplate pathItem verb operation
    /\ tool_name t = Parser.generateToolName apiName operation pathTemplate verb
    /\ parameters t
       = Parser.extractParameters (elements (get pathItem "parameters")) (Some spec)
         ++ Parser.extractParameters (elements (get operation "parameters")) (Some spec)
    /\ requestBody t = get operation "requestBody".
Proof.
  unfold generateToolsFromSpec. intros Hgen Ht.
  destruct spec as [| | | | |fields]; try discriminate Hgen;
    try (cbn [get] in Hgen; injection Hgen as <-; destruct Ht).
  destruct (get (JObj fields) "paths") as [paths|] eqn:Hpaths;
    [|injection Hgen as <-; destruct Ht].
  destruct (truthy_val paths) eqn:Htruthy; injection Hgen as <-; [|destruct Ht].
  apply in_flat_map in Ht as ([pathTemplate pathItem] & Hentry & Ht).
  unfold toolsOfPath in Ht.
  destruct (negb (truthy_val pathItem) || negb (typeof_object (Some pathItem))) eqn:Hitem;
    [destruct Ht|].
  apply orb_false_iff in Hitem as [Hit Hio]. apply negb_false_iff in Hit, Hio.
  apply list_elem_of_In, list_elem_of_omap in Ht as (verb & Hverb & Hsome).
  apply list_elem_of_In in Hverb.
  destruct (get pathItem verb) as [operation|] eqn:Hop; [|discriminate Hsome].
  destruct (truthy_val operation) eqn:Hot; [|discriminate Hsome].
  destruct (createToolFromOperation_parameters _ _ _ _ _ _ _ _ Hsome) as [Hparams Hbody].
  pose proof (createToolFromOperation_some apiName pathTemplate verb operation
                (getBaseUrl P (JObj fields)) (get pathItem "parameters") (JObj fields))
    as Hcreate.
  rewrite Hsome in Hcreate. destruct Hcreate as (_ & _ & Hname & _).
  exists pathTemplate, pathItem, verb, operation.
  split; [exists paths; repeat split; assumption|].
  split; [exact Hname|]. split; [exact Hparams|exact Hbody].
Qed.

End InheritedParameters.

Lemma path_level_parameters_inherited_witness :
  exists pathTemplate pathItem verb operation,
    operationAt petsDocument pathTemplate pathItem verb operation
    /\ tool_name (nth 1 petsTools listPetsTool)
       = Parser.generateToolName "pets" operation pathTemplate verb
    /\ parameters (nth 1 petsTools listPetsTool)
       = Parser.extractParameters (elements (get pathItem "parameters"))
           (Some petsDocument)
         ++ Parser.extractParameters (elements (get operation "parameters"))
              (Some petsDocument)
    /\ requestBody (nth 1 petsTools listPetsTool) = get operation "requestBody".
Proof.
  exact (path_level_parameters_inherited samplePlatform petsDocument "pets" petsTools
           (nth 1 petsTools listPetsTool)
           ltac:(vm_compute; reflexivity) ltac:(right; left; reflexivity)).
Defined.

(** ** The URL of a request *)

Section RequestUrl.
Import Http.
Variable P : Platform.

Lemma stripTrailingSlash_slash (url : string) :
  stripTrailingSlash (url +:+ "/") = url.
Proof.
  unfold stripTrailingSlash. rewrite endsWith_app, string_length_app.
  replace (String.length url + String.length "/" - 1)%nat with (String.length url)
    by (simpl; lia).
  apply take_string_app.
Qed.

Lemma substitutePath_none (params : list ToolParameter) (args : Json) (target : string) :
  (forall p, In p params -> in_ p <> "path") ->
  substitutePath P params args target = Returned target.
Proof.
  induction params as [|p rest IH]; intros Hnone; [reflexivity|].
  cbn [substitutePath].
  assert (Hp : String.eqb (in_ p) "path" = false)
    by (apply String.eqb_neq, Hnone; left; reflexivity).
  rewrite Hp.
  destruct (get args (name p)); apply IH; intros q Hq; apply Hnone; right; exact Hq.
Qed.

(** X27. One trailing slash of the base URL is immaterial: a tool whose
    base URL ends in a slash builds the same URL, for any arguments, as the
    same tool with that slash removed; for a tool without path parameters
    that URL is the base URL followed by the path, whatever the arguments. *)
Theorem buildUrl_trailing_slash (tool : GeneratedTool) (url : string) (args : Json) :
  endsWith url "/" = false ->
  buildUrl P (Server.withBaseUrl (url +:+ "/") tool) args
  = buildUrl P (Server.withBaseUrl url tool) args
  /\ ((forall p, In p (parameters tool) -> in_ p <> "path") ->
      buildUrl P (Server.withBaseUrl (url +:+ "/") tool) args
      = Returned (url +:+ path tool)).
Proof.
  intros Hends. unfold buildUrl. cbn [Server.withBaseUrl baseUrl path parameters].
  rewrite stripTrailingSlash_slash.
  assert (Hkeep : stripTrailingSlash url = url)
    by (unfold stripTrailingSlash; rewrite Hends; reflexivity).
  rewrite Hkeep. split; [reflexivity|]. apply substitutePath_none.
Qed.

End RequestUrl.

Lemma buildUrl_trailing_slash_witness :
  Http.buildUrl samplePlatform
    (Server.withBaseUrl ("https://api-server.placeholder" +:+ "/") getCarTool) getCarArgs
  = Http.buildUrl samplePlatform
      (Server.withBaseUrl "https://api-server.placeholder" getCarTool) getCarArgs.
Proof.
  exact (proj1 (buildUrl_trailing_slash samplePlatform getCarTool
                  "https://api-server.placeholder" getCarArgs ltac:(reflexivity))).
Defined.

(** ** Writing the server URL into a Swagger 2 document *)

Section SwaggerServerUrl.
Import Compiler.
Variable safeParseUrl : string -> option UrlParts.
Variable P : Platform.

Ltac lookups :=
  repeat first
    [ rewrite assoc_setIf_eq
    | rewrite assoc_remove_field_eq
    | rewrite assoc_setIf_ne by discriminate
    | rewrite assoc_remove_field_ne by discriminate ];
  cbn [fst].

Lemma firstIs_head (v : option Json) (lit : string) :
  firstIs v lit = true -> exists rest, v = Some (JArr (JStr lit :: rest)).
Proof.
  destruct v as [[| | | |[|[| | |s| |] rest]|]|]; try discriminate.
  cbn [firstIs head is_str]. intros H. apply String.eqb_eq in H. subst s. eauto.
Qed.

Lemma is_str_inv (v : option Json) (lit : string) :
  is_str v lit = true -> v = Some (JStr lit).
Proof.
  destruct v as [[| | |s| |]|]; try discriminate.
  cbn [is_str]. intros H. apply String.eqb_eq in H. subst s. reflexivity.
Qed.

(** What [applySwagger2ServerUrl] leaves in the document for a URL that
    parses. *)
Lemma applySwagger2ServerUrl_fields (fields : Obj) (newUrl : string) (parts : UrlParts) :
  safeParseUrl newUrl = Some parts ->
  let scheme := Http.replaceFirst ":" EmptyString (protocol parts) in
  let fields' := fst (applySwagger2ServerUrl safeParseUrl fields newUrl) in
  (nonempty scheme = true ->
   exists rest, assoc "schemes" fields' = Some (JArr (JStr scheme :: rest)))
  /\ (nonempty (host parts) = true -> assoc "host" fields' = Some (JStr (host parts)))
  /\ assoc "basePath" fields'
     = if nonempty (url_pathname parts) && negb (String.eqb (url_pathname parts) "/")
       then Some (JStr (url_pathname parts)) else assoc "basePath" fields.
Proof.
  intros Hparse. cbv zeta. unfold applySwagger2ServerUrl. rewrite Hparse. cbv zeta.
  split; [|split].
  - intros Hscheme.
    match goal with
    | |- context [if truthy ?s then _ else _] => destruct (truthy s)
    end; cbn [fst]; lookups; rewrite Hscheme; cbn [andb];
      (destruct (firstIs (assoc "schemes" fields) _) eqn:Hfirst; cbn [negb];
       [apply firstIs_head, Hfirst|eauto]).
  - intros Hhost.
    match goal with
    | |- context [if truthy ?s then _ else _] => destruct (truthy s)
    end; cbn [fst]; lookups; rewrite Hhost; cbn [andb];
      (destruct (is_str (assoc "host" fields) (host parts)) eqn:Hh; cbn [negb];
       [apply is_str_inv, Hh|reflexivity]).
  - match goal with
    | |- context [if truthy ?s then _ else _] => destruct (truthy s)
    end; cbn [fst]; lookups;
      (destruct (nonempty (url_pathname parts) && negb (String.eqb (url_pathname parts) "/"));
       cbn [andb]; [|reflexivity];
       destruct (is_str (assoc "basePath" fields) (url_pathname parts)) eqn:Hb; cbn [negb];
       [apply is_str_inv, Hb|reflexivity]).
Qed.

(** X28. The server URL written into a Swagger 2 document is the base URL
    the compiler then derives from it: for a URL that parses with a scheme
    and a host, [getBaseUrl] of the updated document is scheme, [://], host,
    and then the path of the URL when it has one, else the base path the
    document already had. *)
Theorem swagger_url_round_trip (fields : Obj) (newUrl : string) (parts : UrlParts) :
  isSwagger2Spec (JObj fields) = true -> isOpenApi3Spec (JObj fields) = false ->
  safeParseUrl newUrl = Some parts ->
  nonempty (Http.replaceFirst ":" EmptyString (protocol parts)) = true ->
  nonempty (host parts) = true ->
  getBaseUrl P (fst (applyServerUrlToSpec safeParseUrl (JObj fields) newUrl))
  = Http.replaceFirst ":" EmptyString (protocol parts) +:+ "://" +:+ host parts
    +:+ (if nonempty (url_pathname parts) && negb (String.eqb (url_pathname parts) "/")
         then url_pathname parts
         else if typeof_string (assoc "basePath" fields)
              then as_string (assoc "basePath" fields) else EmptyString).
Proof.
  intros Hsw Ho3 Hparse Hscheme Hhost.
  unfold applyServerUrlToSpec. rewrite Hsw.
  destruct (applySwagger2ServerUrl_fields fields newUrl parts Hparse)
    as (Hschemes & Hhost' & Hbase).
  pose proof (applySwagger2ServerUrl_frame safeParseUrl fields newUrl) as Hframe.
  cbv zeta in *.
  destruct (applySwagger2ServerUrl safeParseUrl fields newUrl) as [fields' updated].
  cbn [fst] in *.
  destruct (Hschemes Hscheme) as [rest Hs]. specialize (Hhost' Hhost).
  assert (Hsw' : isSwagger2Spec (JObj fields') = true).
  { unfold isSwagger2Spec in *. cbn [get] in *. rewrite Hframe by discriminate. exact Hsw. }
  assert (Ho3' : isOpenApi3Spec (JObj fields') = false).
  { unfold isOpenApi3Spec in *. cbn [get] in *. rewrite Hframe by discriminate. exact Ho3. }
  unfold getBaseUrl. rewrite Ho3', Hsw'. cbn [andb nonempty get].
  rewrite Hs, Hhost', Hbase. cbn [head typeof_string as_string truthy_val js_String].
  assert (Htruthy : negb (String.eqb (Http.replaceFirst ":" EmptyString (protocol parts))
                            EmptyString) = true).
  { destruct (Http.replaceFirst ":" EmptyString (protocol parts));
      [discriminate Hscheme|reflexivity]. }
  rewrite Htruthy, Hhost.
  destruct (nonempty (url_pathname parts) && negb (String.eqb (url_pathname parts) "/"));
    reflexivity.
Qed.

End SwaggerServerUrl.

Lemma swagger_url_round_trip_witness :
  Compiler.getBaseUrl samplePlatform
    (fst (Compiler.applyServerUrlToSpec
            (fun _ => Some {| Compiler.protocol := "https:";
                              Compiler.host := "pets.example";
                              Compiler.url_pathname := "/" |})
            (JObj [("swagger", JStr "2.0"); ("basePath", JStr "/v2");
                   ("schemes", JArr [JStr "http"])])
            "https://pets.example"))
  = Http.replaceFirst ":" EmptyString "https:" +:+ "://" +:+ "pets.example"
    +:+ (if nonempty "/" && negb (String.eqb "/" "/") then "/"
         else if typeof_string (Some (JStr "/v2"))
              then as_string (Some (JStr "/v2")) else EmptyString).
Proof.
  exact (swagger_url_round_trip
           (fun _ => Some {| Compiler.protocol := "https:";
                             Compiler.host := "pets.example";
                             Compiler.url_pathname := "/" |})
           samplePlatform
           [("swagger", JStr "2.0"); ("basePath", JStr "/v2");
            ("schemes", JArr [JStr "http"])]
           "https://pets.example"
           {| Compiler.protocol := "https:"; Compiler.host := "pets.example";
              Compiler.url_pathname := "/" |}
           ltac:(reflexivity) ltac:(reflexivity) ltac:(reflexivity) ltac:(reflexivity)
           ltac:(reflexivity)).
Defined.

Example swagger_url_round_trip_example :
  Compiler.applyServerUrlToSpec
    (fun _ => Some {| Compiler.protocol := "https:";
                      Compiler.host := "pets.example";
                      Compiler.url_pathname := "/" |})
    (JObj [("swagger", JStr "2.0"); ("basePath", JStr "/v2");
           ("schemes", JArr [JStr "http"]); ("servers", JArr [])])
    "https://pets.example"
  = (JObj [("swagger", JStr "2.0"); ("basePath", JStr "/v2");
           ("schemes", JArr [JStr "https"]); ("host", JStr "pets.example")], true).
Proof. reflexivity. Qed.
